(** * JUDI.jl, [src/pysource/models.py]: the seismic [Model], its absorbing
    boundary field and its CFL time step.

    The Python code works on floating-point numbers.  Throughout this
    development a float is read as the real number it approximates
    (Stdlib's [R]), so that the closed formulas of the code can be stated
    and compared exactly; rounding errors of the binary arithmetic are not
    modelled.  Python integers are [Z], tuples and lists are [list],
    [None]-able values are [option], exceptions are an error sum.

    Real arithmetic is total where floats give [inf] or [nan] (a division
    by zero, the root of a negative number): statements whose meaning
    depends on such a value carry the hypothesis that keeps clear of it.
    The cast [self.dtype(...)] to single precision is the identity here.

    The code calls into three external libraries.  What is used of them is
    modelled in the modules [Numpy], [Sympy] and [Devito] below, from their
    documented behaviour.

    Of [models.py], the development covers [getmin], [getmax], [damp_op],
    [initialize_damp], of the class [Model], [__init__] (the argument
    [abox], which it only stores, is left out), [_init_density],
    [padsizes], [_gen_phys_param],
    [physical_params], [physical_parameters], [spacing], [domain_size],
    [_max_vp], [_cfl_coeff], [_thomsen_scale], [critical_dt] and the
    setters of [m] and [dm], and of the class [EmptyModel], [__init__].
    Of [utils.py] it covers [weight_fun], [weight_srcfocus],
    [compute_optalpha], [fields_kwargs] and [npdot].  The first part
    proves the statements of the specification; the second part, further
    properties of the code. *)

From Stdlib Require Import Reals Lra Lia ZArith List String Bool.
From Stdlib Require Import QArith Qabs Qreals Qfield.
From Stdlib Require Lqa.
From Stdlib Require Import DecimalString.
Import ListNotations.

Local Open Scope Z_scope.
Local Open Scope R_scope.

(** ** Python values *)

(** An n-dimensional array: its shape and the value at each index tuple. *)
Record ndarray := mk_ndarray {
  nd_shape : list Z;
  nd_data : list Z -> R
}.

(** A value passed for a physical parameter: an array or a scalar
    ([None] is the [option]). *)
Inductive pyval :=
| NdArray (a : ndarray)
| Scalar (v : R).

(** The exceptions the modelled code can raise.  [LibraryError] stands for
    an exception raised inside an external library, of a class this
    development does not fix. *)
Inductive exn :=
| ValueError (msg : string)
| TypeError (msg : string)
| AttributeError (attr : string)
| IndexError (msg : string)
| ZeroDivisionError (msg : string)
| LibraryError (origin : string).

Inductive result (A : Type) :=
| Ok (a : A)
| Raise (e : exn).
Arguments Ok {A} a.
Arguments Raise {A} e.

Definition bind {A B : Type} (r : result A) (k : A -> result B) : result B :=
  match r with
  | Ok a => k a
  | Raise e => Raise e
  end.

Notation "x <- r ;; k" := (bind r (fun x => k))
  (at level 61, r at next level, right associativity).
Notation "' p <- r ;; k" := (bind r (fun x => let 'p := x in k))
  (at level 61, p pattern, r at next level, right associativity).

Definition shape_eqb (s t : list Z) : bool :=
  if list_eq_dec Z.eq_dec s t then true else false.

(** A comprehension or loop whose body can raise: the first exception
    ends it. *)
Fixpoint mapM {A B : Type} (f : A -> result B) (l : list A)
  : result (list B) :=
  match l with
  | [] => Ok []
  | x :: rest => y <- f x ;; ys <- mapM f rest ;; Ok (y :: ys)
  end.

(** [l[i]], for [i >= 0]. *)
Definition index {A : Type} (l : list A) (i : nat) (msg : string)
  : result A :=
  match nth_error l i with
  | Some x => Ok x
  | None => Raise (IndexError msg)
  end.

(** A dictionary with string keys: the items in insertion order.  Setting
    a key that is there replaces its value in place. *)
Definition dict (V : Type) : Type := list (string * V).

Fixpoint dict_set {V : Type} (k : string) (v : V) (d : dict V) : dict V :=
  match d with
  | [] => [(k, v)]
  | (k', v') :: rest =>
      if String.eqb k k' then (k, v) :: rest
      else (k', v') :: dict_set k v rest
  end.

Fixpoint dict_get {V : Type} (d : dict V) (k : string) : option V :=
  match d with
  | [] => None
  | (k', v) :: rest => if String.eqb k k' then Some v else dict_get rest k
  end.

(** [d.update(other)] and [d.pop(k, None)]. *)
Definition dict_update {V : Type} (d other : dict V) : dict V :=
  fold_left (fun acc '(k, v) => dict_set k v acc) other d.

Definition dict_pop {V : Type} (k : string) (d : dict V) : dict V :=
  filter (fun '(k', _) => negb (String.eqb k k')) d.

Definition keys {V : Type} (d : dict V) : list string := map fst d.

(** ** numpy *)
Module Numpy.

(** All index tuples of an array of the given shape, in row-major order. *)
Fixpoint indices (shape : list Z) : list (list Z) :=
  match shape with
  | [] => [[]]
  | n :: rest =>
      flat_map (fun i => map (cons (Z.of_nat i)) (indices rest))
               (seq 0 (Z.to_nat n))
  end.

(** The least and the greatest of a list of numbers; the callers see to
    the empty list, for which [numpy] raises. *)
Definition min_list (l : list R) : R :=
  match l with
  | [] => 0
  | x :: xs => fold_left Rmin xs x
  end.

Definition max_list (l : list R) : R :=
  match l with
  | [] => 0
  | x :: xs => fold_left Rmax xs x
  end.

Definition values (a : ndarray) : list R :=
  map (nd_data a) (indices (nd_shape a)).

(** [np.min], [np.amin], [np.max], [np.amax] of an array. *)
Definition amin (a : ndarray) : R := min_list (values a).
Definition amax (a : ndarray) : R := max_list (values a).

(** Element-wise map, as in [1 + 2 * epsilon] or [np.reciprocal(rho)]. *)
Definition map_array (f : R -> R) (a : ndarray) : ndarray :=
  {| nd_shape := nd_shape a; nd_data := fun i => f (nd_data a i) |}.

(** Broadcasting of [src] to the shape [dst] in an assignment
    [x[:] = a]: the shapes are aligned at their last axis and every axis
    of [src] has the length of the destination axis or length 1; axes
    that [src] has in front of those of [dst] must have length 1, and
    are dropped. *)
Fixpoint broadcastable_rev (src dst : list Z) : bool :=
  match src, dst with
  | [], _ => true
  | _ :: _, [] => forallb (fun s => (s =? 1)%Z) src
  | s :: src', d :: dst' =>
      ((s =? d)%Z || (s =? 1)%Z) && broadcastable_rev src' dst'
  end.

Definition broadcastable (src dst : list Z) : bool :=
  broadcastable_rev (rev src) (rev dst).

Fixpoint broadcast_index_rev (src idx : list Z) : list Z :=
  match src, idx with
  | s :: src', i :: idx' =>
      (if (s =? 1)%Z then 0%Z else i) :: broadcast_index_rev src' idx'
  | _ :: _, [] => map (fun _ => 0%Z) src
  | [], _ => []
  end.

Definition broadcast_to (a : ndarray) (dst : list Z) : ndarray :=
  {| nd_shape := dst;
     nd_data := fun idx =>
       nd_data a (rev (broadcast_index_rev (rev (nd_shape a)) (rev idx))) |}.

(** [np.prod] and the sum of a list of numbers. *)
Definition prod (l : list R) : R := fold_right Rmult 1 l.
Definition sum (l : list R) : R := fold_right Rplus 0 l.

(** The shape two arrays of one rank broadcast to: along every axis the
    lengths agree or one of them is 1. *)
Fixpoint broadcast_shapes (s t : list Z) : option (list Z) :=
  match s, t with
  | [], [] => Some []
  | x :: s', y :: t' =>
      match broadcast_shapes s' t' with
      | Some r =>
          if (x =? y)%Z then Some (x :: r)
          else if (x =? 1)%Z then Some (y :: r)
          else if (y =? 1)%Z then Some (x :: r)
          else None
      | None => None
      end
  | _, _ => None
  end.

(** The item of [a] that the index [idx] of the broadcast shape reads. *)
Definition broadcast_item (a : ndarray) (idx : list Z) : R :=
  nd_data a (map (fun '(n, i) => if (n =? 1)%Z then 0%Z else i)
                 (combine (nd_shape a) idx)).

(** [np.einsum('s,s->', a, b)], for a string [s] of [labels] distinct
    letters: the sum, over every index, of the products of the items of
    [a] and [b] at that index. *)
Definition einsum_dot (labels : nat) (a b : ndarray) : result R :=
  let rank_error (n : nat) (operand : string) : option exn :=
    if (labels <? n)%nat then
      Some (ValueError
        "operand has more dimensions than subscripts given in einstein sum, but no '...' ellipsis provided to broadcast the extra dimensions.")
    else if (n <? labels)%nat then
      Some (ValueError
        ("einstein sum subscripts string contains too many subscripts for operand "
         ++ operand)%string)
    else None in
  match rank_error (List.length (nd_shape a)) "0"%string with
  | Some e => Raise e
  | None =>
      match rank_error (List.length (nd_shape b)) "1"%string with
      | Some e => Raise e
      | None =>
          match broadcast_shapes (nd_shape a) (nd_shape b) with
          | None =>
              Raise (ValueError
                "operands could not be broadcast together with remapped shapes")
          | Some s =>
              Ok (sum (map (fun i => broadcast_item a i * broadcast_item b i)
                           (indices s)))
          end
      end
  end.

End Numpy.

(** ** sympy *)
Module Sympy.

Local Open Scope Q_scope.

Definition nthQ (l : list Q) (i : nat) : Q := nth i l 0.
Definition row (delta : list (list Q)) (m : nat) : list Q := nth m delta [].

(** [finite_diff_weights(order, x_list, x0)] is Fornberg's recurrence.
    [delta] holds, for every derivative order [m <= M], the weights
    delta[m][n-1][nu] of the previous node count; entries that the
    recurrence has not set yet read as 0. *)
Definition fornberg_step (M : nat) (x0 : Q) (xs : list Q) (n : nat)
    (c1 : Q) (delta : list (list Q)) : Q * list (list Q) :=
  let xn := nthQ xs n in
  let c2 := fold_left (fun c nu => c * (xn - nthQ xs nu)) (seq 0 n) 1 in
  let new_row (m : nat) : list Q :=
    if (m <=? Nat.min n M)%nat then
      map (fun nu =>
             ((xn - x0) * nthQ (row delta m) nu
              - inject_Z (Z.of_nat m) * (match m with
                                         | O => 0
                                         | S m' => nthQ (row delta m') nu
                                         end))
             / (xn - nthQ xs nu))
          (seq 0 n)
      ++ [ c1 / c2 *
           (inject_Z (Z.of_nat m) * (match m with
                                     | O => 0
                                     | S m' => nthQ (row delta m') (n - 1)
                                     end)
            - (nthQ xs (n - 1) - x0) * nthQ (row delta m) (n - 1)) ]
    else repeat 0 (S n) in
  (c2, map new_row (seq 0 (S M))).

Fixpoint fornberg_loop (M : nat) (x0 : Q) (xs : list Q) (steps : nat)
    (n : nat) (c1 : Q) (delta : list (list Q)) : list (list Q) :=
  match steps with
  | O => delta
  | S steps' =>
      let '(c2, delta') := fornberg_step M x0 xs n c1 delta in
      fornberg_loop M x0 xs steps' (S n) c2 delta'
  end.

(** The weights [finite_diff_weights(order, x_list, x0)[-1][-1]]: those of
    the derivative of order [order] that use every node of [x_list], as
    fractions in lowest terms. *)
Definition finite_diff_weights (order : nat) (x_list : list Q) (x0 : Q)
  : list Q :=
  let delta0 := map (fun m => match m with O => [1] | _ => [0] end)
                    (seq 0 (S order)) in
  map Qred
      (row (fornberg_loop order x0 x_list (List.length x_list - 1) 1 1 delta0)
           order).

(** What makes a list of weights the finite-difference weights of the
    derivative of order [order] at [x0] on the nodes [x_list]: they
    differentiate every monomial [(x - x0)^k], [k < length x_list],
    exactly. *)
Definition moment (ws xs : list Q) (x0 : Q) (k : nat) : Q :=
  fold_right Qplus 0
    (map (fun '(w, x) => w * (x - x0) ^ Z.of_nat k) (combine ws xs)).

Definition exact_on_monomials (order : nat) (xs : list Q) (x0 : Q)
    (ws : list Q) : bool :=
  (List.length ws =? List.length xs)%nat &&
  forallb (fun k =>
             Qeq_bool (moment ws xs x0 k)
                      (if (k =? order)%nat
                       then inject_Z (Z.of_nat (fact order)) else 0))
          (seq 0 (List.length xs)).

Definition sum_abs (ws : list Q) : Q :=
  fold_right Qplus 0 (map Qabs ws).

End Sympy.

(** ** devito *)
Module Devito.

(** A grid: its shape and its physical extent along every dimension.
    The spacing is derived from them, [extent / (shape - 1)]. *)
Record Grid := mk_Grid {
  grid_extent : list R;
  grid_shape : list Z
}.

Definition grid_dim (g : Grid) : nat := List.length (grid_shape g).

Definition grid_spacing (g : Grid) : list R :=
  map (fun '(e, n) => e / IZR (n - 1))
      (combine (grid_extent g) (grid_shape g)).

(** The bindings an expression of an [Operator] is evaluated under, for
    the dimension [d] it ranges over: the running index, [d.symbolic_min],
    [d.symbolic_max] and [d.spacing]. *)
Record env := mk_env {
  idx : Z;
  symbolic_min : Z;
  symbolic_max : Z;
  spacing : R
}.

Inductive side := Left | Right.

(** The two kinds of equation [damp_op] builds: [Eq(damp, v)] assigns at
    every point; [Inc(damp.subs({d: sub}), e)] adds [e] at the points
    whose index along dimension [d] lies in the sub-dimension [sub]. *)
Inductive equation :=
| Eq (v : R)
| Inc (d : nat) (s : side) (thickness : Z) (e : env -> R).

(** [SubDimension.left(parent=d, thickness=t)] covers the [t] points from
    [d.symbolic_min] on, [SubDimension.right] the last [t] points up to
    [d.symbolic_max]. *)
Definition in_subdimension (s : side) (thickness : Z) (v : env) : bool :=
  match s with
  | Left => (symbolic_min v <=? idx v)%Z
            && (idx v <=? symbolic_min v + thickness - 1)%Z
  | Right => (symbolic_max v - thickness + 1 <=? idx v)%Z
             && (idx v <=? symbolic_max v)%Z
  end.

Definition bindings (g : Grid) (d : nat) (cell : list Z) : env :=
  {| idx := nth d cell 0%Z;
     symbolic_min := 0;
     symbolic_max := nth d (grid_shape g) 0%Z - 1;
     spacing := nth d (grid_spacing g) 0 |}.

Definition run_equation (g : Grid) (cell : list Z) (acc : R)
    (q : equation) : R :=
  match q with
  | Eq v => v
  | Inc d s thickness e =>
      if in_subdimension s thickness (bindings g d cell)
      then acc + e (bindings g d cell)
      else acc
  end.

(** Applying an [Operator] to a freshly allocated (zero) field on grid
    [g]: the value left at [cell] once every equation has run. *)
Definition Operator (eqs : list equation) (g : Grid) (cell : list Z) : R :=
  fold_left (run_equation g cell) eqs 0.

(** [initialize_function(f, a, padsizes)]: the array, extended in the
    padding by the value of the nearest point of the array. *)
Fixpoint nearest (shape : list Z) (pads : list (Z * Z)) (cell : list Z)
  : list Z :=
  match shape, pads, cell with
  | n :: shape', (l, _) :: pads', i :: cell' =>
      Z.max 0 (Z.min (n - 1) (i - l)) :: nearest shape' pads' cell'
  | _, _, _ => []
  end.

Definition initialize_function (g : Grid) (a : ndarray)
    (pads : list (Z * Z)) : ndarray :=
  {| nd_shape := grid_shape g;
     nd_data := fun cell => nd_data a (nearest (nd_shape a) pads cell) |}.

(** A physical parameter of a model: a [Function] with its data, a
    [Constant] with its value, or a plain number. *)
Inductive param :=
| Function (name : string) (data : ndarray)
| Constant (name : string) (value : R)
| Number (v : R).

Definition is_Function (p : param) : bool :=
  match p with Function _ _ => true | _ => false end.

(** [mmin] and [mmax] of a [Function]. *)
Definition mmin (data : ndarray) : R := Numpy.amin data.
Definition mmax (data : ndarray) : R := Numpy.amax data.

End Devito.

Import Devito.

(** ** [models.py] *)

Definition getmin (f : param) : R :=
  match f with
  | Function _ data => mmin data
  | Constant _ value => value
  | Number v => v
  end.

Definition getmax (f : param) : R :=
  match f with
  | Function _ data => mmax data
  | Constant _ value => value
  | Number v => v
  end.

Definition is_mask (abc_type : string) : bool := String.eqb abc_type "mask".

(** The expression [val / d.spacing] that [damp_op] adds in a layer of [n]
    points; [offset] is [dim_l - d.symbolic_min] on the left and
    [d.symbolic_max - dim_r] on the right. *)
Definition damp_val (abc_type : string) (n : Z) (offset : env -> Z)
  : env -> R :=
  fun v =>
    let dampcoeff := 1.5 * ln (1.0 / 0.001) / IZR n in
    let pos := Rabs (IZR (n - offset v + 1) / IZR n) in
    let val := dampcoeff * (pos - sin (2 * PI * pos) / (2 * PI)) in
    let val := if is_mask abc_type then - val else val in
    val / spacing v.

(** The body of the loop of [damp_op], for the dimension of index [d] and
    the remaining pad sizes. *)
Fixpoint damp_eqs (ndim : nat) (abc_type : string) (fs : bool) (d : nat)
    (padsizes : list (Z * Z)) : list equation :=
  match padsizes with
  | [] => []
  | (nbl, nbr) :: rest =>
      if (d <? ndim)%nat then
        (if negb fs || negb (S d =? ndim)%nat then
           let nbl := (nbl - 3)%Z in
           [Inc d Left nbl
                (damp_val abc_type nbl (fun v => (idx v - symbolic_min v)%Z))]
         else [])
        ++ (let nbr := (nbr - 3)%Z in
            [Inc d Right nbr
                 (damp_val abc_type nbr (fun v => (symbolic_max v - idx v)%Z))])
        ++ damp_eqs ndim abc_type fs (S d) rest
      else []
  end.

Definition damp_op (ndim : nat) (padsizes : list (Z * Z))
    (abc_type : string) (fs : bool) : list equation :=
  Eq (if is_mask abc_type then 1 else 0)
  :: damp_eqs ndim abc_type fs 0 padsizes.

(** [initialize_damp(damp, padsizes, abc_type, fs)], as the data it leaves
    in [damp], a field on the grid [g]. *)
Definition initialize_damp (g : Grid) (padsizes : list (Z * Z))
    (abc_type : string) (fs : bool) : ndarray :=
  {| nd_shape := grid_shape g;
     nd_data := Operator (damp_op (grid_dim g) padsizes abc_type fs) g |}.

(** *** Python string formatting *)

Local Open Scope string_scope.

Definition str_int (z : Z) : string := NilZero.string_of_int (Z.to_int z).

(** [str(t)] of a tuple of integers: ["()"], ["(3,)"], ["(3, 4)"]. *)
Fixpoint str_items (l : list Z) : string :=
  match l with
  | [] => ""
  | [x] => str_int x
  | x :: rest => str_int x ++ ", " ++ str_items rest
  end.

Definition str_tuple (t : list Z) : string :=
  match t with
  | [x] => "(" ++ str_int x ++ ",)"
  | _ => "(" ++ str_items t ++ ")"
  end.

(** [fmt % t] where [fmt] has a single [%s], between [before] and [after],
    and [t] is a tuple: the tuple is taken as the argument list, so it must
    have exactly one item. *)
Definition format_one (before after : string) (t : list Z) : result string :=
  match t with
  | [] => Raise (TypeError "not enough arguments for format string")
  | [x] => Ok (before ++ str_int x ++ after)
  | _ => Raise
           (TypeError "not all arguments converted during string formatting")
  end.

(** The argument of the [ValueError] of the setters of [m] and [dm]:
    ["Incorrect input size %s for model of size" % new_shape +
     " %s without or %s with padding" % (shape, field_shape)]. *)
Definition incorrect_size_message (new_shape shape field_shape : list Z)
  : result string :=
  head <- format_one "Incorrect input size " " for model of size" new_shape ;;
  Ok (head ++ " " ++ str_tuple shape ++ " without or "
           ++ str_tuple field_shape ++ " with padding").

(** [numpy]'s complaint when [data[:] = a] cannot broadcast [a]. *)
Fixpoint str_items_nospace (l : list Z) : string :=
  match l with
  | [] => ""
  | [x] => str_int x
  | x :: rest => str_int x ++ "," ++ str_items_nospace rest
  end.

Definition str_shape (t : list Z) : string :=
  match t with
  | [x] => "(" ++ str_int x ++ ",)"
  | _ => "(" ++ str_items_nospace t ++ ")"
  end.

Definition broadcast_message (src dst : list Z) : string :=
  "could not broadcast input array from shape " ++ str_shape src
  ++ " into shape " ++ str_shape dst.

Local Close Scope string_scope.

(** [f.data[:] = a] on a field of shape [dst]. *)
Definition assign_data (dst : list Z) (a : ndarray) : result ndarray :=
  if Numpy.broadcastable (nd_shape a) dst
  then Ok (Numpy.broadcast_to a dst)
  else Raise (ValueError (broadcast_message (nd_shape a) dst)).


(** *** The class [Model] *)
Module Model.

(** A parameter or the expression [1 / p]. *)
Inductive expr :=
| Sym (p : param)
| Recip (p : param).

(** The attributes of a [Model] object.  An attribute that [__init__]
    sets only for some models is an [option]. *)
Record t := mk {
  shape : list Z;
  nbl : Z;
  origin : list R;
  fs : bool;
  grid : Grid;
  damp : param;
  _physical_parameters : list string;
  scale : R;
  _space_order : Z;
  _m : option param;
  irho : expr;
  rho : option expr;
  _dm : param;
  _is_viscoacoustic : bool;
  _is_elastic : bool;
  _is_tti : bool;
  qp : option param;
  epsilon : option param;
  delta : option param;
  theta : option param;
  phi : option param;
  lam : option param;
  mu : option param;
  _dt : option R
}.

Definition dim (self : t) : nat := grid_dim (grid self).
Definition spacing (self : t) : list R := grid_spacing (grid self).
Definition space_order (self : t) : Z := _space_order self.
Definition dt (self : t) : option R := _dt self.
Definition is_tti (self : t) : bool := _is_tti self.
Definition is_viscoacoustic (self : t) : bool := _is_viscoacoustic self.
Definition is_elastic (self : t) : bool := _is_elastic self.

(** The property [padsizes], from the attributes it reads. *)
Definition padsizes_of (dim : nat) (nbl : Z) (fs : bool) : list (Z * Z) :=
  repeat (nbl, nbl) (dim - 1) ++ [((if fs then 0 else nbl)%Z, nbl)].

Definition padsizes (self : t) : list (Z * Z) :=
  padsizes_of (dim self) (nbl self) (fs self).

(** [self._gen_phys_param(field, name, space_order)]: the symbolic object
    and the updated list [_physical_parameters]. *)
Definition _gen_phys_param (shape : list Z) (g : Grid)
    (pads : list (Z * Z)) (registered : list string)
    (field : option pyval) (name : string)
  : result (param * list string) :=
  match field with
  | None => Ok (Number 0, registered)
  | Some (NdArray a) =>
      if shape_eqb (nd_shape a) shape then
        Ok (Function name (initialize_function g a pads),
            registered ++ [name])
      else
        data <- assign_data (grid_shape g) a ;;
        Ok (Function name data, registered ++ [name])
  | Some (Scalar v) => Ok (Constant name v, registered ++ [name])
  end.

(** The arguments of [Model(...)].  [origin], [spacing] and [shape] are
    the three tuples of one length given axis by axis. *)
Record axis := mk_axis {
  axis_origin : R;
  axis_spacing : R;
  axis_shape : Z
}.

Record args := mk_args {
  axes : list axis;
  arg_space_order : Z;
  arg_nbl : Z;
  arg_m : option pyval;
  arg_epsilon : option pyval;
  arg_delta : option pyval;
  arg_theta : option pyval;
  arg_phi : option pyval;
  arg_rho : option pyval;
  arg_b : option pyval;
  arg_qp : option pyval;
  arg_lam : option pyval;
  arg_mu : option pyval;
  arg_dm : option pyval;
  arg_fs : bool;
  arg_dt : option R
}.

Definition is_some {A : Type} (o : option A) : bool :=
  match o with Some _ => true | None => false end.

(** [1 if x is None else 1 + 2 * x]. *)
Definition thomsen_stored (x : option pyval) : pyval :=
  match x with
  | None => Scalar 1
  | Some (Scalar v) => Scalar (1 + 2 * v)
  | Some (NdArray a) => NdArray (Numpy.map_array (fun v => 1 + 2 * v) a)
  end.

Fixpoint update_last {A : Type} (f : A -> A) (l : list A) : list A :=
  match l with
  | [] => []
  | [x] => [f x]
  | x :: rest => x :: update_last f rest
  end.

Definition abc_type_of (a : args) : string :=
  if is_some (arg_qp a) || is_some (arg_mu a) then "mask" else "damp".

Definition shape_pml_of (a : args) : list Z :=
  let padded := map (fun x => (axis_shape x + 2 * arg_nbl a)%Z) (axes a) in
  if arg_fs a then update_last (fun n => (n - arg_nbl a)%Z) padded
  else padded.

Definition grid_of (a : args) : Grid :=
  let shape_pml := shape_pml_of a in
  {| grid_extent :=
       map (fun '(x, n) => axis_spacing x * IZR (n - 1))
           (combine (axes a) shape_pml);
     grid_shape := shape_pml |}.

(** *** The density *)

Definition np_amin (x : pyval) : result R :=
  match x with
  | Scalar v => Ok v
  | NdArray a =>
      match Numpy.values a with
      | [] => Raise (ValueError
                "zero-size array to reduction operation minimum which has no identity")
      | _ => Ok (Numpy.amin a)
      end
  end.

Definition np_amax (x : pyval) : result R :=
  match x with
  | Scalar v => Ok v
  | NdArray a =>
      match Numpy.values a with
      | [] => Raise (ValueError
                "zero-size array to reduction operation maximum which has no identity")
      | _ => Ok (Numpy.amax a)
      end
  end.

Definition np_reciprocal (x : pyval) : pyval :=
  match x with
  | Scalar v => Scalar (1 / v)
  | NdArray a => NdArray (Numpy.map_array (fun v => 1 / v) a)
  end.

(** [self._init_density(rho, b, so)]: the attributes [irho] and [rho] it
    sets ([rho] only when a density is given) and the updated list
    [_physical_parameters]. *)
Definition _init_density (shape : list Z) (g : Grid) (pads : list (Z * Z))
    (registered : list string) (rho b : option pyval)
  : result (expr * option expr * list string) :=
  let gen := _gen_phys_param shape g pads registered in
  match rho with
  | Some rho =>
      rm <- np_amin rho ;;
      rM <- np_amax rho ;;
      if Rgt_dec (rm / rM) 0.1 then
        '(p, registered) <- gen (Some (np_reciprocal rho)) "irho"%string ;;
        Ok (Sym p, Some (Recip p), registered)
      else
        '(p, registered) <- gen (Some rho) "rho"%string ;;
        Ok (Recip p, Some (Sym p), registered)
  | None =>
      match b with
      | Some b =>
          '(p, registered) <- gen (Some b) "irho"%string ;;
          Ok (Sym p, None, registered)
      | None => Ok (Sym (Number 1), None, registered)
      end
  end.

(** *** The constructor *)

(** [Function(name="damp", grid=self.grid, space_order=0)] on the grid of
    a model without an axis: devito raises a [ValueError].  Its message
    is devito's own and is not reproduced: the text here only names the
    call. *)
Definition no_dimension : exn :=
  ValueError "Function(name='damp'): the grid has no dimension".

Definition __init__ (a : args) : result t :=
  _ <- (match axes a with
        | [] => if arg_fs a
                then Raise (IndexError "tuple index out of range")
                else Ok tt
        | _ => Ok tt
        end) ;;
  let shape := map axis_shape (axes a) in
  let nbl := arg_nbl a in
  let abc_type := abc_type_of a in
  let fs := arg_fs a in
  let grid := grid_of a in
  let pads := padsizes_of (grid_dim grid) nbl fs in
  '(damp, params) <-
    (if negb (nbl =? 0)%Z then
       match axes a with
       | [] => Raise no_dimension
       | _ => Ok (Function "damp" (initialize_damp grid pads abc_type fs),
                  ["damp"%string])
       end
     else Ok (Number 1, [])) ;;
  let gen := _gen_phys_param shape grid pads in
  '(_m, params) <-
    match arg_m a with
    | Some m => '(p, params) <- gen params (Some m) "m"%string ;;
                Ok (Some p, params)
    | None => Ok (None, params)
    end ;;
  '(irho, rho, params) <-
    _init_density shape grid pads params (arg_rho a) (arg_b a) ;;
  '(_dm, params) <- gen params (arg_dm a) "dm"%string ;;
  let _is_viscoacoustic := is_some (arg_qp a) in
  let _is_elastic := is_some (arg_mu a) in
  let _is_tti := is_some (arg_epsilon a) || is_some (arg_delta a)
                 || is_some (arg_theta a) || is_some (arg_phi a) in
  '(qp, params) <-
    (if _is_viscoacoustic
     then '(p, params) <- gen params (arg_qp a) "qp"%string ;;
          Ok (Some p, params)
     else Ok (None, params)) ;;
  '(tti, params) <-
    (if _is_tti then
       let epsilon := thomsen_stored (arg_epsilon a) in
       let delta := thomsen_stored (arg_delta a) in
       '(e, params) <- gen params (Some epsilon) "epsilon"%string ;;
       top <- np_amax epsilon ;;
       let scale := sqrt top in
       '(d, params) <- gen params (Some delta) "delta"%string ;;
       '(th, params) <- gen params (arg_theta a) "theta"%string ;;
       '(ph, params) <-
         (if (grid_dim grid =? 3)%nat
          then '(p, params) <- gen params (arg_phi a) "phi"%string ;;
               Ok (Some p, params)
          else Ok (None, params)) ;;
       Ok ((scale, Some e, Some d, Some th, ph), params)
     else Ok ((1, None, None, None, None), params)) ;;
  let '(scale, epsilon, delta, theta, phi) := tti in
  '(el, params) <-
    (if _is_elastic then
       '(l, params) <- gen params (arg_lam a) "lam"%string ;;
       '(u, params) <- gen params (arg_mu a) "mu"%string ;;
       Ok ((Some l, Some u), params)
     else Ok ((None, None), params)) ;;
  let '(lam, mu) := el in
  Ok {| shape := shape; nbl := nbl; origin := map axis_origin (axes a);
        fs := fs; grid := grid; damp := damp;
        _physical_parameters := params; scale := scale;
        _space_order := arg_space_order a; _m := _m; irho := irho;
        rho := rho; _dm := _dm; _is_viscoacoustic := _is_viscoacoustic;
        _is_elastic := _is_elastic; _is_tti := _is_tti; qp := qp;
        epsilon := epsilon; delta := delta; theta := theta; phi := phi;
        lam := lam; mu := mu; _dt := arg_dt a |}.

(** *** The CFL time step *)

Definition attr {A : Type} (name : string) (o : option A) : result A :=
  match o with
  | Some x => Ok x
  | None => Raise (AttributeError name)
  end.

(** [range(a, b)]. *)
Definition range (a b : Z) : list Z :=
  map (fun i => (a + Z.of_nat i)%Z) (seq 0 (Z.to_nat (b - a))).

Definition fd_w (order : nat) (x_list : list Z) (x0 : Q) : list Q :=
  Sympy.finite_diff_weights order (map inject_Z x_list) x0.

(** For an elastic model whose [irho] is the expression [1 / rho],
    [getmin] is [np.min] of the expression, the expression itself, and
    its product with a number is an expression again, of which [np.sqrt]
    raises a [TypeError]. *)
Definition _max_vp (self : t) : result R :=
  if is_elastic self then
    l <- attr "lam" (lam self) ;;
    u <- attr "mu" (mu self) ;;
    match irho self with
    | Sym p => Ok (sqrt (getmin p * (getmax l + 2 * getmax u)))
    | Recip _ =>
        Raise (TypeError
          "loop of ufunc does not support argument 0 of type Mul which has no callable sqrt method")
    end
  else
    m <- attr "_m" (_m self) ;;
    Ok (sqrt (1 / getmin m)).

Definition _cfl_coeff (self : t) : result R :=
  if is_elastic self then
    let so := Z.max (space_order self / 2) 2 in
    let coeffs := fd_w 1 (range (- so) so) (1 # 2)%Q in
    let c_fd := Q2R (Sympy.sum_abs coeffs) / 2 in
    Ok (0.9 * sqrt (INR (dim self)) / INR (dim self) / c_fd)
  else
    let a1 := 4 in
    let so := Z.max (space_order self / 2) 4 in
    let coeffs := fd_w 2 (range (- so) so) 0%Q in
    let denominator :=
      INR (grid_dim (grid self)) * Q2R (Sympy.sum_abs coeffs) in
    if Req_dec_T denominator 0
    then Raise (ZeroDivisionError "float division by zero")
    else Ok (0.9 * sqrt (a1 / denominator)).

Definition _thomsen_scale (self : t) : result R :=
  if is_tti self then
    e <- attr "epsilon" (epsilon self) ;;
    Ok (sqrt (1 + 2 * getmax e))
  else Ok 1.

(** The number written by ["%.<prec>e" % x]: [x] rounded, to the nearest
    and on a tie to the even digit, to one digit before and [prec]
    digits after the decimal point of its scientific notation.
    [self.dtype] reads that number back. *)
Definition floor (x : R) : Z := Int_part x.

Definition decimal_exponent (x : R) : Z :=
  floor (ln (Rabs x) / ln 10).

Definition round_half_even (s : R) : Z :=
  let f := floor s in
  if Rlt_dec (s - IZR f) (1 / 2) then f
  else if Rlt_dec (1 / 2) (s - IZR f) then (f + 1)%Z
  else if Z.even f then f else (f + 1)%Z.

Definition sign (x : R) : R := if Rlt_dec x 0 then -1 else 1.

Definition format_e (prec : nat) (x : R) : R :=
  if Req_dec_T x 0 then 0
  else
    let ulp := powerRZ 10 (decimal_exponent x - Z.of_nat prec) in
    sign x * IZR (round_half_even (Rabs x / ulp)) * ulp.

Inductive warning :=
| dt_too_big (provided stable : R).

(** The property [critical_dt]: the value returned and the warnings
    emitted on the way. *)
Definition critical_dt (self : t) : result (R * list warning) :=
  coeff <- _cfl_coeff self ;;
  h <- (match spacing self with
        | [] => Raise (ValueError
                  "zero-size array to reduction operation minimum which has no identity")
        | sp => Ok (Numpy.min_list sp)
        end) ;;
  ts <- _thomsen_scale self ;;
  vp <- _max_vp self ;;
  let dt0 := coeff * h / (ts * vp) in
  let dt0 := format_e 3 dt0 in
  match dt self with
  | Some user =>
      if Req_dec_T user 0 then Ok (dt0, [])
      else if Rgt_dec user dt0 then Ok (dt0, [dt_too_big user dt0])
      else Ok (format_e 3 user, [])
  | None => Ok (dt0, [])
  end.

(** *** The setters of [m] and [dm], applied to an array *)

(** [p.shape]. *)
Definition shape_of (p : param) : result (list Z) :=
  match p with
  | Function _ data => Ok (nd_shape data)
  | Constant _ _ => Ok []
  | Number _ => Raise (AttributeError "shape")
  end.

(** [p.data[:] = a[:]], for [a] of the shape of [p]. *)
Definition write_data (p : param) (a : ndarray) : result param :=
  match p with
  | Function name data =>
      data' <- assign_data (nd_shape data) a ;;
      Ok (Function name data')
  | Constant _ _ =>
      Raise (IndexError "too many indices for array")
  | Number _ => Raise (AttributeError "data")
  end.

(** [initialize_function(p, a, padsizes)]. *)
Definition pad_into (self : t) (p : param) (a : ndarray) : result param :=
  match p with
  | Function name _ =>
      Ok (Function name (initialize_function (grid self) a (padsizes self)))
  | _ => Raise (LibraryError "initialize_function")
  end.

(** The outcome of a setter: the object as the call leaves it, and the
    exception it raised, if any. *)
Definition outcome : Type := t * option exn.

Definition with_m (self : t) (p : param) : t :=
  {| shape := shape self; nbl := nbl self; origin := origin self;
     fs := fs self; grid := grid self; damp := damp self;
     _physical_parameters := _physical_parameters self;
     scale := scale self; _space_order := _space_order self;
     _m := Some p; irho := irho self; rho := rho self; _dm := _dm self;
     _is_viscoacoustic := _is_viscoacoustic self;
     _is_elastic := _is_elastic self; _is_tti := _is_tti self;
     qp := qp self; epsilon := epsilon self; delta := delta self;
     theta := theta self; phi := phi self; lam := lam self; mu := mu self;
     _dt := _dt self |}.

Definition with_dm (self : t) (p : param) (registered : list string) : t :=
  {| shape := shape self; nbl := nbl self; origin := origin self;
     fs := fs self; grid := grid self; damp := damp self;
     _physical_parameters := registered;
     scale := scale self; _space_order := _space_order self;
     _m := _m self; irho := irho self; rho := rho self; _dm := p;
     _is_viscoacoustic := _is_viscoacoustic self;
     _is_elastic := _is_elastic self; _is_tti := _is_tti self;
     qp := qp self; epsilon := epsilon self; delta := delta self;
     theta := theta self; phi := phi self; lam := lam self; mu := mu self;
     _dt := _dt self |}.

Definition finish (self : t) (r : result t) : outcome :=
  match r with
  | Ok self' => (self', None)
  | Raise e => (self, Some e)
  end.

Definition m_setter (self : t) (m : ndarray) : outcome :=
  finish self
    (p <- attr "_m" (_m self) ;;
     field_shape <- shape_of p ;;
     if shape_eqb (nd_shape m) field_shape then
       p' <- write_data p m ;; Ok (with_m self p')
     else if shape_eqb (nd_shape m) (shape self) then
       p' <- pad_into self p m ;; Ok (with_m self p')
     else
       msg <- incorrect_size_message (nd_shape m) (shape self) field_shape ;;
       Raise (ValueError msg)).

Definition dm_setter (self : t) (dm : ndarray) : outcome :=
  finish self
    (if negb (is_Function (_dm self)) then
       '(p, registered) <-
         _gen_phys_param (shape self) (grid self) (padsizes self)
                         (_physical_parameters self) (Some (NdArray dm))
                         "dm" ;;
       Ok (with_dm self p registered)
     else if shape_eqb (nd_shape dm) (shape self) then
       p' <- pad_into self (_dm self) dm ;;
       Ok (with_dm self p' (_physical_parameters self))
     else
       field_shape <- shape_of (_dm self) ;;
       if shape_eqb (nd_shape dm) field_shape then
         p' <- write_data (_dm self) dm ;;
         Ok (with_dm self p' (_physical_parameters self))
       else
         msg <- incorrect_size_message (nd_shape dm) (shape self)
                                       field_shape ;;
         Raise (ValueError msg)).

(** *** The setter of [dm], applied to a number *)

(** [p.data = v]: a [Constant] takes the new value; a [Function] has no
    setter for [data], a number no attribute of that name. *)
Definition set_data (p : param) (v : R) : result param :=
  match p with
  | Constant name _ => Ok (Constant name v)
  | Function _ _ => Raise (AttributeError "data")
  | Number _ => Raise (AttributeError "data")
  end.

Definition dm_setter_scalar (self : t) (dm : R) : outcome :=
  finish self
    (match set_data (_dm self) dm with
     | Ok p' => Ok (with_dm self p' (_physical_parameters self))
     | Raise (AttributeError _) =>
         Ok (with_dm self (Number dm) (_physical_parameters self))
     | Raise e => Raise e
     end).

(** *** The physical parameters, by name *)

Local Open Scope string_scope.

(** [getattr(self, name)] for the names [_gen_phys_param] registers (the
    other attributes of the object are not looked up by name). *)
Definition symbol (name : string) (o : option param) : result expr :=
  p <- attr name o ;; Ok (Sym p).

Definition getattr (self : t) (name : string) : result expr :=
  if name =? "damp" then Ok (Sym (damp self))
  else if name =? "m" then symbol "_m" (_m self)
  else if name =? "irho" then Ok (irho self)
  else if name =? "rho" then attr "rho" (rho self)
  else if name =? "dm" then Ok (Sym (_dm self))
  else if name =? "qp" then symbol "qp" (qp self)
  else if name =? "epsilon" then symbol "epsilon" (epsilon self)
  else if name =? "delta" then symbol "delta" (delta self)
  else if name =? "theta" then symbol "theta" (theta self)
  else if name =? "phi" then symbol "phi" (phi self)
  else if name =? "lam" then symbol "lam" (lam self)
  else if name =? "mu" then symbol "mu" (mu self)
  else Raise (AttributeError name).

(** [isinstance(o, Function) or isinstance(o, Constant)]. *)
Definition is_symbol (o : expr) : bool :=
  match o with
  | Sym (Function _ _) | Sym (Constant _ _) => true
  | Sym (Number _) | Recip _ => false
  end.

(** [o.is_Constant]: an attribute of the symbols of devito, which a
    number and an expression do not have. *)
Definition is_Constant (o : expr) : result bool :=
  match o with
  | Sym (Function _ _) => Ok false
  | Sym (Constant _ _) => Ok true
  | Sym (Number _) | Recip _ => Raise (AttributeError "is_Constant")
  end.

Definition physical_parameters (self : t) : result (list string) :=
  mapM (fun p =>
          o <- getattr self p ;;
          c <- is_Constant o ;;
          Ok (if c then p ++ "_const" else p))
       (_physical_parameters self).

(** The keyword arguments of [physical_params]: [born], a boolean when
    given, and new values for parameters. *)
Record kwargs := mk_kwargs {
  born : option bool;
  given : dict expr
}.

Definition kwargs_get (kw : kwargs) (k : string) (default : expr) : expr :=
  match dict_get (given kw) k with
  | Some v => v
  | None => default
  end.

Definition physical_params (self : t) (kw : kwargs) : result (dict expr) :=
  params <-
    fold_left
      (fun acc i =>
         params <- acc ;;
         o <- getattr self i ;;
         Ok (if is_symbol o then dict_set i (kwargs_get kw i o) params
             else params))
      (_physical_parameters self) (Ok []) ;;
  Ok (if negb (match born kw with Some b => b | None => false end)
      then dict_pop "dm" params
      else params).

Local Close Scope string_scope.

Definition domain_size (self : t) : list R :=
  map (fun '(d, s) => IZR (d - 1) * s) (combine (shape self) (spacing self)).

End Model.

(** *** The class [EmptyModel] *)
Module EmptyModel.

Import Ascii.

(** [s.endswith(suffix)] and [s.split('_')[0]]. *)
Fixpoint endswith (s suffix : string) : bool :=
  String.eqb s suffix
  || match s with
     | EmptyString => false
     | String _ rest => endswith rest suffix
     end.

Fixpoint before_underscore (s : string) : string :=
  match s with
  | EmptyString => EmptyString
  | String c rest =>
      if Ascii.eqb c "_"%char then EmptyString
      else String c (before_underscore rest)
  end.

(** The attributes of an [EmptyModel] object: those that [__init__]
    assigns by name, and [attributes], what it sets with [setattr] and
    for [irho]; an attribute set there hides one of the same name. *)
Record t := mk {
  is_tti : bool;
  is_viscoacoustic : bool;
  is_elastic : bool;
  spacing : list R;
  fs : bool;
  space_order : Z;
  grid : Grid;
  damp : param;
  attributes : dict Model.expr
}.

(** A [Function] as it is created, with no data written. *)
Definition zeros (g : Grid) : ndarray :=
  {| nd_shape := grid_shape g; nd_data := fun _ => 0 |}.

Local Open Scope string_scope.

(** The body of the loop over the parameters.  [self.grid] is read when
    a [Function] is created: an attribute [grid] set by an earlier turn
    of the loop is no grid. *)
Definition set_parameter (g : Grid) (attributes : dict Model.expr)
    (p : string) : result (dict Model.expr) :=
  if endswith p "_const" then
    let name := before_underscore p in
    Ok (dict_set name (Model.Sym (Constant name 1)) attributes)
  else
    match dict_get attributes "grid" with
    | Some _ => Raise (LibraryError "Function")
    | None => Ok (dict_set p (Model.Sym (Function p (zeros g))) attributes)
    end.

Definition mem (x : string) (l : list string) : bool :=
  existsb (String.eqb x) l.

(** [EmptyModel(tti, visco, elastic, spacing, fs, space_order, p_params)].
    [order] is the order in which the loop meets the items of the set
    [set(p_params) - {'damp'}], which Python does not fix.  The field
    [damp] is created first, and as in [Model.__init__] it cannot be on
    a grid without an axis. *)
Definition __init__ (tti visco elastic : bool) (spacing : list R) (fs : bool)
    (space_order : Z) (p_params : list string) (order : list string)
  : result t :=
  let N := (2 * space_order + 1)%Z in
  let grid :=
    {| grid_extent := map (fun s => s * IZR (N - 1)) spacing;
       grid_shape := map (fun _ => N) spacing |} in
  damp <-
    match spacing with
    | [] => Raise Model.no_dimension
    | _ => Ok (Function "damp" (zeros grid))
    end ;;
  attributes <-
    fold_left (fun acc p => attributes <- acc ;; set_parameter grid attributes p)
              order (Ok []) ;;
  attributes <-
    (if negb (mem "irho" p_params) && negb (mem "irho_const" p_params) then
       if negb (mem "rho" p_params)
       then Ok (dict_set "irho" (Model.Sym (Number 1)) attributes)
       else match dict_get attributes "rho" with
            | Some (Model.Sym rho) =>
                Ok (dict_set "irho" (Model.Recip rho) attributes)
            | Some (Model.Recip _) => Raise (LibraryError "1 / self.rho")
            | None => Raise (AttributeError "rho")
            end
     else Ok attributes) ;;
  Ok {| is_tti := tti; is_viscoacoustic := visco; is_elastic := elastic;
        spacing := spacing; fs := fs; space_order := space_order;
        grid := grid; damp := damp; attributes := attributes |}.

(** What [order] has to be. *)
Definition enumerates (order p_params : list string) : Prop :=
  NoDup order
  /\ forall p, In p order <-> In p p_params /\ p <> "damp".

(** [getattr(self, name)] for the name of a physical parameter. *)
Definition getattr (self : t) (name : string) : result Model.expr :=
  match dict_get (attributes self) name with
  | Some v => Ok v
  | None =>
      if name =? "damp" then Ok (Model.Sym (damp self))
      else Raise (AttributeError name)
  end.

Local Close Scope string_scope.

Definition dim (self : t) : nat := grid_dim (grid self).

End EmptyModel.

(** ** [utils.py] *)
Module Utils.

(** [x ** y] of floats, for [0 <= x] and [0 < y]. *)
Definition float_power (x y : R) : R :=
  if Req_dec_T x 0 then 0 else Rpower x y.

Local Open Scope string_scope.

(** [weight_srcfocus(model, src_coords, delta, full)].  [src_coords] is
    the first row of the array of source coordinates; the expression
    returned is given by its value at every grid point. *)
Definition weight_srcfocus (model : Model.t) (src_coords : list R)
    (delta : R) (full : bool) : result (list Z -> R) :=
  let dim := Model.dim model in
  w_dim <- (if full then Ok (seq 0 dim)
            else match dim with
                 | O => Raise (IndexError "tuple index out of range")
                 | S k => Ok [k]
                 end) ;;
  isrc <- mapM (fun i =>
                  pad <- index (Model.padsizes model) i
                               "tuple index out of range" ;;
                  x <- index src_coords i
                             ("index " ++ str_int (Z.of_nat i)
                              ++ " is out of bounds for axis 1 with size "
                              ++ str_int (Z.of_nat (List.length src_coords))) ;;
                  s <- index (Model.spacing model) i
                             "tuple index out of range" ;;
                  Ok (IZR (fst pad) + x / s))
               (seq 0 dim) ;;
  _ <- (if (dim =? 0)%nat
        then Raise (ZeroDivisionError "division by zero")
        else Ok tt) ;;
  let h := float_power (Numpy.prod (Model.spacing model)) (1 / INR dim) in
  Ok (fun cell =>
        let radius :=
          Numpy.sum
            (map (fun '(i, d) => (IZR (nth d cell 0%Z) - nth i isrc 0) ^ 2)
                 (combine (seq 0 (List.length w_dim)) w_dim)) in
        sqrt (radius + (delta / h) ^ 2) / (delta / h)).


Local Close Scope string_scope.

(** [compute_optalpha(norm_r, norm_Fty, epsilon, comp_alpha)]. *)
Definition compute_optalpha (norm_r norm_Fty epsilon : R) (comp_alpha : bool)
  : R :=
  if comp_alpha then
    if Rgt_dec norm_r epsilon then
      if Rgt_dec norm_Fty 0
      then norm_r * (norm_r - epsilon) / norm_Fty
      else 0
    else 0
  else 1.

(** An object with a [name], told apart from the other objects of that
    name by [ident]. *)
Record object := mk_object {
  name : string;
  ident : nat
}.

(** An argument of [fields_kwargs]: [None], an iterable of arguments, an
    object whose method [flat] lists its components, or an object that
    has no such method. *)
#[local] Unset Elimination Schemes.
Inductive field :=
| PyNone
| Iterable (items : list field)
| Tensor (o : object) (flat : list object)
| Plain (o : object).
#[local] Set Elimination Schemes.

Fixpoint fields_kwargs_loop (kw : dict object) (f : field) : dict object :=
  match f with
  | PyNone => kw
  | Iterable items =>
      dict_update kw (fold_left fields_kwargs_loop items [])
  | Tensor _ flat =>
      dict_update kw (fold_left (fun acc f => dict_set (name f) f acc) flat [])
  | Plain o => dict_update kw [(name o, o)]
  end.

Definition fields_kwargs (args : list field) : dict object :=
  fold_left fields_kwargs_loop args [].

(** [npdot(a, b)]. *)
Definition npdot (a b : ndarray) : result R :=
  let inds := substring 0 (List.length (nd_shape a)) "ijklm" in
  Numpy.einsum_dot (String.length inds) a b.

End Utils.

(** ** The words of the specification *)

(** Section 4.1: the ramp of a layer of effective thickness [n], at a
    point whose distance to the outer edge of the layer is [dist]. *)
Module Spec.

Definition coeff (n : Z) : R := 1.5 * ln 1000 / IZR n.

Definition pos (n dist : Z) : R := Rabs (IZR (n - dist + 1)) / IZR n.

Definition ramp (n dist : Z) : R :=
  coeff n * (pos n dist - sin (2 * PI * pos n dist) / (2 * PI)).

(** The points of the layer of [n] points on side [s] of an axis of
    [size] points, and their distance to the outer edge. *)
Definition in_layer (s : side) (n size i : Z) : bool :=
  match s with
  | Left => (0 <=? i)%Z && (i <? n)%Z
  | Right => (size - n <=? i)%Z && (i <? size)%Z
  end.

Definition distance_to_layer_edge (s : side) (size i : Z) : Z :=
  match s with
  | Left => i
  | Right => (size - 1 - i)%Z
  end.

(** A dimension-side: the axis, the side and the thickness [t] of the
    boundary layer there. *)
Definition dimension_side : Type := nat * side * Z.

(** What the layer of a dimension-side adds at [cell]: the ramp of
    effective thickness [t - 3] over the spacing of the axis, inside the
    layer, and nothing outside. *)
Definition contribution (g : Grid) (cell : list Z) (ds : dimension_side)
  : R :=
  let '(d, s, t) := ds in
  let n := (t - 3)%Z in
  let size := nth d (grid_shape g) 0%Z in
  let i := nth d cell 0%Z in
  if in_layer s n size i
  then ramp n (distance_to_layer_edge s size i) / nth d (grid_spacing g) 0
  else 0.

Fixpoint dimension_sides (d : nat) (padsizes : list (Z * Z))
  : list dimension_side :=
  match padsizes with
  | [] => []
  | (nbl, nbr) :: rest =>
      (d, Left, nbl) :: (d, Right, nbr) :: dimension_sides (S d) rest
  end.

Definition sum (l : list R) : R := fold_right Rplus 0 l.

(** A point outside the layer of every dimension-side. *)
Definition interior (g : Grid) (cell : list Z) (sides : list dimension_side)
  : Prop :=
  forall d s t, In (d, s, t) sides ->
    in_layer s (t - 3) (nth d (grid_shape g) 0%Z) (nth d cell 0%Z) = false.

(** The near side of the last of [ndim] dimensions. *)
Definition is_free_surface (ndim : nat) (ds : dimension_side) : bool :=
  let '(d, s, _) := ds in
  (S d =? ndim)%nat && match s with Left => true | Right => false end.

(** Rounding to [digits] significant decimal digits. *)
Definition round_significant (digits : nat) (x : R) : R :=
  Model.format_e (digits - 1) x.

(** The nodes of a centered stencil of half-width [h]. *)
Definition centered_nodes (h : Z) : list Z := Model.range (- h) (h + 1).

(** Section 4.2, the Courant coefficient of the acoustic case: from the
    centered second-derivative stencil of half-width
    [max(space_order/2, 4)]. *)
Definition courant_acoustic (dim : nat) (space_order : Z) : R :=
  let weights :=
    Model.fd_w 2 (centered_nodes (Z.max (space_order / 2) 4)) 0%Q in
  0.9 * sqrt (4 / (INR dim * Q2R (Sympy.sum_abs weights))).

End Spec.

(** ** Auxiliary notions of the statements *)

Definition abc_sign (abc_type : string) : R :=
  if is_mask abc_type then -1 else 1.

Definition abc_base (abc_type : string) : R :=
  if is_mask abc_type then 1 else 0.

(** The dimension-sides [damp_op] writes: every one without a free
    surface, every one but the near side of the last axis with it. *)
Definition damped (fs : bool) (ndim : nat) (ds : Spec.dimension_side) : bool :=
  negb (fs && Spec.is_free_surface ndim ds).

Definition thick (sides : list Spec.dimension_side) : Prop :=
  forall d s t, In (d, s, t) sides -> (3 < t)%Z.

(** The stencil the Courant coefficient of a model is computed from: the
    order of the derivative, the nodes and the point of evaluation. *)
Definition stencil_order (self : Model.t) : nat :=
  if Model.is_elastic self then 1%nat else 2%nat.

Definition stencil_nodes (self : Model.t) : list Z :=
  let so := Z.max (Model.space_order self / 2)
                  (if Model.is_elastic self then 2 else 4) in
  Model.range (- so) so.

Definition stencil_x0 (self : Model.t) : Q :=
  if Model.is_elastic self then (1 # 2)%Q else 0%Q.

Definition stencil_weights (self : Model.t) : list Q :=
  Model.fd_w (stencil_order self) (stencil_nodes self) (stencil_x0 self).

(** Notions for the proof that finite-difference weights do not all
    vanish. *)
Module Stencil.

Local Open Scope Q_scope.

(** The coefficient of [x^m] in the product of the [x - a], [a] in [l]. *)
Fixpoint poly_coeff (l : list Q) (m : nat) : Q :=
  match l with
  | [] => if (m =? 0)%nat then 1 else 0
  | a :: l' =>
      (match m with O => 0 | S m' => poly_coeff l' m' end)
      - a * poly_coeff l' m
  end.

(** The offsets of the first [n] nodes from [x0], the last one first. *)
Fixpoint offsets (xs : list Q) (x0 : Q) (n : nat) : list Q :=
  match n with
  | O => []
  | S n' => (Sympy.nthQ xs n' - x0) :: offsets xs x0 n'
  end.

(** The product of the gaps from node [n] to the nodes before it: the
    [c2] of the recurrence once node [n] is in. *)
Definition node_gap (xs : list Q) (n : nat) : Q :=
  fold_left (fun c nu => c * (Sympy.nthQ xs n - Sympy.nthQ xs nu))
            (seq 0 n) 1.

Definition distinct (xs : list Q) : Prop :=
  forall i j, (i < j < List.length xs)%nat ->
    ~ Sympy.nthQ xs j == Sympy.nthQ xs i.

(** The state of the recurrence once node [k] is in: the weight of node
    [k], for every order, in closed form. *)
Definition diagonal_ok (M : nat) (x0 : Q) (xs : list Q) (k : nat) (c : Q)
    (delta : list (list Q)) : Prop :=
  c == node_gap xs k
  /\ forall m, (m <= M)%nat ->
       Sympy.nthQ (Sympy.row delta m) k
       == inject_Z (Z.of_nat (fact m)) * poly_coeff (offsets xs x0 k) m
          / node_gap xs k.

(** The integers [lo + n - 1, ..., lo], downwards. *)
Fixpoint zdown (lo : Z) (n : nat) : list Z :=
  match n with
  | O => []
  | S n' => (lo + Z.of_nat n')%Z :: zdown lo n'
  end.

Definition shifted (x0 : Q) (j : Z) : Q := inject_Z j - x0.

Definition prod_neg (l : list Q) : Q :=
  fold_right (fun a p => - a * p) 1 l.

Definition recip_sum (l : list Q) : Q :=
  fold_right (fun a s => / a + s) 0 l.

End Stencil.

(** ** Sample inputs *)
Module Sample.

(** A line of 11 points, 2 apart. *)
Definition line : Grid := {| grid_extent := [20]; grid_shape := [11%Z] |}.

(** A square of 11 by 11 points, 10 apart. *)
Definition square : Grid :=
  {| grid_extent := [100; 100]; grid_shape := [11%Z; 11%Z] |}.

(** A 3 by 3 model, 10 apart, with 4 points of layer. *)
Definition axes : list Model.axis :=
  [ {| Model.axis_origin := 0; Model.axis_spacing := 10;
       Model.axis_shape := 3 |};
    {| Model.axis_origin := 0; Model.axis_spacing := 10;
       Model.axis_shape := 3 |} ].

(** A squared slowness for which the time step of the 3 by 3 model comes
    out as a short decimal, 1.1106. *)
Definition slowness : R := 136 / 45 * (0.1234 * 0.1234).

Definition acoustic (m : R) (dt : option R) : Model.args :=
  {| Model.axes := axes; Model.arg_space_order := 8; Model.arg_nbl := 4;
     Model.arg_m := Some (Scalar m); Model.arg_epsilon := None;
     Model.arg_delta := None; Model.arg_theta := None;
     Model.arg_phi := None; Model.arg_rho := None; Model.arg_b := None;
     Model.arg_qp := None;
     Model.arg_lam := None; Model.arg_mu := None; Model.arg_dm := None;
     Model.arg_fs := false; Model.arg_dt := dt |}.


(** The grid of the object [Model(...)] builds from these arguments, and
    the object. *)
Definition grid : Grid :=
  {| grid_extent := [10 * 10; 10 * 10]; grid_shape := [11%Z; 11%Z] |}.

Definition acoustic_model (m : R) (dt : option R) : Model.t :=
  {| Model.shape := [3%Z; 3%Z]; Model.nbl := 4; Model.origin := [0; 0];
     Model.fs := false; Model.grid := grid;
     Model.damp :=
       Function "damp"
         (initialize_damp grid [(4, 4); (4, 4)]%Z "damp" false);
     Model._physical_parameters := ["damp"%string; "m"%string];
     Model.scale := 1; Model._space_order := 8;
     Model._m := Some (Constant "m" m); Model.irho := Model.Sym (Number 1);
     Model.rho := None;
     Model._dm := Number 0; Model._is_viscoacoustic := false;
     Model._is_elastic := false; Model._is_tti := false;
     Model.qp := None; Model.epsilon := None; Model.delta := None;
     Model.theta := None; Model.phi := None; Model.lam := None;
     Model.mu := None; Model._dt := dt |}.

(** An array of ones. *)
Definition ones (shape : list Z) : ndarray :=
  {| nd_shape := shape; nd_data := fun _ => 1 |}.

(** The 3 by 3 model with [m] and [dm] given as arrays of ones, and the
    object built. *)

Definition with_field : Model.args :=
  {| Model.axes := axes; Model.arg_space_order := 8; Model.arg_nbl := 4;
     Model.arg_m := Some (NdArray (ones [3; 3]%Z));
     Model.arg_epsilon := None;
     Model.arg_delta := None; Model.arg_theta := None;
     Model.arg_phi := None; Model.arg_rho := None; Model.arg_b := None;
     Model.arg_qp := None;
     Model.arg_lam := None; Model.arg_mu := None;
     Model.arg_dm := Some (NdArray (ones [3; 3]%Z));
     Model.arg_fs := false; Model.arg_dt := None |}.

Definition field_model : Model.t :=
  {| Model.shape := [3%Z; 3%Z]; Model.nbl := 4; Model.origin := [0; 0];
     Model.fs := false; Model.grid := grid;
     Model.damp :=
       Function "damp"
         (initialize_damp grid [(4, 4); (4, 4)]%Z "damp" false);
     Model._physical_parameters :=
       ["damp"%string; "m"%string; "dm"%string];
     Model.scale := 1; Model._space_order := 8;
     Model._m :=
       Some (Function "m"
               (initialize_function grid (ones [3; 3]%Z)
                                    [(4, 4); (4, 4)]%Z));
     Model.irho := Model.Sym (Number 1); Model.rho := None;
     Model._dm :=
       Function "dm"
         (initialize_function grid (ones [3; 3]%Z) [(4, 4); (4, 4)]%Z);
     Model._is_viscoacoustic := false;
     Model._is_elastic := false; Model._is_tti := false;
     Model.qp := None; Model.epsilon := None; Model.delta := None;
     Model.theta := None; Model.phi := None; Model.lam := None;
     Model.mu := None; Model._dt := None |}.


Definition tti (epsilon : R) : Model.args :=
  {| Model.axes := axes; Model.arg_space_order := 8; Model.arg_nbl := 4;
     Model.arg_m := Some (Scalar 1);
     Model.arg_epsilon := Some (Scalar epsilon);
     Model.arg_delta := None; Model.arg_theta := None;
     Model.arg_phi := None; Model.arg_rho := None; Model.arg_b := None;
     Model.arg_qp := None;
     Model.arg_lam := None; Model.arg_mu := None; Model.arg_dm := None;
     Model.arg_fs := false; Model.arg_dt := None |}.

End Sample.

(** ** Auxiliary notions of the further statements *)

(** The objects an argument of [fields_kwargs] holds, from left to
    right. *)
Fixpoint leaves (f : Utils.field) : list Utils.object :=
  match f with
  | Utils.PyNone => []
  | Utils.Iterable items => flat_map leaves items
  | Utils.Tensor _ flat => flat
  | Utils.Plain o => [o]
  end.

(** The last object of name [k] in a list. *)
Definition last_named (objects : list Utils.object) (k : string)
  : option Utils.object :=
  find (fun o => String.eqb k (Utils.name o)) (rev objects).

(** [x] when it is there, else [y]. *)
Definition or_else {A : Type} (x y : option A) : option A :=
  match x with Some _ => x | None => y end.

(** The index of the source along axis [i], in grid points, and the
    geometric mean [h] of the spacings. *)
Definition source_index (model : Model.t) (src_coords : list R) (i : nat) : R :=
  IZR (fst (nth i (Model.padsizes model) (0%Z, 0%Z)))
  + nth i src_coords 0 / nth i (Model.spacing model) 0.

Definition mean_spacing (model : Model.t) : R :=
  Utils.float_power (Numpy.prod (Model.spacing model))
                    (1 / INR (Model.dim model)).

Local Open Scope string_scope.
(** What [_gen_phys_param] registers for a parameter: nothing for
    [None], else the name and whether the symbol is a [Constant]. *)
Definition entry (name : string) (field : option pyval)
  : list (string * bool) :=
  match field with
  | None => []
  | Some (NdArray _) => [(name, false)]
  | Some (Scalar _) => [(name, true)]
  end.

(** Whether [_init_density] keeps the density [rho] itself and not its
    inverse: the least value of [rho] over the greatest is not above
    0.1. *)
Definition keeps_density (rho : pyval) : bool :=
  match Model.np_amin rho, Model.np_amax rho with
  | Ok rm, Ok rM => if Rgt_dec (rm / rM) 0.1 then false else true
  | _, _ => false
  end.

(** What [_init_density] registers: the density or its inverse when
    [rho] is passed, else the buoyancy [b] when it is. *)
Definition density_entry (a : Model.args) : list (string * bool) :=
  match Model.arg_rho a with
  | Some rho =>
      if keeps_density rho then entry "rho" (Some rho)
      else entry "irho" (Some (Model.np_reciprocal rho))
  | None => entry "irho" (Model.arg_b a)
  end.

(** The parameters [__init__] registers, in the order of its calls. *)
Definition registry (a : Model.args) : list (string * bool) :=
  (if negb (Model.arg_nbl a =? 0)%Z then [("damp", false)] else [])
  ++ entry "m" (Model.arg_m a)
  ++ density_entry a
  ++ entry "dm" (Model.arg_dm a)
  ++ entry "qp" (Model.arg_qp a)
  ++ (if Model.is_some (Model.arg_epsilon a)
         || Model.is_some (Model.arg_delta a)
         || Model.is_some (Model.arg_theta a)
         || Model.is_some (Model.arg_phi a)
      then entry "epsilon" (Some (Model.thomsen_stored (Model.arg_epsilon a)))
           ++ entry "delta" (Some (Model.thomsen_stored (Model.arg_delta a)))
           ++ entry "theta" (Model.arg_theta a)
           ++ (if (List.length (Model.axes a) =? 3)%nat
               then entry "phi" (Model.arg_phi a) else [])
      else [])
  ++ (if Model.is_some (Model.arg_mu a)
      then entry "lam" (Model.arg_lam a) ++ entry "mu" (Model.arg_mu a)
      else []).

(** The name [physical_parameters] gives to an entry. *)
Definition tagged (e : string * bool) : string :=
  if snd e then fst e ++ "_const" else fst e.
Local Close Scope string_scope.

(** The entries of the registry name symbols of the model, constants
    where they say so. *)
Definition held (self : Model.t) (entries : list (string * bool)) : Prop :=
  Forall (fun e => exists q, Model.getattr self (fst e) = Ok q
                             /\ Model.is_Constant q = Ok (snd e))
         entries.

(** [l] is [m] with some items left out. *)
Inductive sublist {A : Type} : list A -> list A -> Prop :=
| sublist_nil : sublist [] []
| sublist_skip (x : A) (l m : list A) : sublist l m -> sublist l (x :: m)
| sublist_keep (x : A) (l m : list A) : sublist l m -> sublist (x :: l) (x :: m).

(** The names of the parameters a model can register. *)
Definition parameter_names : list string :=
  ["damp"; "m"; "irho"; "rho"; "dm"; "qp"; "epsilon"; "delta"; "theta";
   "phi"; "lam"; "mu"]%string.

(** The names [physical_params] keeps. *)
Definition wanted (kw : Model.kwargs) (name : string) : bool :=
  match Model.born kw with
  | Some true => true
  | _ => negb (String.eqb "dm" name)
  end.

(** An argument [_gen_phys_param] takes without an exception: [None], a
    number, an array of the shape of the model or one that broadcasts to
    the shape of the grid. *)
Definition conforming (a : Model.args) (field : option pyval) : Prop :=
  match field with
  | Some (NdArray x) =>
      nd_shape x = map Model.axis_shape (Model.axes a)
      \/ Numpy.broadcastable (nd_shape x) (Model.shape_pml_of a) = true
  | _ => True
  end.

(** The 3 by 3 model with [m] given as an array of 2 by 2. *)
Definition misshapen : Model.args :=
  {| Model.axes := Sample.axes; Model.arg_space_order := 8;
     Model.arg_nbl := 4;
     Model.arg_m := Some (NdArray (Sample.ones [2; 2]%Z));
     Model.arg_epsilon := None;
     Model.arg_delta := None; Model.arg_theta := None;
     Model.arg_phi := None; Model.arg_rho := None; Model.arg_b := None;
     Model.arg_qp := None;
     Model.arg_lam := None; Model.arg_mu := None; Model.arg_dm := None;
     Model.arg_fs := false; Model.arg_dt := None |}.

(** A density of the 3 by 3 model: 1 on the first row, 20 below. *)
Definition layered : ndarray :=
  {| nd_shape := [3; 3]%Z;
     nd_data := fun idx => match idx with
                           | 0%Z :: _ => 1
                           | _ => 20
                           end |}.

(** The 3 by 3 model, elastic, with that density, and the object
    built. *)
Definition elastic : Model.args :=
  {| Model.axes := Sample.axes; Model.arg_space_order := 8;
     Model.arg_nbl := 4;
     Model.arg_m := None; Model.arg_epsilon := None;
     Model.arg_delta := None; Model.arg_theta := None;
     Model.arg_phi := None; Model.arg_rho := Some (NdArray layered);
     Model.arg_b := None; Model.arg_qp := None;
     Model.arg_lam := Some (Scalar 1); Model.arg_mu := Some (Scalar 1);
     Model.arg_dm := None; Model.arg_fs := false; Model.arg_dt := None |}.

Definition elastic_model : Model.t :=
  let rho :=
    Function "rho"
      (initialize_function Sample.grid layered [(4, 4); (4, 4)]%Z) in
  {| Model.shape := [3%Z; 3%Z]; Model.nbl := 4; Model.origin := [0; 0];
     Model.fs := false; Model.grid := Sample.grid;
     Model.damp :=
       Function "damp"
         (initialize_damp Sample.grid [(4, 4); (4, 4)]%Z "mask" false);
     Model._physical_parameters :=
       ["damp"%string; "rho"%string; "lam"%string; "mu"%string];
     Model.scale := 1; Model._space_order := 8;
     Model._m := None; Model.irho := Model.Recip rho;
     Model.rho := Some (Model.Sym rho);
     Model._dm := Number 0; Model._is_viscoacoustic := false;
     Model._is_elastic := true; Model._is_tti := false;
     Model.qp := None; Model.epsilon := None; Model.delta := None;
     Model.theta := None; Model.phi := None;
     Model.lam := Some (Constant "lam" 1); Model.mu := Some (Constant "mu" 1);
     Model._dt := None |}.

(** The grid point of a model point: its index moved by the layer in
    front of it. *)
Definition padded_index (pads : list (Z * Z)) (idx : list Z) : list Z :=
  map (fun '(i, (l, _)) => (i + l)%Z) (combine idx pads).

(** The 3 by 3 model with [epsilon] given as an array of ones. *)
Definition tilted : Model.args :=
  {| Model.axes := Sample.axes; Model.arg_space_order := 8;
     Model.arg_nbl := 4;
     Model.arg_m := Some (Scalar 1);
     Model.arg_epsilon := Some (NdArray (Sample.ones [3; 3]%Z));
     Model.arg_delta := None; Model.arg_theta := None;
     Model.arg_phi := None; Model.arg_rho := None; Model.arg_b := None;
     Model.arg_qp := None;
     Model.arg_lam := None; Model.arg_mu := None; Model.arg_dm := None;
     Model.arg_fs := false; Model.arg_dt := None |}.

(** The symbol [EmptyModel] creates for an entry of the registry. *)
Definition created (g : Grid) (e : string * bool) : param :=
  if snd e then Constant (fst e) 1 else Function (fst e) (EmptyModel.zeros g).

(** The opposite side. *)
Definition opposite (s : side) : side :=
  match s with Left => Right | Right => Left end.

(** * Proofs *)

(** ** The boundary field *)

Lemma ln_ratio : ln (1.0 / 0.001) = ln 1000.
Proof. f_equal. lra. Qed.

Lemma Rabs_div_pos (a b : R) : 0 < b -> Rabs (a / b) = Rabs a / b.
Proof.
  intros Hb. unfold Rdiv.
  rewrite Rabs_mult, Rabs_inv, (Rabs_pos_eq b) by lra.
  reflexivity.
Qed.

Lemma damp_val_ramp (abc_type : string) (n : Z) (offset : env -> Z) (v : env) :
  (0 < n)%Z ->
  damp_val abc_type n offset v
  = abc_sign abc_type * (Spec.ramp n (offset v) / spacing v).
Proof.
  intros Hn. apply IZR_lt in Hn.
  unfold damp_val, abc_sign, Spec.ramp, Spec.coeff, Spec.pos.
  rewrite ln_ratio, Rabs_div_pos by assumption.
  destruct (is_mask abc_type); unfold Rdiv; ring.
Qed.

Lemma in_subdimension_left (g : Grid) (d : nat) (cell : list Z) (n : Z) :
  in_subdimension Left n (bindings g d cell)
  = Spec.in_layer Left n (nth d (grid_shape g) 0%Z) (nth d cell 0%Z).
Proof.
  unfold in_subdimension, Spec.in_layer, bindings; simpl.
  f_equal. apply eq_true_iff_eq.
  rewrite Z.leb_le, Z.ltb_lt. lia.
Qed.

Lemma in_subdimension_right (g : Grid) (d : nat) (cell : list Z) (n : Z) :
  in_subdimension Right n (bindings g d cell)
  = Spec.in_layer Right n (nth d (grid_shape g) 0%Z) (nth d cell 0%Z).
Proof.
  unfold in_subdimension, Spec.in_layer, bindings; simpl.
  f_equal; apply eq_true_iff_eq.
  - rewrite !Z.leb_le. lia.
  - rewrite Z.leb_le, Z.ltb_lt. lia.
Qed.

(** A layer that holds a point has a point. *)
Lemma in_layer_thickness (s : side) (n size i : Z) :
  Spec.in_layer s n size i = true -> (0 < n)%Z.
Proof.
  unfold Spec.in_layer. destruct s; intros H;
    apply andb_true_iff in H as [H1 H2];
    apply Z.leb_le in H1; apply Z.ltb_lt in H2; lia.
Qed.

(** One increment of [damp_op], run at [cell]. *)
Lemma run_Inc_left (abc_type : string) (g : Grid) (cell : list Z) (d : nat)
    (t : Z) (acc : R) :
  run_equation g cell acc
    (Inc d Left (t - 3)
       (damp_val abc_type (t - 3) (fun v => (idx v - symbolic_min v)%Z)))
  = acc + abc_sign abc_type * Spec.contribution g cell (d, Left, t).
Proof.
  unfold run_equation, Spec.contribution.
  rewrite in_subdimension_left.
  destruct (Spec.in_layer Left (t - 3) _ _) eqn:Hin; [| ring].
  rewrite damp_val_ramp by (eapply in_layer_thickness, Hin).
  unfold bindings, Spec.distance_to_layer_edge; simpl.
  rewrite Z.sub_0_r. reflexivity.
Qed.

Lemma run_Inc_right (abc_type : string) (g : Grid) (cell : list Z) (d : nat)
    (t : Z) (acc : R) :
  run_equation g cell acc
    (Inc d Right (t - 3)
       (damp_val abc_type (t - 3) (fun v => (symbolic_max v - idx v)%Z)))
  = acc + abc_sign abc_type * Spec.contribution g cell (d, Right, t).
Proof.
  unfold run_equation, Spec.contribution.
  rewrite in_subdimension_right.
  destruct (Spec.in_layer Right (t - 3) _ _) eqn:Hin; [| ring].
  rewrite damp_val_ramp by (eapply in_layer_thickness, Hin).
  reflexivity.
Qed.

Lemma thick_cons (ds : Spec.dimension_side) (l : list Spec.dimension_side) :
  thick (ds :: l) -> thick l.
Proof. intros H d s t Hin. apply (H d s t). now right. Qed.

Lemma thick_head (d : nat) (s : side) (t : Z) (l : list Spec.dimension_side) :
  thick ((d, s, t) :: l) -> (3 < t)%Z.
Proof. intros H. apply (H d s t). now left. Qed.

(** The loop of [damp_op]: every dimension-side it writes adds its
    contribution; the others add nothing. *)
Lemma damp_eqs_sum (abc_type : string) (fs : bool) (g : Grid) (cell : list Z)
    (ndim : nat) (padsizes : list (Z * Z)) :
  forall (d : nat) (acc : R),
    (d + List.length padsizes = ndim)%nat ->
    fold_left (run_equation g cell) (damp_eqs ndim abc_type fs d padsizes) acc
    = acc + abc_sign abc_type
            * Spec.sum (map (Spec.contribution g cell)
                            (filter (damped fs ndim)
                                    (Spec.dimension_sides d padsizes))).
Proof.
  induction padsizes as [| [nbl nbr] rest IH]; intros d acc Hlen.
  - simpl. unfold Spec.sum. simpl. ring.
  - simpl in Hlen.
    assert (Hd : (d <? ndim)%nat = true) by (apply Nat.ltb_lt; lia).
    cbn [damp_eqs Spec.dimension_sides filter]. rewrite Hd.
    assert (Hright : damped fs ndim (d, Right, nbr) = true).
    { unfold damped, Spec.is_free_surface. now rewrite andb_false_r, andb_false_r. }
    rewrite Hright.
    assert (Hleft : damped fs ndim (d, Left, nbl)
                    = (negb fs || negb (S d =? ndim)%nat)).
    { unfold damped, Spec.is_free_surface.
      rewrite andb_true_r, negb_andb. reflexivity. }
    rewrite Hleft.
    destruct (negb fs || negb (S d =? ndim)%nat).
    + rewrite !fold_left_app. cbn [fold_left].
      rewrite run_Inc_left, run_Inc_right.
      rewrite IH by lia.
      cbn [map Spec.sum fold_right]. fold (Spec.sum).
      unfold Spec.sum. ring.
    + rewrite !fold_left_app. cbn [fold_left app].
      rewrite run_Inc_right.
      rewrite IH by lia.
      cbn [map Spec.sum fold_right]. unfold Spec.sum. ring.
Qed.

(** The field [initialize_damp] leaves, for any pad sizes: a layer of 3
    points or fewer has no point. *)
Lemma initialize_damp_layers (g : Grid) (padsizes : list (Z * Z))
    (abc_type : string) (fs : bool) (cell : list Z) :
  List.length padsizes = grid_dim g ->
  nd_data (initialize_damp g padsizes abc_type fs) cell
  = abc_base abc_type
    + abc_sign abc_type
      * Spec.sum (map (Spec.contribution g cell)
                      (filter (damped fs (grid_dim g))
                              (Spec.dimension_sides 0 padsizes))).
Proof.
  intros Hlen.
  unfold initialize_damp, Operator, damp_op. cbn [nd_data fold_left run_equation].
  rewrite damp_eqs_sum by (simpl; lia).
  reflexivity.
Qed.

Lemma initialize_damp_sum (g : Grid) (padsizes : list (Z * Z))
    (abc_type : string) (fs : bool) (cell : list Z) :
  List.length padsizes = grid_dim g ->
  thick (filter (damped fs (grid_dim g)) (Spec.dimension_sides 0 padsizes)) ->
  nd_data (initialize_damp g padsizes abc_type fs) cell
  = abc_base abc_type
    + abc_sign abc_type
      * Spec.sum (map (Spec.contribution g cell)
                      (filter (damped fs (grid_dim g))
                              (Spec.dimension_sides 0 padsizes))).
Proof. intros Hlen _. now apply initialize_damp_layers. Qed.

Ltac split_result H :=
  repeat match type of H with
    | bind ?r _ = Ok _ =>
        let E := fresh "E" in
        destruct r as [[? ?] | ?] eqn:E; cbn [bind] in H; [| discriminate H]
    | bind ?r _ = Ok _ =>
        let E := fresh "E" in
        destruct r as [? | ?] eqn:E; cbn [bind] in H; [| discriminate H]
    | (let '(_, _) := ?p in _) = Ok _ =>
        let E := fresh "E" in destruct p eqn:E
    end.

(** What a call of [__init__] that returns has done, step by step: the
    lists are [_physical_parameters] after each step. *)
Lemma init_steps (a : Model.args) (self : Model.t) :
  Model.__init__ a = Ok self ->
  let shape := map Model.axis_shape (Model.axes a) in
  let grid := Model.grid_of a in
  let pads :=
    Model.padsizes_of (grid_dim grid) (Model.arg_nbl a) (Model.arg_fs a) in
  let gen := Model._gen_phys_param shape grid pads in
  exists l0 l1 l2 l3 l4 l5,
    (if negb (Model.arg_nbl a =? 0)%Z
     then Model.axes a <> []
          /\ Model.damp self
             = Function "damp"
                 (initialize_damp grid pads (Model.abc_type_of a)
                                  (Model.arg_fs a))
          /\ l0 = ["damp"%string]
     else Model.damp self = Number 1 /\ l0 = [])
    /\ match Model.arg_m a with
       | Some m =>
           exists p, gen l0 (Some m) "m"%string = Ok (p, l1)
                     /\ Model._m self = Some p
       | None => Model._m self = None /\ l1 = l0
       end
    /\ Model._init_density shape grid pads l1 (Model.arg_rho a)
                           (Model.arg_b a)
       = Ok (Model.irho self, Model.rho self, l2)
    /\ gen l2 (Model.arg_dm a) "dm"%string = Ok (Model._dm self, l3)
    /\ (if Model.is_some (Model.arg_qp a)
        then exists p, gen l3 (Model.arg_qp a) "qp"%string = Ok (p, l4)
                       /\ Model.qp self = Some p
        else Model.qp self = None /\ l4 = l3)
    /\ (if Model.is_some (Model.arg_epsilon a)
           || Model.is_some (Model.arg_delta a)
           || Model.is_some (Model.arg_theta a)
           || Model.is_some (Model.arg_phi a)
        then exists e d th top la lb lc,
            gen l4 (Some (Model.thomsen_stored (Model.arg_epsilon a)))
                "epsilon"%string = Ok (e, la)
            /\ Model.np_amax (Model.thomsen_stored (Model.arg_epsilon a))
               = Ok top
            /\ gen la (Some (Model.thomsen_stored (Model.arg_delta a)))
                   "delta"%string = Ok (d, lb)
            /\ gen lb (Model.arg_theta a) "theta"%string = Ok (th, lc)
            /\ (if (grid_dim grid =? 3)%nat
                then exists p, gen lc (Model.arg_phi a) "phi"%string
                               = Ok (p, l5)
                               /\ Model.phi self = Some p
                else Model.phi self = None /\ l5 = lc)
            /\ Model.scale self = sqrt top
            /\ Model.epsilon self = Some e
            /\ Model.delta self = Some d
            /\ Model.theta self = Some th
        else l5 = l4 /\ Model.scale self = 1
             /\ Model.epsilon self = None /\ Model.delta self = None
             /\ Model.theta self = None /\ Model.phi self = None)
    /\ (if Model.is_some (Model.arg_mu a)
        then exists l u la,
            gen l5 (Model.arg_lam a) "lam"%string = Ok (l, la)
            /\ gen la (Model.arg_mu a) "mu"%string
               = Ok (u, Model._physical_parameters self)
            /\ Model.lam self = Some l /\ Model.mu self = Some u
        else Model._physical_parameters self = l5
             /\ Model.lam self = None /\ Model.mu self = None).
Proof.
  intros H. unfold Model.__init__ in H.
  split_result H.
  injection H as <-. cbn zeta. cbn [Model.damp Model._m Model.irho Model.rho
    Model._dm Model.qp Model.scale Model.epsilon Model.delta Model.theta
    Model.phi Model.lam Model.mu Model._physical_parameters].
  exists l, l0, l1, l2, l3, l4.
  repeat match goal with |- _ /\ _ => split end.
  - destruct (negb (Model.arg_nbl a =? 0)%Z).
    + destruct (Model.axes a); [discriminate E0 |].
      inversion E0. repeat split. discriminate.
    + now inversion E0.
  - destruct (Model.arg_m a).
    + split_result E1. inversion E1; subst. eauto.
    + now inversion E1.
  - exact E2.
  - exact E4.
  - destruct (Model.is_some (Model.arg_qp a)).
    + split_result E5. inversion E5; subst. eauto.
    + now inversion E5.
  - destruct (_ || _).
    + split_result E6. injection E6 as <- <- <- <- <- <-.
      do 7 eexists. repeat match goal with |- _ /\ _ => split end;
        try eassumption; try reflexivity.
      destruct (grid_dim (Model.grid_of a) =? 3)%nat.
      * match goal with
        | G : bind _ _ = Ok _ |- _ => split_result G; inversion G; subst
        end. eauto.
      * match goal with
        | G : Ok _ = Ok _ |- _ => now inversion G
        end.
    + inversion E6. repeat split.
  - destruct (Model.is_some (Model.arg_mu a)).
    + split_result E11. inversion E11; subst. eauto 10.
    + now inversion E11.
Qed.

Lemma init_attributes (a : Model.args) (self : Model.t) :
  Model.__init__ a = Ok self ->
  Model.shape self = map Model.axis_shape (Model.axes a)
  /\ Model.nbl self = Model.arg_nbl a
  /\ Model.fs self = Model.arg_fs a
  /\ Model.grid self = Model.grid_of a
  /\ Model.damp self
     = (if negb (Model.arg_nbl a =? 0)%Z
        then Function "damp"
               (initialize_damp (Model.grid_of a)
                  (Model.padsizes_of (grid_dim (Model.grid_of a))
                                     (Model.arg_nbl a) (Model.arg_fs a))
                  (Model.abc_type_of a) (Model.arg_fs a))
        else Number 1)
  /\ Model._is_viscoacoustic self = Model.is_some (Model.arg_qp a)
  /\ Model._is_elastic self = Model.is_some (Model.arg_mu a)
  /\ Model._is_tti self
     = (Model.is_some (Model.arg_epsilon a)
        || Model.is_some (Model.arg_delta a)
        || Model.is_some (Model.arg_theta a)
        || Model.is_some (Model.arg_phi a))
  /\ Model._space_order self = Model.arg_space_order a
  /\ Model._dt self = Model.arg_dt a.
Proof.
  intros H. unfold Model.__init__ in H.
  split_result H.
  injection H as <-. cbn.
  repeat split.
  destruct (negb (Model.arg_nbl a =? 0)%Z);
    [destruct (Model.axes a); [discriminate E0 |] |]; now inversion E0.
Qed.

(** The attributes [__init__] derives from a scalar [m], and from no [dm]
    and no Thomsen parameter. *)
Lemma init_m_scalar (a : Model.args) (self : Model.t) (v : R) :
  Model.__init__ a = Ok self ->
  Model.arg_m a = Some (Scalar v) ->
  Model._m self = Some (Constant "m" v).
Proof.
  intros H Hm.
  destruct (init_steps a self H) as (l0 & l1 & ? & ? & ? & ? & _ & Hstep & _).
  rewrite Hm in Hstep. destruct Hstep as [p [Hgen ->]].
  cbn in Hgen. now inversion Hgen.
Qed.

Lemma init_m_array (a : Model.args) (self : Model.t) (m : ndarray) :
  Model.__init__ a = Ok self ->
  Model.arg_m a = Some (NdArray m) ->
  nd_shape m = map Model.axis_shape (Model.axes a) ->
  Model._m self
  = Some (Function "m"
            (initialize_function (Model.grid_of a) m
               (Model.padsizes_of (grid_dim (Model.grid_of a))
                                  (Model.arg_nbl a) (Model.arg_fs a)))).
Proof.
  intros H Hm Hshape.
  destruct (init_steps a self H) as (l0 & l1 & ? & ? & ? & ? & _ & Hstep & _).
  rewrite Hm in Hstep. destruct Hstep as [p [Hgen ->]].
  unfold Model._gen_phys_param, shape_eqb in Hgen.
  destruct (list_eq_dec Z.eq_dec _ _); [| contradiction].
  now inversion Hgen.
Qed.

Lemma init_no_dm (a : Model.args) (self : Model.t) :
  Model.__init__ a = Ok self ->
  Model.arg_dm a = None ->
  Model._dm self = Number 0.
Proof.
  intros H Hdm.
  destruct (init_steps a self H)
    as (? & ? & l2 & l3 & ? & ? & _ & _ & _ & Hstep & _).
  rewrite Hdm in Hstep. cbn in Hstep. now inversion Hstep.
Qed.

Lemma init_no_thomsen (a : Model.args) (self : Model.t) :
  Model.__init__ a = Ok self ->
  Model.arg_epsilon a = None -> Model.arg_delta a = None ->
  Model.arg_theta a = None -> Model.arg_phi a = None ->
  Model._is_tti self = false /\ Model.epsilon self = None
  /\ Model.scale self = 1.
Proof.
  intros H He Hd Ht Hp.
  pose proof (init_attributes a self H)
    as (_ & _ & _ & _ & _ & _ & _ & Htti & _).
  destruct (init_steps a self H)
    as (? & ? & ? & ? & ? & ? & _ & _ & _ & _ & _ & Hstep & _).
  rewrite He, Hd, Ht, Hp in Hstep, Htti. cbn in Hstep, Htti.
  destruct Hstep as (_ & Hscale & Heps & _). now repeat split.
Qed.

(** The [epsilon] attribute of a model built from a scalar Thomsen
    parameter [e] is the constant [1 + 2 * e]. *)
Lemma init_epsilon_scalar (a : Model.args) (self : Model.t) (e : R) :
  Model.__init__ a = Ok self ->
  Model.arg_epsilon a = Some (Scalar e) ->
  Model._is_tti self = true
  /\ Model.epsilon self = Some (Constant "epsilon" (1 + 2 * e))
  /\ Model.scale self = sqrt (1 + 2 * e).
Proof.
  intros H He.
  pose proof (init_attributes a self H)
    as (_ & _ & _ & _ & _ & _ & _ & Htti & _).
  destruct (init_steps a self H)
    as (? & ? & ? & ? & ? & ? & _ & _ & _ & _ & _ & Hstep & _).
  rewrite He in Hstep, Htti. cbn in Hstep, Htti.
  destruct Hstep
    as (e' & d & th & top & ? & ? & ? & Hgen & Htop & _ & _ & _
        & Hscale & Heps & _).
  inversion Hgen; subst. inversion Htop; subst. now repeat split.
Qed.

Lemma thick_filter (keep : Spec.dimension_side -> bool)
    (sides : list Spec.dimension_side) :
  thick sides -> thick (filter keep sides).
Proof.
  intros H d s t Hin. apply filter_In in Hin as [Hin _]. exact (H d s t Hin).
Qed.

Lemma thick_dimension_sides (padsizes : list (Z * Z)) :
  (forall nbl nbr, In (nbl, nbr) padsizes -> (3 < nbl)%Z /\ (3 < nbr)%Z) ->
  forall d, thick (Spec.dimension_sides d padsizes).
Proof.
  induction padsizes as [| [nbl nbr] rest IH]; intros Hpads d0 d s t Hin.
  - destruct Hin.
  - destruct (Hpads nbl nbr (or_introl eq_refl)) as [Hl Hr].
    cbn [Spec.dimension_sides] in Hin.
    destruct Hin as [Heq | [Heq | Hin]].
    + now inversion Heq; subst.
    + now inversion Heq; subst.
    + apply (IH (fun nbl nbr H => Hpads nbl nbr (or_intror H)) (S d0) d s t).
      exact Hin.
Qed.

Lemma filter_damped_no_free_surface (ndim : nat)
    (sides : list Spec.dimension_side) :
  filter (damped false ndim) sides = sides.
Proof.
  induction sides as [| ds rest IH]; [reflexivity |].
  cbn [filter]. unfold damped at 1. cbn [andb negb]. now rewrite IH.
Qed.

Lemma interior_sum (g : Grid) (cell : list Z)
    (sides : list Spec.dimension_side) :
  Spec.interior g cell sides ->
  Spec.sum (map (Spec.contribution g cell) sides) = 0.
Proof.
  induction sides as [| [[d s] t] rest IH]; intros Hint; [reflexivity |].
  cbn [map Spec.sum fold_right]. fold (Spec.sum (map (Spec.contribution g cell) rest)).
  rewrite IH by (intros d' s' t' Hin; apply Hint; now right).
  unfold Spec.contribution.
  rewrite (Hint d s t (or_introl eq_refl)). lra.
Qed.

Lemma ln_1000_pos : 0 < ln 1000.
Proof. rewrite <- ln_1. apply ln_increasing; lra. Qed.

(** The ramp of a layer of one point, at that point. *)
Lemma ramp_1_0 : Spec.ramp 1 0 = 3 * ln 1000.
Proof.
  unfold Spec.ramp, Spec.coeff, Spec.pos.
  change (1 - 0 + 1)%Z with 2%Z.
  rewrite Rabs_pos_eq by lra.
  replace (2 * PI * (2 / 1)) with (0 + 2 * INR 2 * PI) by (cbn; field).
  rewrite sin_period, sin_0.
  replace (0 / (2 * PI)) with 0 by (unfold Rdiv; ring).
  lra.
Qed.

Lemma line_spacing : grid_spacing Sample.line = [2].
Proof. unfold grid_spacing; cbn. f_equal. lra. Qed.

Lemma square_spacing : grid_spacing Sample.square = [10; 10].
Proof. unfold grid_spacing; cbn. repeat f_equal; lra. Qed.

(** C1. With the "damp" encoding, no free surface and more than 3 points
    of layer on every dimension-side, the field at any point is the sum,
    over the dimension-sides whose layer holds the point, of
    [coeff * (pos - sin(2*pi*pos)/(2*pi)) / spacing] with [n = t - 3],
    [coeff = 1.5 * ln(1000) / n] and [pos = |n - distance + 1| / n]; it is
    0 at a point that lies in no layer. *)
Theorem damp_field_is_sum_of_ramps (g : Grid) (padsizes : list (Z * Z))
    (cell : list Z) :
  List.length padsizes = grid_dim g ->
  (forall nbl nbr, In (nbl, nbr) padsizes -> (3 < nbl)%Z /\ (3 < nbr)%Z) ->
  nd_data (initialize_damp g padsizes "damp" false) cell
  = Spec.sum (map (Spec.contribution g cell)
                  (Spec.dimension_sides 0 padsizes))
  /\ (Spec.interior g cell (Spec.dimension_sides 0 padsizes) ->
      nd_data (initialize_damp g padsizes "damp" false) cell = 0)
  /\ (forall d s t,
        In (d, s, t) (Spec.dimension_sides 0 padsizes) ->
        Spec.in_layer s (t - 3) (nth d (grid_shape g) 0%Z) (nth d cell 0%Z)
        = true ->
        let n := (t - 3)%Z in
        let dist :=
          Spec.distance_to_layer_edge s (nth d (grid_shape g) 0%Z)
                                      (nth d cell 0%Z) in
        let pos := Rabs (IZR (n - dist + 1)) / IZR n in
        Spec.contribution g cell (d, s, t)
        = 1.5 * ln 1000 / IZR n * (pos - sin (2 * PI * pos) / (2 * PI))
          / nth d (grid_spacing g) 0).
Proof.
  intros Hlen Hpads.
  assert (Hsum : nd_data (initialize_damp g padsizes "damp" false) cell
                 = Spec.sum (map (Spec.contribution g cell)
                                 (Spec.dimension_sides 0 padsizes))).
  { rewrite initialize_damp_sum.
    - rewrite filter_damped_no_free_surface.
      unfold abc_base, abc_sign. cbn. lra.
    - exact Hlen.
    - apply thick_filter, thick_dimension_sides, Hpads. }
  split; [exact Hsum | split].
  - intros Hint. rewrite Hsum. now apply interior_sum.
  - intros d s t _ Hin. cbn zeta. unfold Spec.contribution.
    rewrite Hin. reflexivity.
Qed.

Lemma damp_field_is_sum_of_ramps_witness :
  nd_data (initialize_damp Sample.square [(4, 4); (4, 4)]%Z "damp" false)
          [0; 5]%Z
  = Spec.sum (map (Spec.contribution Sample.square [0; 5]%Z)
                  (Spec.dimension_sides 0 [(4, 4); (4, 4)]%Z)).
Proof.
  apply (damp_field_is_sum_of_ramps Sample.square [(4, 4); (4, 4)]%Z [0; 5]%Z).
  - reflexivity.
  - intros nbl nbr [H | [H | []]]; inversion H; lia.
Defined.

(** C6, as the code has it.  With the "mask" encoding, no free surface and
    more than 3 points of layer on every dimension-side, the field is 1
    minus the sum, over the dimension-sides whose layer holds the point,
    of the ramp divided by the spacing of the axis; it is exactly 1 at a
    point that lies in no layer. *)
Theorem mask_field_is_one_minus_ramps (g : Grid) (padsizes : list (Z * Z))
    (cell : list Z) :
  List.length padsizes = grid_dim g ->
  (forall nbl nbr, In (nbl, nbr) padsizes -> (3 < nbl)%Z /\ (3 < nbr)%Z) ->
  nd_data (initialize_damp g padsizes "mask" false) cell
  = 1 - Spec.sum (map (Spec.contribution g cell)
                      (Spec.dimension_sides 0 padsizes))
  /\ (Spec.interior g cell (Spec.dimension_sides 0 padsizes) ->
      nd_data (initialize_damp g padsizes "mask" false) cell = 1)
  /\ (forall d s t,
        In (d, s, t) (Spec.dimension_sides 0 padsizes) ->
        Spec.in_layer s (t - 3) (nth d (grid_shape g) 0%Z) (nth d cell 0%Z)
        = true ->
        Spec.contribution g cell (d, s, t)
        = Spec.ramp (t - 3)
            (Spec.distance_to_layer_edge s (nth d (grid_shape g) 0%Z)
                                         (nth d cell 0%Z))
          / nth d (grid_spacing g) 0).
Proof.
  intros Hlen Hpads.
  assert (Hsum : nd_data (initialize_damp g padsizes "mask" false) cell
                 = 1 - Spec.sum (map (Spec.contribution g cell)
                                     (Spec.dimension_sides 0 padsizes))).
  { rewrite initialize_damp_sum.
    - rewrite filter_damped_no_free_surface.
      unfold abc_base, abc_sign. cbn. lra.
    - exact Hlen.
    - apply thick_filter, thick_dimension_sides, Hpads. }
  split; [exact Hsum | split].
  - intros Hint. rewrite Hsum, interior_sum by assumption. lra.
  - intros d s t _ Hin. unfold Spec.contribution. now rewrite Hin.
Qed.

Lemma mask_field_is_one_minus_ramps_witness :
  nd_data (initialize_damp Sample.line [(4, 4)]%Z "mask" false) [0%Z]
  = 1 - Spec.sum (map (Spec.contribution Sample.line [0%Z])
                      (Spec.dimension_sides 0 [(4, 4)]%Z)).
Proof.
  apply (mask_field_is_one_minus_ramps Sample.line [(4, 4)]%Z [0%Z]).
  - reflexivity.
  - intros nbl nbr [H | []]; inversion H; lia.
Defined.

(** C6 as stated fails: on a line of spacing 2 with 4 points of layer, the
    outermost point lies in the left layer only, and the mask there is not
    1 minus the ramp: the ramp is divided by the spacing. *)
Lemma mask_is_not_one_minus_unscaled_ramp :
  Spec.in_layer Left (4 - 3) 11 0 = true
  /\ Spec.in_layer Right (4 - 3) 11 0 = false
  /\ nd_data (initialize_damp Sample.line [(4, 4)]%Z "mask" false) [0%Z]
     <> 1 - Spec.ramp (4 - 3) (Spec.distance_to_layer_edge Left 11 0).
Proof.
  split; [reflexivity | split; [reflexivity |]].
  rewrite initialize_damp_sum.
  - unfold abc_base, abc_sign, Spec.sum, Spec.contribution.
    cbn -[grid_spacing Spec.ramp].
    rewrite line_spacing. cbn -[Spec.ramp].
    rewrite ramp_1_0.
    pose proof ln_1000_pos. lra.
  - reflexivity.
  - intros d s t [H | [H | []]]; inversion H; lia.
Qed.

Lemma In_dimension_sides (padsizes : list (Z * Z)) :
  forall d0 d s t,
    In (d, s, t) (Spec.dimension_sides d0 padsizes) <->
    exists k nbl nbr,
      nth_error padsizes k = Some (nbl, nbr) /\ d = (d0 + k)%nat
      /\ ((s = Left /\ t = nbl) \/ (s = Right /\ t = nbr)).
Proof.
  induction padsizes as [| [nbl nbr] rest IH]; intros d0 d s t.
  - split; [intros [] | intros (k & ? & ? & H & _)]. now destruct k.
  - cbn [Spec.dimension_sides In]. rewrite IH. split.
    + intros [H | [H | (k & l & r & Hk & Hd & Hs)]].
      * inversion H; subst. exists 0%nat, t, nbr. rewrite Nat.add_0_r. auto.
      * inversion H; subst. exists 0%nat, nbl, t. rewrite Nat.add_0_r. auto.
      * exists (S k), l, r. repeat split; [exact Hk | lia | exact Hs].
    + intros (k & l & r & Hk & Hd & Hs). destruct k as [| k].
      * cbn in Hk. inversion Hk; subst. rewrite Nat.add_0_r.
        destruct Hs as [[-> ->] | [-> ->]]; auto.
      * right; right. exists k, l, r. repeat split; [exact Hk | lia | exact Hs].
Qed.

Lemma update_last_length {A : Type} (f : A -> A) (l : list A) :
  List.length (Model.update_last f l) = List.length l.
Proof.
  induction l as [| x [| y rest] IH]; [reflexivity | reflexivity |].
  change (Model.update_last f (x :: y :: rest))
    with (x :: Model.update_last f (y :: rest)).
  cbn [List.length] in IH |- *. now rewrite IH.
Qed.

Lemma grid_of_dim (a : Model.args) :
  grid_dim (Model.grid_of a) = List.length (Model.axes a).
Proof.
  unfold grid_dim, Model.grid_of, Model.shape_pml_of. cbn [grid_shape].
  destruct (Model.arg_fs a);
    [rewrite update_last_length |]; apply length_map.
Qed.

Lemma padsizes_of_length (dim : nat) (nbl : Z) (fs : bool) :
  (0 < dim)%nat -> List.length (Model.padsizes_of dim nbl fs) = dim.
Proof.
  intros H. unfold Model.padsizes_of.
  rewrite length_app, repeat_length. cbn. lia.
Qed.

Lemma padsizes_of_nth (dim : nat) (nbl : Z) (fs : bool) (k : nat) (l r : Z) :
  nth_error (Model.padsizes_of dim nbl fs) k = Some (l, r) ->
  r = nbl
  /\ ((k < dim - 1)%nat /\ l = nbl
      \/ k = (dim - 1)%nat /\ l = (if fs then 0 else nbl)%Z).
Proof.
  unfold Model.padsizes_of. intros H.
  destruct (Nat.lt_ge_cases k (dim - 1)) as [Hk | Hk].
  - rewrite nth_error_app1 in H by now rewrite repeat_length.
    apply nth_error_In, repeat_spec in H. inversion H. auto.
  - rewrite nth_error_app2 in H by now rewrite repeat_length.
    rewrite repeat_length in H.
    destruct (k - (dim - 1))%nat as [| j] eqn:Hj.
    + cbn in H. inversion H. split; [reflexivity | right]. split; [lia | reflexivity].
    + cbn in H. now destruct j.
Qed.

(** The pad sizes of a model with a free surface: every dimension-side but
    the near side of the last axis has the [nbl] points of layer. *)
Lemma padsizes_of_free_surface (dim : nat) (nbl : Z) :
  (0 < dim)%nat ->
  forall d s t,
    In (d, s, t) (Spec.dimension_sides 0 (Model.padsizes_of dim nbl true)) ->
    Spec.is_free_surface dim (d, s, t) = false ->
    t = nbl.
Proof.
  intros Hdim d s t Hin Hfree.
  apply In_dimension_sides in Hin as (k & l & r & Hk & -> & Hs).
  apply padsizes_of_nth in Hk as [-> Hl].
  destruct Hs as [[-> ->] | [-> ->]]; [| reflexivity].
  destruct Hl as [[_ ->] | [-> ->]]; [reflexivity |].
  exfalso. unfold Spec.is_free_surface in Hfree.
  replace (S (0 + (dim - 1))) with dim in Hfree by lia.
  now rewrite Nat.eqb_refl in Hfree.
Qed.








(** ** Decimal formatting *)



Lemma floor_bounds (x : R) : IZR (Model.floor x) <= x < IZR (Model.floor x) + 1.
Proof. unfold Model.floor. pose proof (base_Int_part x). lra. Qed.

Lemma floor_unique (x : R) (z : Z) : IZR z <= x < IZR z + 1 -> Model.floor x = z.
Proof.
  intros H. unfold Model.floor. symmetry. apply Int_part_spec. lra.
Qed.

Lemma floor_IZR (z : Z) : Model.floor (IZR z) = z.
Proof. apply floor_unique. lra. Qed.

Lemma floor_le (x y : R) : x <= y -> (Model.floor x <= Model.floor y)%Z.
Proof.
  intros H. pose proof (floor_bounds x). pose proof (floor_bounds y).
  apply Z.lt_succ_r. apply lt_IZR. rewrite succ_IZR. lra.
Qed.


Lemma round_half_even_IZR (k : Z) : Model.round_half_even (IZR k) = k.
Proof.
  unfold Model.round_half_even. rewrite floor_IZR.
  destruct (Rlt_dec (IZR k - IZR k) (1 / 2)); [reflexivity | lra].
Qed.

Lemma round_half_even_range (s : R) :
  (Model.floor s <= Model.round_half_even s <= Model.floor s + 1)%Z.
Proof.
  unfold Model.round_half_even.
  destruct (Rlt_dec _ _); [lia |].
  destruct (Rlt_dec _ _); [lia |].
  destruct (Z.even _); lia.
Qed.

Lemma round_half_even_le (s t : R) :
  s <= t -> (Model.round_half_even s <= Model.round_half_even t)%Z.
Proof.
  intros Hst.
  pose proof (floor_le s t Hst) as Hf.
  pose proof (round_half_even_range s). pose proof (round_half_even_range t).
  destruct (Z.eq_dec (Model.floor s) (Model.floor t)) as [Heq | Hne]; [| lia].
  unfold Model.round_half_even. rewrite <- Heq.
  destruct (Rlt_dec (s - IZR (Model.floor s)) (1 / 2)) as [Hs | Hs].
  - destruct (Rlt_dec (t - IZR (Model.floor s)) (1 / 2)); [lia |].
    destruct (Rlt_dec _ _); [lia |]. destruct (Z.even _); lia.
  - destruct (Rlt_dec (t - IZR (Model.floor s)) (1 / 2)) as [Ht | Ht]; [lra |].
    destruct (Rlt_dec (1 / 2) (s - IZR (Model.floor s))) as [Hs' | Hs'].
    + destruct (Rlt_dec (1 / 2) (t - IZR (Model.floor s))); [lia | lra].
    + destruct (Rlt_dec (1 / 2) (t - IZR (Model.floor s))).
      * destruct (Z.even _); lia.
      * lia.
Qed.

(** The value of the rounding, from an interval that holds [s]. *)
Lemma round_half_even_eval (s : R) (k : Z) :
  IZR k - 1 / 2 < s < IZR k + 1 / 2 -> Model.round_half_even s = k.
Proof.
  intros H. unfold Model.round_half_even.
  destruct (Rle_lt_dec (IZR k) s) as [Hk | Hk].
  - rewrite (floor_unique s k) by lra.
    destruct (Rlt_dec _ _); [reflexivity | lra].
  - rewrite (floor_unique s (k - 1)) by (rewrite minus_IZR; lra).
    rewrite minus_IZR.
    destruct (Rlt_dec _ _); [lra |].
    destruct (Rlt_dec _ _); [lia | lra].
Qed.


Lemma ln_10_pos : 0 < ln 10.
Proof. rewrite <- ln_1. apply ln_increasing; lra. Qed.

Lemma pow10_exp (z : Z) : powerRZ 10 z = exp (IZR z * ln 10).
Proof. rewrite powerRZ_Rpower by lra. reflexivity. Qed.

Lemma pow10_pos (z : Z) : 0 < powerRZ 10 z.
Proof. apply powerRZ_lt. lra. Qed.

Lemma pow10_le (a b : Z) : (a <= b)%Z -> powerRZ 10 a <= powerRZ 10 b.
Proof.
  intros H. rewrite !pow10_exp.
  apply IZR_le in H. pose proof ln_10_pos.
  destruct (Req_dec (IZR a) (IZR b)) as [-> | Hne]; [lra |].
  left. apply exp_increasing. nra.
Qed.

Lemma pow10_lt (a b : Z) : (a < b)%Z -> powerRZ 10 a < powerRZ 10 b.
Proof.
  intros H. rewrite !pow10_exp.
  apply IZR_lt in H. pose proof ln_10_pos.
  apply exp_increasing. nra.
Qed.

Lemma pow10_add (a b : Z) :
  powerRZ 10 (a + b) = powerRZ 10 a * powerRZ 10 b.
Proof. apply powerRZ_add. lra. Qed.

Lemma pow10_succ (a : Z) : powerRZ 10 (a + 1) = 10 * powerRZ 10 a.
Proof. rewrite pow10_add. change (powerRZ 10 1) with (10 * 1). ring. Qed.

Lemma pow10_nat (p : nat) : powerRZ 10 (Z.of_nat p) = IZR (10 ^ Z.of_nat p).
Proof.
  rewrite <- pow_powerRZ. rewrite <- pow_IZR. reflexivity.
Qed.

(** The decimal exponent brackets the number between two powers of ten. *)
Lemma decimal_exponent_bounds (x : R) :
  x <> 0 ->
  powerRZ 10 (Model.decimal_exponent x) <= Rabs x
  < powerRZ 10 (Model.decimal_exponent x + 1).
Proof.
  intros Hx. unfold Model.decimal_exponent.
  pose proof (Rabs_pos_lt x Hx) as Hpos.
  pose proof ln_10_pos as H10.
  pose proof (floor_bounds (ln (Rabs x) / ln 10)) as [Hlo Hhi].
  set (e := Model.floor (ln (Rabs x) / ln 10)) in *.
  assert (Hlo' : IZR e * ln 10 <= ln (Rabs x)).
  { apply (Rmult_le_compat_r (ln 10)) in Hlo; [| lra].
    unfold Rdiv in Hlo. rewrite Rmult_assoc, Rinv_l, Rmult_1_r in Hlo; lra. }
  assert (Hhi' : ln (Rabs x) < (IZR e + 1) * ln 10).
  { apply (Rmult_lt_compat_r (ln 10)) in Hhi; [| lra].
    unfold Rdiv in Hhi. rewrite Rmult_assoc, Rinv_l, Rmult_1_r in Hhi; lra. }
  rewrite !pow10_exp, plus_IZR.
  split.
  - rewrite <- (exp_ln (Rabs x)) at 1 by assumption.
    destruct Hlo' as [Hlt | Heq].
    + left. now apply exp_increasing.
    + right. now rewrite Heq.
  - rewrite <- (exp_ln (Rabs x)) at 1 by assumption.
    now apply exp_increasing.
Qed.

Lemma decimal_exponent_unique (x : R) (e : Z) :
  powerRZ 10 e <= Rabs x < powerRZ 10 (e + 1) -> Model.decimal_exponent x = e.
Proof.
  intros [Hlo Hhi]. unfold Model.decimal_exponent.
  pose proof ln_10_pos as H10.
  pose proof (pow10_pos e) as Hpe.
  assert (Hpos : 0 < Rabs x) by lra.
  rewrite !pow10_exp, plus_IZR in *.
  rewrite <- (exp_ln (Rabs x)) in Hlo, Hhi by assumption.
  apply floor_unique. split.
  - apply (Rmult_le_reg_r (ln 10)); [lra |].
    unfold Rdiv. rewrite Rmult_assoc, Rinv_l, Rmult_1_r by lra.
    destruct Hlo as [Hlt | Heq].
    + left. now apply exp_lt_inv.
    + right. now apply exp_inv.
  - apply (Rmult_lt_reg_r (ln 10)); [lra |].
    unfold Rdiv. rewrite Rmult_assoc, Rinv_l, Rmult_1_r by lra.
    now apply exp_lt_inv.
Qed.


(** The scaled mantissa lies between [10^prec] and [10^(prec+1)]. *)
Lemma mantissa_bounds (prec : nat) (x : R) :
  x <> 0 ->
  IZR (10 ^ Z.of_nat prec)
  <= Rabs x / powerRZ 10 (Model.decimal_exponent x - Z.of_nat prec)
  < IZR (10 ^ Z.of_nat (S prec)).
Proof.
  intros Hx.
  pose proof (decimal_exponent_bounds x Hx) as [Hlo Hhi].
  set (e := Model.decimal_exponent x) in *.
  pose proof (pow10_pos (e - Z.of_nat prec)) as Hu.
  rewrite <- !pow10_nat.
  replace e with ((e - Z.of_nat prec) + Z.of_nat prec)%Z in Hlo at 1 by lia.
  replace (e + 1)%Z with ((e - Z.of_nat prec) + Z.of_nat (S prec))%Z in Hhi
    by lia.
  rewrite pow10_add in Hlo, Hhi.
  split.
  - apply (Rmult_le_reg_r (powerRZ 10 (e - Z.of_nat prec))); [lra |].
    unfold Rdiv. rewrite Rmult_assoc, Rinv_l, Rmult_1_r by lra. lra.
  - apply (Rmult_lt_reg_r (powerRZ 10 (e - Z.of_nat prec))); [lra |].
    unfold Rdiv. rewrite Rmult_assoc, Rinv_l, Rmult_1_r by lra. lra.
Qed.

Lemma rounded_mantissa_bounds (prec : nat) (x : R) :
  x <> 0 ->
  (10 ^ Z.of_nat prec
   <= Model.round_half_even
        (Rabs x / powerRZ 10 (Model.decimal_exponent x - Z.of_nat prec))
   <= 10 ^ Z.of_nat (S prec))%Z.
Proof.
  intros Hx. pose proof (mantissa_bounds prec x Hx) as [Hlo Hhi].
  set (s := Rabs x / _) in *.
  split.
  - rewrite <- (round_half_even_IZR (10 ^ Z.of_nat prec)).
    now apply round_half_even_le.
  - rewrite <- (round_half_even_IZR (10 ^ Z.of_nat (S prec))).
    apply round_half_even_le. lra.
Qed.


Lemma format_e_0 (prec : nat) : Model.format_e prec 0 = 0.
Proof. unfold Model.format_e. destruct (Req_dec_T 0 0); [reflexivity | lra]. Qed.

Lemma format_e_positive (prec : nat) (x : R) :
  0 < x ->
  Model.format_e prec x
  = IZR (Model.round_half_even (x / powerRZ 10 (Model.decimal_exponent x - Z.of_nat prec)))
    * powerRZ 10 (Model.decimal_exponent x - Z.of_nat prec).
Proof.
  intros Hx. unfold Model.format_e, Model.sign.
  destruct (Req_dec_T x 0); [lra |].
  destruct (Rlt_dec x 0); [lra |].
  rewrite Rabs_pos_eq by lra. ring.
Qed.

Lemma decimal_exponent_opp (x : R) :
  Model.decimal_exponent (- x) = Model.decimal_exponent x.
Proof. unfold Model.decimal_exponent. now rewrite Rabs_Ropp. Qed.

Lemma format_e_opp (prec : nat) (x : R) :
  Model.format_e prec (- x) = - Model.format_e prec x.
Proof.
  unfold Model.format_e, Model.sign.
  destruct (Req_dec_T x 0) as [-> | Hx].
  - rewrite Ropp_0. destruct (Req_dec_T 0 0); lra.
  - destruct (Req_dec_T (- x) 0); [lra |].
    rewrite decimal_exponent_opp, Rabs_Ropp.
    destruct (Rlt_dec (- x) 0), (Rlt_dec x 0); try lra; ring.
Qed.

(** For a positive [x], the result lies between the powers of ten that
    bracket [x]. *)
Lemma format_e_bracket (prec : nat) (x : R) :
  0 < x ->
  powerRZ 10 (Model.decimal_exponent x) <= Model.format_e prec x
  <= powerRZ 10 (Model.decimal_exponent x + 1).
Proof.
  intros Hx. rewrite format_e_positive by assumption.
  assert (Hne : x <> 0) by lra.
  pose proof (rounded_mantissa_bounds prec x Hne) as [Hlo Hhi].
  rewrite Rabs_pos_eq in Hlo, Hhi by lra.
  set (e := Model.decimal_exponent x) in *.
  set (k := Model.round_half_even _) in *.
  pose proof (pow10_pos (e - Z.of_nat prec)) as Hu.
  apply IZR_le in Hlo, Hhi. rewrite <- !pow10_nat in Hlo, Hhi.
  replace e with ((e - Z.of_nat prec) + Z.of_nat prec)%Z at 1 by lia.
  replace (e + 1)%Z with ((e - Z.of_nat prec) + Z.of_nat (S prec))%Z by lia.
  rewrite !pow10_add. split; nra.
Qed.

Lemma format_e_pos (prec : nat) (x : R) : 0 < x -> 0 < Model.format_e prec x.
Proof.
  intros Hx. pose proof (format_e_bracket prec x Hx).
  pose proof (pow10_pos (Model.decimal_exponent x)). lra.
Qed.

Lemma decimal_exponent_le (x y : R) :
  0 < x -> x <= y -> (Model.decimal_exponent x <= Model.decimal_exponent y)%Z.
Proof.
  intros Hx Hxy.
  pose proof (decimal_exponent_bounds x ltac:(lra)) as [Hlo _].
  pose proof (decimal_exponent_bounds y ltac:(lra)) as [_ Hhi].
  rewrite Rabs_pos_eq in Hlo, Hhi by lra.
  destruct (Z_le_gt_dec (Model.decimal_exponent x) (Model.decimal_exponent y)) as [H | H];
    [exact H | exfalso].
  assert (H' : (Model.decimal_exponent y + 1 <= Model.decimal_exponent x)%Z) by lia.
  apply pow10_le in H'. lra.
Qed.

Lemma format_e_le_pos (prec : nat) (x y : R) :
  0 < x -> x <= y -> Model.format_e prec x <= Model.format_e prec y.
Proof.
  intros Hx Hxy.
  pose proof (decimal_exponent_le x y Hx Hxy) as He.
  destruct (Z.eq_dec (Model.decimal_exponent x) (Model.decimal_exponent y)) as [Heq | Hne].
  - rewrite !format_e_positive by lra. rewrite Heq.
    pose proof (pow10_pos (Model.decimal_exponent y - Z.of_nat prec)) as Hu.
    apply Rmult_le_compat_r; [lra |].
    apply IZR_le, round_half_even_le.
    apply Rmult_le_compat_r; [| exact Hxy].
    left. now apply Rinv_0_lt_compat.
  - pose proof (format_e_bracket prec x Hx) as [_ Hhi].
    pose proof (format_e_bracket prec y ltac:(lra)) as [Hlo _].
    assert (H : (Model.decimal_exponent x + 1 <= Model.decimal_exponent y)%Z) by lia.
    apply pow10_le in H. lra.
Qed.

(** Formatting is monotone. *)
Lemma format_e_le (prec : nat) (x y : R) :
  x <= y -> Model.format_e prec x <= Model.format_e prec y.
Proof.
  intros Hxy.
  destruct (Rlt_le_dec 0 x) as [Hx | Hx].
  - now apply format_e_le_pos.
  - destruct (Rlt_le_dec 0 y) as [Hy | Hy].
    + pose proof (format_e_pos prec y Hy).
      destruct Hx as [Hx | ->]; [| rewrite format_e_0; lra].
      pose proof (format_e_pos prec (- x) ltac:(lra)) as H'.
      rewrite format_e_opp in H'. lra.
    + destruct Hy as [Hy | ->].
      * pose proof (format_e_le_pos prec (- y) (- x) ltac:(lra) ltac:(lra)) as H.
        rewrite !format_e_opp in H. lra.
      * rewrite format_e_0.
        destruct Hx as [Hx | ->]; [| rewrite format_e_0; lra].
        pose proof (format_e_pos prec (- x) ltac:(lra)) as H'.
        rewrite format_e_opp in H'. lra.
Qed.

(** The value of the formatting, from the bracket and the digits. *)
Lemma format_e_eval (prec : nat) (x : R) (e k : Z) :
  0 < x ->
  powerRZ 10 e <= x < powerRZ 10 (e + 1) ->
  IZR k - 1 / 2 < x / powerRZ 10 (e - Z.of_nat prec) < IZR k + 1 / 2 ->
  Model.format_e prec x = IZR k * powerRZ 10 (e - Z.of_nat prec).
Proof.
  intros Hx He Hk. rewrite format_e_positive by assumption.
  rewrite (decimal_exponent_unique x e) by (rewrite Rabs_pos_eq; lra).
  now rewrite (round_half_even_eval _ k).
Qed.

Lemma format_e_idempotent_pos (prec : nat) (x : R) :
  0 < x -> Model.format_e prec (Model.format_e prec x) = Model.format_e prec x.
Proof.
  intros Hx.
  pose proof (format_e_pos prec x Hx) as Hy.
  pose proof (format_e_bracket prec x Hx) as [Hlo Hhi].
  assert (Hne : x <> 0) by lra.
  pose proof (rounded_mantissa_bounds prec x Hne) as [Hklo Hkhi].
  rewrite Rabs_pos_eq in Hklo, Hkhi by lra.
  rewrite (format_e_positive prec x Hx) in *.
  set (e := Model.decimal_exponent x) in *.
  set (k := Model.round_half_even _) in *.
  pose proof (pow10_pos (e - Z.of_nat prec)) as Hu.
  destruct (Z.eq_dec k (10 ^ Z.of_nat (S prec))) as [Hk | Hk].
  - assert (Hval : IZR k * powerRZ 10 (e - Z.of_nat prec)
                   = powerRZ 10 (e + 1)).
    { rewrite Hk, <- pow10_nat, <- pow10_add. f_equal. lia. }
    rewrite Hval.
    rewrite (format_e_eval prec _ (e + 1) (10 ^ Z.of_nat prec)).
    + rewrite <- pow10_nat, <- pow10_add. f_equal. lia.
    + apply pow10_pos.
    + split; [lra | apply pow10_lt; lia].
    + replace (powerRZ 10 (e + 1))
        with (IZR (10 ^ Z.of_nat prec) * powerRZ 10 (e + 1 - Z.of_nat prec)).
      * pose proof (pow10_pos (e + 1 - Z.of_nat prec)).
        unfold Rdiv. rewrite Rmult_assoc, Rinv_r, Rmult_1_r by lra. lra.
      * rewrite <- pow10_nat, <- pow10_add. f_equal. lia.
  - apply (format_e_eval prec _ e k).
    + exact Hy.
    + split; [exact Hlo |].
      assert (Hlt : (k + 1 <= 10 ^ Z.of_nat (S prec))%Z) by lia.
      apply IZR_le in Hlt. rewrite plus_IZR, <- pow10_nat in Hlt.
      replace (e + 1)%Z with ((e - Z.of_nat prec) + Z.of_nat (S prec))%Z
        by lia.
      rewrite pow10_add. nra.
    + unfold Rdiv. rewrite Rmult_assoc, Rinv_r, Rmult_1_r by lra. lra.
Qed.

(** Formatting a formatted number changes nothing. *)
Lemma format_e_idempotent (prec : nat) (x : R) :
  Model.format_e prec (Model.format_e prec x) = Model.format_e prec x.
Proof.
  destruct (Rtotal_order x 0) as [Hx | [-> | Hx]].
  - pose proof (format_e_idempotent_pos prec (- x) ltac:(lra)) as H.
    rewrite !format_e_opp in H. lra.
  - now rewrite !format_e_0.
  - now apply format_e_idempotent_pos.
Qed.


(** ** Finite-difference weights *)

Lemma sum_abs_nonneg (ws : list Q) : (0 <= Sympy.sum_abs ws)%Q.
Proof.
  induction ws as [| w ws IH]; [apply Qle_refl |].
  unfold Sympy.sum_abs in *. cbn [map fold_right].
  pose proof (Qabs_nonneg w) as Hw.
  replace 0%Q with (0 + 0)%Q by reflexivity.
  now apply Qplus_le_compat.
Qed.

Lemma range_length (a b : Z) : List.length (Model.range a b) = Z.to_nat (b - a).
Proof. unfold Model.range. now rewrite length_map, length_seq. Qed.

Lemma range_nth (a b : Z) (i : nat) :
  (i < Z.to_nat (b - a))%nat ->
  nth i (Model.range a b) 0%Z = (a + Z.of_nat i)%Z.
Proof.
  intros H. unfold Model.range.
  rewrite (nth_indep _ 0%Z ((fun i => (a + Z.of_nat i)%Z) 0%nat))
    by now rewrite length_map, length_seq.
  rewrite (map_nth (fun i => (a + Z.of_nat i)%Z)), seq_nth by exact H.
  reflexivity.
Qed.

Module FornbergFacts.

Import Lqa.
Local Open Scope Q_scope.

Lemma fold_gap_nonzero (f : nat -> Q) (l : list nat) (c : Q) :
  ~ c == 0 -> (forall nu, In nu l -> ~ f nu == 0) ->
  ~ fold_left (fun c nu => c * f nu) l c == 0.
Proof.
  revert c. induction l as [| nu l IH]; intros c Hc Hf; [exact Hc |].
  cbn [fold_left]. apply IH.
  - intros H. apply Qmult_integral in H as [H | H]; [now apply Hc |].
    now apply (Hf nu (or_introl eq_refl)).
  - intros nu' Hin. apply Hf. now right.
Qed.

Lemma node_gap_nonzero (xs : list Q) (n : nat) :
  Stencil.distinct xs -> (n < List.length xs)%nat -> ~ Stencil.node_gap xs n == 0.
Proof.
  intros Hd Hn. unfold Stencil.node_gap.
  apply (fold_gap_nonzero (fun nu => Sympy.nthQ xs n - Sympy.nthQ xs nu)).
  - discriminate.
  - intros nu Hin H. apply in_seq in Hin.
    apply (Hd nu n ltac:(lia)).
    rewrite <- (Qplus_0_l (Sympy.nthQ xs nu)), <- H. ring.
Qed.

Lemma poly_coeff_high (l : list Q) :
  forall m, (List.length l < m)%nat -> Stencil.poly_coeff l m == 0.
Proof.
  induction l as [| a l IH]; intros m Hm.
  - cbn. destruct m; [cbn in Hm; lia | reflexivity].
  - cbn [Stencil.poly_coeff]. cbn [List.length] in Hm.
    destruct m as [| m']; [lia |].
    rewrite (IH m'), (IH (S m')) by lia. ring.
Qed.

Lemma offsets_length xs x0 n : List.length (Stencil.offsets xs x0 n) = n.
Proof. induction n; cbn; congruence. Qed.

Lemma nth_map_seq {A : Type} (f : nat -> A) (n m : nat) (d : A) :
  (m < n)%nat -> nth m (map f (seq 0 n)) d = f m.
Proof.
  intros H. rewrite (nth_indep _ d (f 0%nat)) by now rewrite length_map, length_seq.
  rewrite (map_nth f), seq_nth by exact H. reflexivity.
Qed.

Lemma fact_succ_Q (m : nat) :
  inject_Z (Z.of_nat (fact (S m)))
  == inject_Z (Z.of_nat (S m)) * inject_Z (Z.of_nat (fact m)).
Proof.
  rewrite <- inject_Z_mult. rewrite <- Nat2Z.inj_mul. reflexivity.
Qed.

Lemma fornberg_step_diagonal (M : nat) (x0 : Q) (xs : list Q) (k : nat)
    (c : Q) (delta : list (list Q)) :
  Stencil.distinct xs -> (S k < List.length xs)%nat ->
  Stencil.diagonal_ok M x0 xs k c delta ->
  Stencil.diagonal_ok M x0 xs (S k)
    (fst (Sympy.fornberg_step M x0 xs (S k) c delta))
    (snd (Sympy.fornberg_step M x0 xs (S k) c delta)).
Proof.
  intros Hd Hk [Hc Hrows].
  pose proof (node_gap_nonzero xs k Hd ltac:(lia)) as Hg.
  pose proof (node_gap_nonzero xs (S k) Hd Hk) as Hg'.
  unfold Sympy.fornberg_step. cbn [fst snd].
  fold (Stencil.node_gap xs (S k)).
  split; [reflexivity |].
  intros m Hm. unfold Sympy.row at 1.
  rewrite nth_map_seq by lia.
  destruct (m <=? Nat.min (S k) M)%nat eqn:Hle.
  - unfold Sympy.nthQ at 1.
    rewrite app_nth2 by (rewrite length_map, length_seq; lia).
    rewrite length_map, length_seq, Nat.sub_diag. cbn [nth].
    replace (S k - 1)%nat with k by lia.
    cbn [Stencil.offsets Stencil.poly_coeff].
    rewrite Hc.
    destruct m as [| m'].
    + rewrite (Hrows 0%nat) by lia. cbn [fact]. 
      change (inject_Z (Z.of_nat 0)) with 0.
      change (inject_Z (Z.of_nat 1)) with 1.
      field. split; assumption.
    + rewrite (Hrows m'), (Hrows (S m')) by lia.
      rewrite fact_succ_Q.
      field. split; assumption.
  - apply Nat.leb_gt in Hle.
    unfold Sympy.nthQ at 1.
    assert (Hlt : (S k < m)%nat) by lia.
    replace (nth (S k) (repeat 0 (S (S k))) 0) with 0
      by (symmetry; apply nth_repeat).
    rewrite (poly_coeff_high (Stencil.offsets xs x0 (S k)) m)
      by (rewrite offsets_length; exact Hlt).
    field. exact Hg'.
Qed.

Lemma fornberg_loop_diagonal (M : nat) (x0 : Q) (xs : list Q) :
  Stencil.distinct xs ->
  forall steps k c delta,
    (k + steps < List.length xs)%nat ->
    Stencil.diagonal_ok M x0 xs k c delta ->
    exists c',
      Stencil.diagonal_ok M x0 xs (k + steps) c'
        (Sympy.fornberg_loop M x0 xs steps (S k) c delta).
Proof.
  intros Hd. induction steps as [| steps IH]; intros k c delta Hlen Hok.
  - exists c. now rewrite Nat.add_0_r.
  - cbn [Sympy.fornberg_loop].
    pose proof (fornberg_step_diagonal M x0 xs k c delta Hd ltac:(lia) Hok)
      as Hstep.
    destruct (Sympy.fornberg_step M x0 xs (S k) c delta) as [c2 delta'].
    cbn [fst snd] in Hstep.
    replace (k + S steps)%nat with (S k + steps)%nat by lia.
    apply IH; [lia | exact Hstep].
Qed.

Lemma diagonal_start (M : nat) (x0 : Q) (xs : list Q) :
  Stencil.diagonal_ok M x0 xs 0 1
    (map (fun m => match m with O => [1] | _ => [0] end) (seq 0 (S M))).
Proof.
  split; [reflexivity |].
  intros m Hm. unfold Sympy.row. rewrite nth_map_seq by lia.
  unfold Stencil.node_gap. cbn [seq fold_left Stencil.offsets Stencil.poly_coeff].
  destruct m as [| m']; cbn.
  - reflexivity.
  - unfold Sympy.nthQ. cbn. field.
Qed.

Lemma nth_map_Qred (l : list Q) :
  forall i, nth i (map Qred l) 0 == nth i l 0.
Proof.
  induction l as [| q l IH]; intros [| i]; cbn; try reflexivity.
  - apply Qred_correct.
  - apply IH.
Qed.

(** The last weight, in closed form. *)
Lemma last_weight (order : nat) (xs : list Q) (x0 : Q) :
  Stencil.distinct xs -> (0 < List.length xs)%nat ->
  Sympy.nthQ (Sympy.finite_diff_weights order xs x0) (List.length xs - 1)
  == inject_Z (Z.of_nat (fact order))
     * Stencil.poly_coeff (Stencil.offsets xs x0 (List.length xs - 1)) order
     / Stencil.node_gap xs (List.length xs - 1).
Proof.
  intros Hd Hlen. unfold Sympy.finite_diff_weights.
  destruct (fornberg_loop_diagonal order x0 xs Hd (List.length xs - 1) 0 1 _
              ltac:(lia) (diagonal_start order x0 xs)) as [c' [_ Hrows]].
  cbn [Nat.add] in Hrows.
  unfold Sympy.nthQ at 1.
  rewrite nth_map_Qred. apply Hrows. lia.
Qed.

Lemma Qabs_nth_le_sum_abs (ws : list Q) :
  forall i, Qabs (Sympy.nthQ ws i) <= Sympy.sum_abs ws.
Proof.
  induction ws as [| w ws IH]; intros i.
  - unfold Sympy.nthQ. destruct i; cbn; discriminate.
  - unfold Sympy.sum_abs. cbn [map fold_right]. fold (Sympy.sum_abs ws).
    pose proof (sum_abs_nonneg ws) as Hs.
    pose proof (Qabs_nonneg w) as Hw.
    destruct i as [| i]; unfold Sympy.nthQ; cbn [nth].
    + rewrite <- (Qplus_0_r (Qabs w)) at 1.
      apply Qplus_le_compat; [apply Qle_refl | exact Hs].
    + rewrite <- (Qplus_0_l (Qabs (nth i ws 0))).
      apply Qplus_le_compat; [exact Hw | apply IH].
Qed.

Lemma Qabs_pos (q : Q) : ~ q == 0 -> 0 < Qabs q.
Proof.
  intros H. destruct (Qlt_le_dec 0 (Qabs q)) as [Hlt | Hle]; [exact Hlt |].
  exfalso. apply H.
  apply Qabs_Qle_condition in Hle as [Hlo Hhi].
  now apply Qle_antisym.
Qed.

(** If the polynomial of the nodes but the last has a term of degree
    [order], the weights do not all vanish. *)
Lemma sum_abs_pos_of_coeff (order : nat) (xs : list Q) (x0 : Q) :
  Stencil.distinct xs -> (0 < List.length xs)%nat ->
  ~ Stencil.poly_coeff (Stencil.offsets xs x0 (List.length xs - 1)) order == 0 ->
  0 < Sympy.sum_abs (Sympy.finite_diff_weights order xs x0).
Proof.
  intros Hd Hlen Hc.
  eapply Qlt_le_trans; [| apply (Qabs_nth_le_sum_abs _ (List.length xs - 1))].
  apply Qabs_pos. rewrite last_weight by assumption.
  pose proof (node_gap_nonzero xs (List.length xs - 1) Hd ltac:(lia)) as Hg.
  intros H.
  assert (Hf : ~ inject_Z (Z.of_nat (fact order)) == 0).
  { pose proof (lt_O_fact order). unfold Qeq, inject_Z. cbn. lia. }
  apply Hc.
  assert (E : Stencil.poly_coeff (Stencil.offsets xs x0 (List.length xs - 1)) order
              == (inject_Z (Z.of_nat (fact order))
                  * Stencil.poly_coeff (Stencil.offsets xs x0 (List.length xs - 1)) order
                  / Stencil.node_gap xs (List.length xs - 1))
                 * Stencil.node_gap xs (List.length xs - 1)
                 / inject_Z (Z.of_nat (fact order)))
    by (field; split; assumption).
  rewrite E, H. field. exact Hf.
Qed.

Lemma range_nthQ (lo hi : Z) (k : nat) :
  (k < Z.to_nat (hi - lo))%nat ->
  Sympy.nthQ (map inject_Z (Model.range lo hi)) k
  = inject_Z (lo + Z.of_nat k).
Proof.
  intros H. unfold Sympy.nthQ.
  change 0 with (inject_Z 0). rewrite (map_nth inject_Z).
  now rewrite range_nth.
Qed.

Lemma range_distinct (lo hi : Z) :
  Stencil.distinct (map inject_Z (Model.range lo hi)).
Proof.
  intros i j Hij. rewrite length_map, range_length in Hij.
  rewrite !range_nthQ by lia.
  unfold Qeq, inject_Z. cbn. lia.
Qed.

Lemma offsets_range (lo hi : Z) (x0 : Q) (n : nat) :
  (n <= Z.to_nat (hi - lo))%nat ->
  Stencil.offsets (map inject_Z (Model.range lo hi)) x0 n
  = map (Stencil.shifted x0) (Stencil.zdown lo n).
Proof.
  induction n as [| n IH]; intros Hn; [reflexivity |].
  cbn [Stencil.offsets Stencil.zdown map]. rewrite range_nthQ by lia.
  now rewrite IH by lia.
Qed.

Lemma zdown_app (lo : Z) (n k : nat) :
  Stencil.zdown lo (n + k) = Stencil.zdown (lo + Z.of_nat n) k ++ Stencil.zdown lo n.
Proof.
  induction k as [| k IH].
  - now rewrite Nat.add_0_r.
  - rewrite Nat.add_succ_r. cbn [Stencil.zdown app]. rewrite IH.
    f_equal. lia.
Qed.

Lemma poly_coeff_nonzero_nodes (l : list Q) :
  Forall (fun a => ~ a == 0) l ->
  Stencil.poly_coeff l 0 == Stencil.prod_neg l
  /\ Stencil.poly_coeff l 1 == - Stencil.prod_neg l * Stencil.recip_sum l.
Proof.
  induction 1 as [| a l Ha _ [IH0 IH1]].
  - cbn. split; [reflexivity | ring].
  - cbn [Stencil.poly_coeff Stencil.prod_neg Stencil.recip_sum fold_right].
    fold (Stencil.prod_neg l). fold (Stencil.recip_sum l).
    rewrite IH0, IH1. split; [ring | field; exact Ha].
Qed.

Lemma prod_neg_nonzero (l : list Q) :
  Forall (fun a => ~ a == 0) l -> ~ Stencil.prod_neg l == 0.
Proof.
  induction 1 as [| a l Ha _ IH]; [discriminate |].
  cbn [Stencil.prod_neg fold_right]. fold (Stencil.prod_neg l).
  intros H. apply Qmult_integral in H as [H | H]; [| contradiction].
  apply Ha. rewrite <- (Qopp_involutive a), H. reflexivity.
Qed.

(** A node at [x0] shifts the coefficients by one degree. *)
Lemma poly_coeff_zero_node (l l' : list Q) (z : Q) :
  z == 0 ->
  forall m,
    Stencil.poly_coeff (l ++ z :: l') m
    == match m with O => 0 | S m' => Stencil.poly_coeff (l ++ l') m' end.
Proof.
  intros Hz. induction l as [| a l IH]; intros m.
  - cbn [app Stencil.poly_coeff]. rewrite Hz. destruct m; ring.
  - cbn [app Stencil.poly_coeff]. destruct m as [| m'].
    + rewrite (IH 0%nat). ring.
    + rewrite (IH (S m')), (IH m'). reflexivity.
Qed.

Lemma recip_sum_app (l l' : list Q) :
  Stencil.recip_sum (l ++ l') == Stencil.recip_sum l + Stencil.recip_sum l'.
Proof.
  induction l as [| a l IH]; cbn [app].
  - change (Stencil.recip_sum []) with 0. ring.
  - change (Stencil.recip_sum (a :: l ++ l')) with (/ a + Stencil.recip_sum (l ++ l')).
    change (Stencil.recip_sum (a :: l)) with (/ a + Stencil.recip_sum l).
    rewrite IH. ring.
Qed.

Lemma shifted_half_nonzero (j : Z) : ~ Stencil.shifted (1 # 2) j == 0.
Proof. unfold Stencil.shifted, Qeq, Qminus, Qplus, Qopp, inject_Z. cbn. lia. Qed.

Lemma shifted_zero (j : Z) : Stencil.shifted 0 j == inject_Z j.
Proof. unfold Stencil.shifted. ring. Qed.

Lemma Forall_map_zdown (P : Q -> Prop) (f : Z -> Q) (lo : Z) (n : nat) :
  (forall j, (lo <= j < lo + Z.of_nat n)%Z -> P (f j)) ->
  Forall P (map f (Stencil.zdown lo n)).
Proof.
  induction n as [| n IH]; intros H; cbn [Stencil.zdown map]; constructor.
  - apply H. lia.
  - apply IH. intros j Hj. apply H. lia.
Qed.

(** The sum of the reciprocals of the Stencil.offsets of the nodes [-h, ..., h - 2]
    from 1/2. *)
Lemma recip_sum_half (h : nat) :
  (2 <= h)%nat ->
  Stencil.recip_sum (map (Stencil.shifted (1 # 2)) (Stencil.zdown (- Z.of_nat h) (2 * h - 1)))
  == - (/ (inject_Z (Z.of_nat h) + (1 # 2))
        + / (inject_Z (Z.of_nat h) - (1 # 2))
        + / (inject_Z (Z.of_nat h) - (3 # 2))).
Proof.
  induction h as [| h IH]; intros Hh; [lia |].
  destruct (Nat.eq_dec h 1) as [-> | Hne].
  - vm_compute. reflexivity.
  - replace (2 * S h - 1)%nat with (1 + (2 * h - 1) + 1)%nat by lia.
    rewrite Nat.add_1_r. cbn [Stencil.zdown map].
    rewrite (zdown_app (- Z.of_nat (S h)) 1 (2 * h - 1)).
    rewrite map_app.
    change (Stencil.recip_sum (?a :: ?l)) with (/ a + Stencil.recip_sum l).
    rewrite recip_sum_app.
    replace (- Z.of_nat (S h) + Z.of_nat 1)%Z with (- Z.of_nat h)%Z by lia.
    rewrite IH by lia.
    cbn [Stencil.zdown map]. change (Stencil.recip_sum [?a]) with (/ a + 0).
    unfold Stencil.shifted.
    replace (- Z.of_nat (S h) + Z.of_nat (1 + (2 * h - 1)))%Z
      with (Z.of_nat h - 1)%Z by lia.
    replace (- Z.of_nat (S h) + Z.of_nat 0)%Z with (- Z.of_nat h - 1)%Z by lia.
    rewrite Nat2Z.inj_succ. unfold Z.succ, Z.sub.
    rewrite !inject_Z_plus, !inject_Z_opp.
    change (inject_Z 1) with 1. change (inject_Z (- (1))) with (- (1)).
    set (q := inject_Z (Z.of_nat h)).
    assert (Hq : 2 <= q).
    { unfold q. change 2 with (inject_Z 2). rewrite <- Zle_Qle. lia. }
    field. repeat split; lra.
Qed.

Lemma inject_nat_ge (h : nat) (k : Z) :
  (k <= Z.of_nat h)%Z -> inject_Z k <= inject_Z (Z.of_nat h).
Proof. intros H. now rewrite <- Zle_Qle. Qed.

(** The sum of the reciprocals of the nodes [-h, ..., h - 2] but 0. *)
Lemma recip_sum_integers (h : nat) :
  (2 <= h)%nat ->
  Stencil.recip_sum (map (Stencil.shifted 0) (Stencil.zdown 1 (h - 2)))
  + Stencil.recip_sum (map (Stencil.shifted 0) (Stencil.zdown (- Z.of_nat h) h))
  == - (/ (inject_Z (Z.of_nat h) - 1) + / inject_Z (Z.of_nat h)).
Proof.
  induction h as [| h IH]; intros Hh; [lia |].
  destruct (Nat.eq_dec h 1) as [-> | Hne].
  - vm_compute. reflexivity.
  - change (Stencil.zdown (- Z.of_nat (S h)) (S h))
      with (Stencil.zdown (- Z.of_nat (S h)) (1 + h)).
    rewrite (zdown_app (- Z.of_nat (S h)) 1 h), map_app, recip_sum_app.
    replace (- Z.of_nat (S h) + Z.of_nat 1)%Z with (- Z.of_nat h)%Z by lia.
    replace (S h - 2)%nat with (S (h - 2)) by lia.
    cbn [Stencil.zdown map].
    change (Stencil.recip_sum (?a :: ?l)) with (/ a + Stencil.recip_sum l).
    change (Stencil.recip_sum []) with 0.
    transitivity
      (/ Stencil.shifted 0 (1 + Z.of_nat (h - 2))
       + / Stencil.shifted 0 (- Z.of_nat (S h) + Z.of_nat 0)
       + (Stencil.recip_sum (map (Stencil.shifted 0) (Stencil.zdown 1 (h - 2)))
          + Stencil.recip_sum (map (Stencil.shifted 0) (Stencil.zdown (- Z.of_nat h) h))));
      [ring |].
    rewrite IH by lia.
    unfold Stencil.shifted.
    replace (1 + Z.of_nat (h - 2))%Z with (Z.of_nat h + - (1))%Z by lia.
    replace (- Z.of_nat (S h) + Z.of_nat 0)%Z with (- Z.of_nat h + - (1))%Z
      by lia.
    rewrite Nat2Z.inj_succ. unfold Z.succ.
    rewrite !inject_Z_plus, !inject_Z_opp.
    change (inject_Z 1) with 1.
    set (q := inject_Z (Z.of_nat h)).
    assert (Hq : 2 <= q).
    { unfold q. change 2 with (inject_Z 2). rewrite <- Zle_Qle. lia. }
    field. repeat split; lra.
Qed.

Lemma shifted_zero_nonzero (j : Z) : j <> 0%Z -> ~ Stencil.shifted 0 j == 0.
Proof.
  intros H. unfold Stencil.shifted, Qeq, Qminus, Qplus, Qopp, inject_Z. cbn. lia.
Qed.

Lemma Qinv_pos (q : Q) : 0 < q -> 0 < / q.
Proof. apply Qinv_lt_0_compat. Qed.

(** The polynomial of the nodes [-h, ..., h - 2], offset by 1/2, has a
    term of degree 1. *)
Lemma poly_coeff_half (h : nat) :
  (2 <= h)%nat ->
  ~ Stencil.poly_coeff (map (Stencil.shifted (1 # 2)) (Stencil.zdown (- Z.of_nat h) (2 * h - 1))) 1
    == 0.
Proof.
  intros Hh.
  assert (Hall : Forall (fun a => ~ a == 0)
                   (map (Stencil.shifted (1 # 2))
                        (Stencil.zdown (- Z.of_nat h) (2 * h - 1)))).
  { apply Forall_map_zdown. intros j _. apply shifted_half_nonzero. }
  destruct (poly_coeff_nonzero_nodes _ Hall) as [_ H1].
  pose proof (prod_neg_nonzero _ Hall) as Hp.
  rewrite H1, recip_sum_half by exact Hh.
  set (q := inject_Z (Z.of_nat h)).
  assert (Hq : 2 <= q).
  { unfold q. change 2 with (inject_Z 2). rewrite <- Zle_Qle. lia. }
  pose proof (Qinv_pos (q + (1 # 2)) ltac:(lra)).
  pose proof (Qinv_pos (q - (1 # 2)) ltac:(lra)).
  pose proof (Qinv_pos (q - (3 # 2)) ltac:(lra)).
  intros E. apply Qmult_integral in E as [E | E]; [| lra].
  apply Hp. rewrite <- (Qopp_involutive (Stencil.prod_neg _)), E. reflexivity.
Qed.

(** The polynomial of the nodes [-h, ..., h - 2] has a term of degree 2. *)
Lemma poly_coeff_integers (h : nat) :
  (2 <= h)%nat ->
  ~ Stencil.poly_coeff (map (Stencil.shifted 0) (Stencil.zdown (- Z.of_nat h) (2 * h - 1))) 2 == 0.
Proof.
  intros Hh.
  replace (2 * h - 1)%nat with (S h + (h - 2))%nat by lia.
  rewrite zdown_app.
  replace (- Z.of_nat h + Z.of_nat (S h))%Z with 1%Z by lia.
  cbn [Stencil.zdown]. replace (- Z.of_nat h + Z.of_nat h)%Z with 0%Z by lia.
  rewrite map_app. cbn [map].
  rewrite (poly_coeff_zero_node _ _ (Stencil.shifted 0 0)) by reflexivity.
  assert (Hall : Forall (fun a => ~ a == 0)
                   (map (Stencil.shifted 0) (Stencil.zdown 1 (h - 2))
                    ++ map (Stencil.shifted 0) (Stencil.zdown (- Z.of_nat h) h))).
  { apply Forall_app. split; apply Forall_map_zdown; intros j Hj;
      apply shifted_zero_nonzero; lia. }
  destruct (poly_coeff_nonzero_nodes _ Hall) as [_ H1].
  pose proof (prod_neg_nonzero _ Hall) as Hp.
  rewrite H1, recip_sum_app, recip_sum_integers by exact Hh.
  set (q := inject_Z (Z.of_nat h)).
  assert (Hq : 2 <= q).
  { unfold q. change 2 with (inject_Z 2). rewrite <- Zle_Qle. lia. }
  pose proof (Qinv_pos (q - 1) ltac:(lra)).
  pose proof (Qinv_pos q ltac:(lra)).
  intros E. apply Qmult_integral in E as [E | E]; [| lra].
  apply Hp. rewrite <- (Qopp_involutive (Stencil.prod_neg _)), E. reflexivity.
Qed.

(** The weights of the stencil of a model do not all vanish. *)
Lemma node_weights_pos (order : nat) (h : Z) (x0 : Q) :
  (2 <= h)%Z ->
  ~ Stencil.poly_coeff (map (Stencil.shifted x0)
                    (Stencil.zdown (- h) (Z.to_nat (2 * h) - 1))) order == 0 ->
  0 < Sympy.sum_abs (Model.fd_w order (Model.range (- h) h) x0).
Proof.
  intros Hh Hc. unfold Model.fd_w.
  apply sum_abs_pos_of_coeff.
  - apply range_distinct.
  - rewrite length_map, range_length. lia.
  - rewrite length_map, range_length.
    replace (h - - h)%Z with (2 * h)%Z by lia.
    rewrite offsets_range by lia. exact Hc.
Qed.

Lemma stencil_weights_pos (self : Model.t) :
  0 < Sympy.sum_abs (stencil_weights self).
Proof.
  unfold stencil_weights, stencil_order, stencil_nodes, stencil_x0.
  destruct (Model.is_elastic self).
  - set (h := Z.max (Model.space_order self / 2) 2).
    assert (Hh : (2 <= h)%Z) by (unfold h; lia).
    apply node_weights_pos; [exact Hh |].
    replace h with (Z.of_nat (Z.to_nat h)) at 1 by lia.
    replace (Z.to_nat (2 * h) - 1)%nat with (2 * Z.to_nat h - 1)%nat by lia.
    apply poly_coeff_half. lia.
  - set (h := Z.max (Model.space_order self / 2) 4).
    assert (Hh : (2 <= h)%Z) by (unfold h; lia).
    apply node_weights_pos; [exact Hh |].
    replace h with (Z.of_nat (Z.to_nat h)) at 1 by lia.
    replace (Z.to_nat (2 * h) - 1)%nat with (2 * Z.to_nat h - 1)%nat by lia.
    apply poly_coeff_integers. lia.
Qed.

End FornbergFacts.

(** The weights of the stencil of any model do not all vanish. *)
Lemma stencil_sum_pos (self : Model.t) :
  0 < Q2R (Sympy.sum_abs (stencil_weights self)).
Proof.
  pose proof (FornbergFacts.stencil_weights_pos self) as H.
  apply Qlt_Rlt in H. now rewrite RMicromega.Q2R_0 in H.
Qed.

(** ** The Courant coefficient *)

Lemma cfl_coeff_stencil (self : Model.t) :
  Model._cfl_coeff self
  = if Model.is_elastic self then
      Ok (0.9 * sqrt (INR (Model.dim self)) / INR (Model.dim self)
          / (Q2R (Sympy.sum_abs (stencil_weights self)) / 2))
    else if Req_dec_T (INR (Model.dim self)
                       * Q2R (Sympy.sum_abs (stencil_weights self))) 0
         then Raise (ZeroDivisionError "float division by zero")
         else Ok (0.9 * sqrt (4 / (INR (Model.dim self)
                                   * Q2R (Sympy.sum_abs (stencil_weights self))))).
Proof.
  unfold Model._cfl_coeff, stencil_weights, stencil_order, stencil_nodes,
    stencil_x0, Model.dim.
  destruct (Model.is_elastic self); reflexivity.
Qed.

(** With at least one axis, the Courant coefficient is a positive
    number. *)
Lemma cfl_coeff_positive (self : Model.t) :
  (0 < Model.dim self)%nat ->
  exists coeff, Model._cfl_coeff self = Ok coeff /\ 0 < coeff.
Proof.
  intros Hdim.
  pose proof (stencil_sum_pos self) as HS.
  apply lt_INR in Hdim. cbn [INR] in Hdim.
  rewrite cfl_coeff_stencil.
  set (S := Q2R (Sympy.sum_abs (stencil_weights self))) in *.
  set (d := INR (Model.dim self)) in *.
  destruct (Model.is_elastic self).
  - eexists. split; [reflexivity |].
    pose proof (sqrt_lt_R0 d Hdim) as Hsq.
    apply Rdiv_lt_0_compat; [| lra].
    apply Rdiv_lt_0_compat; [| lra]. nra.
  - assert (Hden : 0 < d * S) by nra.
    destruct (Req_dec_T (d * S) 0); [lra |].
    eexists. split; [reflexivity |].
    assert (0 < sqrt (4 / (d * S))).
    { apply sqrt_lt_R0, Rdiv_lt_0_compat; lra. }
    lra.
Qed.

(** The stencil of the sample models: space order 8, acoustic. *)
Lemma weights_on_m4_3 :
  (Sympy.sum_abs (Model.fd_w 2 (Model.range (- 4) 4) 0) == 272 # 45)%Q.
Proof. vm_compute. reflexivity. Qed.

Lemma weights_centered_4 :
  (Sympy.sum_abs (Model.fd_w 2 (Spec.centered_nodes 4) 0) == 2048 # 315)%Q.
Proof. vm_compute. reflexivity. Qed.

(** Both lists are the finite-difference weights of the second derivative
    at 0 on their nodes. *)
Lemma weights_on_m4_3_exact :
  Sympy.exact_on_monomials 2 (map inject_Z (Model.range (- 4) 4)) 0
                           (Model.fd_w 2 (Model.range (- 4) 4) 0)
  = true.
Proof. vm_compute. reflexivity. Qed.

Lemma weights_centered_4_exact :
  Sympy.exact_on_monomials 2 (map inject_Z (Spec.centered_nodes 4)) 0
                           (Model.fd_w 2 (Spec.centered_nodes 4) 0)
  = true.
Proof. vm_compute. reflexivity. Qed.

Lemma Q2R_ratio (a : Z) (b : positive) : Q2R (a # b) = IZR a / IZR (Z.pos b).
Proof. reflexivity. Qed.

(** What [_cfl_coeff] computes.  The nodes of the stencil are the [2 h]
    integers [-h, ..., h - 1], with [h = max(space_order // 2, 2)] and the
    first derivative at 1/2 for an elastic model, [h = max(space_order //
    2, 4)] and the second derivative at 0 otherwise.  With [S] the sum of
    the absolute values of the weights, which is positive, the coefficient
    is [0.9 * sqrt(dim) / dim / (S / 2)] for an elastic model and [0.9 *
    sqrt(4 / (dim * S))] otherwise, where a model without a dimension is
    a division by zero. *)
Lemma courant_coefficient (self : Model.t) :
  let dim := INR (Model.dim self) in
  let S := Q2R (Sympy.sum_abs (stencil_weights self)) in
  0 < S
  /\ (Model.is_elastic self = true ->
      stencil_weights self
      = Model.fd_w 1 (Model.range (- Z.max (Model.space_order self / 2) 2)
                                  (Z.max (Model.space_order self / 2) 2))
                   (1 # 2)
      /\ Model._cfl_coeff self = Ok (0.9 * sqrt dim / dim / (S / 2)))
  /\ (Model.is_elastic self = false ->
      stencil_weights self
      = Model.fd_w 2 (Model.range (- Z.max (Model.space_order self / 2) 4)
                                  (Z.max (Model.space_order self / 2) 4))
                   0
      /\ ((0 < Model.dim self)%nat ->
          Model._cfl_coeff self = Ok (0.9 * sqrt (4 / (dim * S))))
      /\ (Model.dim self = 0%nat ->
          Model._cfl_coeff self
          = Raise (ZeroDivisionError "float division by zero")))
  /\ (forall h i,
        (0 <= i < 2 * h)%Z ->
        List.length (Model.range (- h) h) = Z.to_nat (2 * h)
        /\ nth (Z.to_nat i) (Model.range (- h) h) 0%Z = (- h + i)%Z).
Proof.
  cbn zeta. pose proof (stencil_sum_pos self) as HS.
  rewrite cfl_coeff_stencil.
  split; [exact HS | revert HS].
  unfold stencil_weights, stencil_order, stencil_nodes, stencil_x0.
  intros HS. split; [| split].
  - intros ->. split; reflexivity.
  - intros E. rewrite E in HS |- *.
    split; [reflexivity | split]; intros H.
    + apply lt_INR in H. cbn [INR] in H.
      destruct (Req_dec_T _ _) as [E0 | _]; [nra | reflexivity].
    + rewrite H. cbn [INR].
      destruct (Req_dec_T _ _) as [_ | E0]; [reflexivity | lra].
  - intros h i Hi. rewrite range_length, range_nth by lia.
    split; [f_equal; lia | lia].
Qed.

(** The sample objects are what [__init__] builds. *)
Lemma init_acoustic (m : R) (dt : option R) :
  Model.__init__ (Sample.acoustic m dt) = Ok (Sample.acoustic_model m dt).
Proof. reflexivity. Qed.

Lemma init_with_field :
  Model.__init__ Sample.with_field = Ok Sample.field_model.
Proof. reflexivity. Qed.

Lemma sample_spacing : grid_spacing Sample.grid = [10; 10].
Proof. unfold grid_spacing; cbn. repeat f_equal; lra. Qed.

Lemma sample_weights (m : R) (dt : option R) :
  Q2R (Sympy.sum_abs (stencil_weights (Sample.acoustic_model m dt)))
  = 272 / 45.
Proof.
  change (stencil_weights (Sample.acoustic_model m dt))
    with (Model.fd_w 2 (Model.range (- 4) 4) 0).
  rewrite (Qeq_eqR _ _ weights_on_m4_3), Q2R_ratio. reflexivity.
Qed.

Lemma sample_cfl_coeff (m : R) (dt : option R) :
  Model._cfl_coeff (Sample.acoustic_model m dt)
  = Ok (0.9 * sqrt (45 / 136)).
Proof.
  rewrite cfl_coeff_stencil. cbn [Model.is_elastic Model._is_elastic
    Sample.acoustic_model].
  rewrite sample_weights.
  change (INR (Model.dim (Sample.acoustic_model m dt))) with (INR 2).
  destruct (Req_dec_T _ _) as [H | _]; [cbn in H; lra |].
  do 3 f_equal. cbn. field.
Qed.

(** The nodes of the stencil of any model hold [-h] and not [h]. *)
Lemma nodes_one_sided (self : Model.t) :
  let h := Z.max (Model.space_order self / 2)
                 (if Model.is_elastic self then 2 else 4) in
  In (- h)%Z (stencil_nodes self) /\ ~ In h (stencil_nodes self).
Proof.
  cbn zeta. unfold stencil_nodes.
  set (h := Z.max _ _).
  assert (Hh : (2 <= h)%Z) by (unfold h; destruct (Model.is_elastic self); lia).
  unfold Model.range. split.
  - apply in_map_iff. exists 0%nat. split; [cbn; lia |].
    apply in_seq. lia.
  - intros H. apply in_map_iff in H as [i [Hi Hin]].
    apply in_seq in Hin. lia.
Qed.

(** C5 fails in the code.  [_cfl_coeff] takes the nodes of its stencil
    from [range(-so, so)], which stops short of [so]: the stencil is not
    the centered one of half-width [so] that the specification describes.
    For the sample model, of space order 8 in two dimensions and not
    elastic, the nodes are the 8 integers from -4 to 3 and not the 9
    integers from -4 to 4; the weights are those of the centered stencil
    of half-width 3, with weight 0 at the node -4; and the coefficient is
    [0.9 * sqrt(45 / 136)], not the [0.9 * sqrt(315 / 1024)] of the
    centered stencil of half-width 4. *)
Theorem courant_stencil_misses_a_node :
  Model.__init__ (Sample.acoustic 1 None) = Ok (Sample.acoustic_model 1 None)
  /\ Model.is_elastic (Sample.acoustic_model 1 None) = false
  /\ Z.max (Model.space_order (Sample.acoustic_model 1 None) / 2) 4 = 4%Z
  /\ stencil_nodes (Sample.acoustic_model 1 None)
     = [-4; -3; -2; -1; 0; 1; 2; 3]%Z
  /\ Spec.centered_nodes 4 = [-4; -3; -2; -1; 0; 1; 2; 3; 4]%Z
  /\ stencil_weights (Sample.acoustic_model 1 None)
     = 0%Q :: Model.fd_w 2 (Spec.centered_nodes 3) 0
  /\ Model._cfl_coeff (Sample.acoustic_model 1 None)
     = Ok (0.9 * sqrt (45 / 136))
  /\ Spec.courant_acoustic
       (Model.dim (Sample.acoustic_model 1 None))
       (Model.space_order (Sample.acoustic_model 1 None))
     = 0.9 * sqrt (315 / 1024)
  /\ Model._cfl_coeff (Sample.acoustic_model 1 None)
     <> Ok (Spec.courant_acoustic
              (Model.dim (Sample.acoustic_model 1 None))
              (Model.space_order (Sample.acoustic_model 1 None)))
  /\ (forall self : Model.t,
        let h := Z.max (Model.space_order self / 2)
                       (if Model.is_elastic self then 2 else 4) in
        In (- h)%Z (stencil_nodes self) /\ ~ In h (stencil_nodes self)).
Proof.
  assert (Hspec : Spec.courant_acoustic
                    (Model.dim (Sample.acoustic_model 1 None))
                    (Model.space_order (Sample.acoustic_model 1 None))
                  = 0.9 * sqrt (315 / 1024)).
  { unfold Spec.courant_acoustic.
    change (Z.max (Model.space_order (Sample.acoustic_model 1 None) / 2) 4)
      with 4%Z.
    rewrite (Qeq_eqR _ _ weights_centered_4), Q2R_ratio.
    change (INR (Model.dim (Sample.acoustic_model 1 None))) with (INR 2).
    do 2 f_equal. cbn. lra. }
  split; [reflexivity |]. split; [reflexivity |]. split; [reflexivity |].
  split; [reflexivity |]. split; [reflexivity |].
  split; [vm_compute; reflexivity |].
  split; [apply sample_cfl_coeff |].
  split; [exact Hspec |].
  split; [| exact nodes_one_sided].
  rewrite sample_cfl_coeff, Hspec.
  intros H. injection H as H.
  apply Rmult_eq_reg_l in H; [| lra].
  apply sqrt_inj in H; lra.
Qed.

(** ** The time step *)

Lemma critical_dt_steps (self : Model.t) (coeff ts vp : R) :
  Model.spacing self <> [] ->
  Model._cfl_coeff self = Ok coeff ->
  Model._thomsen_scale self = Ok ts ->
  Model._max_vp self = Ok vp ->
  Model.critical_dt self
  = let bound :=
      Model.format_e 3
        (coeff * Numpy.min_list (Model.spacing self) / (ts * vp)) in
    match Model.dt self with
    | Some user =>
        if Req_dec_T user 0 then Ok (bound, [])
        else if Rgt_dec user bound
             then Ok (bound, [Model.dt_too_big user bound])
             else Ok (Model.format_e 3 user, [])
    | None => Ok (bound, [])
    end.
Proof.
  intros Hsp Hc Hts Hvp. unfold Model.critical_dt.
  rewrite Hc, Hts, Hvp. cbn [bind].
  destruct (Model.spacing self); [contradiction | reflexivity].
Qed.




Lemma max_vp_acoustic (self : Model.t) (m : param) :
  Model.is_elastic self = false ->
  Model._m self = Some m ->
  Model._max_vp self = Ok (sqrt (1 / getmin m)).
Proof.
  intros He Hm. unfold Model._max_vp. now rewrite He, Hm.
Qed.


(** The time step of the sample model before formatting. *)
Lemma sample_max_vp (dt : option R) :
  Model._max_vp (Sample.acoustic_model Sample.slowness dt)
  = Ok (sqrt (45 / 136) / 0.1234).
Proof.
  rewrite (max_vp_acoustic _ (Constant "m" Sample.slowness))
    by reflexivity.
  f_equal. cbn [getmin]. unfold Sample.slowness.
  replace (1 / (136 / 45 * (0.1234 * 0.1234)))
    with (45 / 136 * (/ 0.1234 * / 0.1234)) by (field; lra).
  rewrite sqrt_mult by lra.
  rewrite sqrt_square by lra. reflexivity.
Qed.

Lemma sample_raw_dt :
  0.9 * sqrt (45 / 136) * 10 / (1 * (sqrt (45 / 136) / 0.1234)) = 1.1106.
Proof.
  assert (H : 0 < sqrt (45 / 136)) by (apply sqrt_lt_R0; lra).
  field_simplify; lra.
Qed.

Lemma sample_min_spacing (m : R) (dt : option R) :
  Numpy.min_list (Model.spacing (Sample.acoustic_model m dt)) = 10.
Proof.
  unfold Model.spacing. cbn [Model.grid Sample.acoustic_model].
  rewrite sample_spacing. cbn. unfold Rmin.
  destruct (Rle_dec 10 10); reflexivity.
Qed.

Lemma sample_has_spacing (m : R) (dt : option R) :
  Model.spacing (Sample.acoustic_model m dt) <> [].
Proof.
  unfold Model.spacing. cbn [Model.grid Sample.acoustic_model].
  rewrite sample_spacing. discriminate.
Qed.

Lemma pow10_m3 : powerRZ 10 (0 - 3) = / 1000.
Proof. simpl. f_equal. lra. Qed.


Lemma format_3e_sample : Model.format_e 3 1.1106 = 1.111.
Proof.
  rewrite (format_e_eval 3 1.1106 0 1111).
  - change (Z.of_nat 3) with 3%Z. rewrite pow10_m3. lra.
  - lra.
  - simpl. lra.
  - change (Z.of_nat 3) with 3%Z. rewrite pow10_m3. lra.
Qed.





(** C3, as the code has it.  With a user step: a zero step counts as not
    given and the computed bound is returned without a warning; a nonzero
    step above the bound draws one warning and the bound is returned; a
    nonzero step that does not exceed the bound is returned, formatted
    with ["%.3e"] (four significant digits).  In every case the value
    returned does not exceed the bound. *)
Theorem critical_dt_with_user_step (self : Model.t)
    (user coeff scale max_velocity : R) :
  Model.dt self = Some user ->
  Model.spacing self <> [] ->
  Model._cfl_coeff self = Ok coeff ->
  Model._thomsen_scale self = Ok scale ->
  Model._max_vp self = Ok max_velocity ->
  let bound :=
    Model.format_e 3
      (coeff * Numpy.min_list (Model.spacing self)
       / (scale * max_velocity)) in
  (user <> 0 -> user > bound ->
   Model.critical_dt self = Ok (bound, [Model.dt_too_big user bound]))
  /\ (user <> 0 -> user <= bound ->
      Model.critical_dt self = Ok (Model.format_e 3 user, []))
  /\ (user = 0 -> Model.critical_dt self = Ok (bound, []))
  /\ (exists value warnings,
        Model.critical_dt self = Ok (value, warnings)
        /\ value <= bound /\ (List.length warnings <= 1)%nat).
Proof.
  intros Hdt Hsp Hc Hts Hvp.
  rewrite (critical_dt_steps self coeff scale max_velocity Hsp Hc Hts Hvp).
  cbn zeta. rewrite Hdt.
  set (bound := Model.format_e 3 _).
  repeat split.
  - intros Hne Hgt. destruct (Req_dec_T user 0); [contradiction |].
    destruct (Rgt_dec user bound); [reflexivity | contradiction].
  - intros Hne Hle. destruct (Req_dec_T user 0); [contradiction |].
    destruct (Rgt_dec user bound); [lra | reflexivity].
  - intros H0. destruct (Req_dec_T user 0); [reflexivity | contradiction].
  - destruct (Req_dec_T user 0).
    + exists bound, []. repeat split; [lra | cbn; lia].
    + destruct (Rgt_dec user bound) as [Hgt | Hle].
      * exists bound, [Model.dt_too_big user bound].
        repeat split; [lra | cbn; lia].
      * exists (Model.format_e 3 user), []. repeat split; [| cbn; lia].
        unfold bound. rewrite <- (format_e_idempotent 3 (coeff * _ / _)).
        apply format_e_le. fold bound. lra.
Qed.

Lemma sample_user_step (user : R) :
  let self := Sample.acoustic_model Sample.slowness (Some user) in
  let bound := 1.111 in
  (user <> 0 -> user > bound ->
   Model.critical_dt self = Ok (bound, [Model.dt_too_big user bound]))
  /\ (user <> 0 -> user <= bound ->
      Model.critical_dt self = Ok (Model.format_e 3 user, []))
  /\ (user = 0 -> Model.critical_dt self = Ok (bound, []))
  /\ (exists value warnings,
        Model.critical_dt self = Ok (value, warnings)
        /\ value <= bound /\ (List.length warnings <= 1)%nat).
Proof.
  cbn zeta.
  rewrite (critical_dt_steps _ _ 1 _ (sample_has_spacing _ _)
             (sample_cfl_coeff _ _) eq_refl (sample_max_vp (Some user))).
  cbn zeta. cbn [Model.dt Model._dt Sample.acoustic_model].
  rewrite sample_min_spacing, sample_raw_dt, format_3e_sample.
  repeat split.
  - intros Hne Hgt. destruct (Req_dec_T user 0); [contradiction |].
    destruct (Rgt_dec user 1.111); [reflexivity | contradiction].
  - intros Hne Hle. destruct (Req_dec_T user 0); [contradiction |].
    destruct (Rgt_dec user 1.111); [lra | reflexivity].
  - intros H0. destruct (Req_dec_T user 0); [reflexivity | contradiction].
  - destruct (Req_dec_T user 0).
    + exists 1.111, []. repeat split; [lra | cbn; lia].
    + destruct (Rgt_dec user 1.111) as [Hgt | Hle].
      * exists 1.111, [Model.dt_too_big user 1.111].
        repeat split; [lra | cbn; lia].
      * exists (Model.format_e 3 user), []. repeat split; [| cbn; lia].
        pose proof (format_e_idempotent 3 1.1106) as Hid.
        rewrite format_3e_sample in Hid. rewrite <- Hid.
        apply format_e_le. lra.
Qed.

Lemma critical_dt_with_user_step_witness :
  Model.critical_dt (Sample.acoustic_model Sample.slowness (Some 2))
  = Ok (Model.format_e 3
          (0.9 * sqrt (45 / 136)
           * Numpy.min_list
               (Model.spacing
                  (Sample.acoustic_model Sample.slowness (Some 2)))
           / (1 * (sqrt (45 / 136) / 0.1234))),
        [Model.dt_too_big 2
           (Model.format_e 3
              (0.9 * sqrt (45 / 136)
               * Numpy.min_list
                   (Model.spacing
                      (Sample.acoustic_model Sample.slowness (Some 2)))
               / (1 * (sqrt (45 / 136) / 0.1234))))]).
Proof.
  apply (critical_dt_with_user_step
           (Sample.acoustic_model Sample.slowness (Some 2))
           2 (0.9 * sqrt (45 / 136)) 1 (sqrt (45 / 136) / 0.1234)).
  - reflexivity.
  - apply sample_has_spacing.
  - apply sample_cfl_coeff.
  - reflexivity.
  - apply sample_max_vp.
  - lra.
  - rewrite sample_min_spacing, sample_raw_dt, format_3e_sample. lra.
Defined.

Lemma pow10_m4 : powerRZ 10 (-1 - 3) = / 10000.
Proof. simpl. f_equal. lra. Qed.

Lemma format_3e_user : Model.format_e 3 0.5004 = 0.5004.
Proof.
  rewrite (format_e_eval 3 0.5004 (-1) 5004).
  - change (Z.of_nat 3) with 3%Z. rewrite pow10_m4. lra.
  - lra.
  - simpl. lra.
  - change (Z.of_nat 3) with 3%Z. rewrite pow10_m4. lra.
Qed.

Lemma round_3_user : Spec.round_significant 3 0.5004 = 0.5.
Proof.
  unfold Spec.round_significant. cbn [Nat.sub].
  rewrite (format_e_eval 2 0.5004 (-1) 500).
  - change (Z.of_nat 2) with 2%Z. change (-1 - 2)%Z with (0 - 3)%Z.
    rewrite pow10_m3. lra.
  - lra.
  - simpl. lra.
  - change (Z.of_nat 2) with 2%Z. change (-1 - 2)%Z with (0 - 3)%Z.
    rewrite pow10_m3. lra.
Qed.

(** C3 as stated fails twice on the sample model, whose bound is 1.111:
    the user step 0.5004, below the bound, is returned as it is and not
    as 0.5, its rounding to 3 significant digits; and the user step 0,
    below the bound too, is not returned: the bound is. *)
Lemma critical_dt_user_step_is_not_three_digits :
  (Model.__init__ (Sample.acoustic Sample.slowness (Some 0.5004))
   = Ok (Sample.acoustic_model Sample.slowness (Some 0.5004))
   /\ 0.5004 <= 1.111
   /\ Model.critical_dt (Sample.acoustic_model Sample.slowness (Some 0.5004))
      <> Ok (Spec.round_significant 3 0.5004, []))
  /\ (Model.__init__ (Sample.acoustic Sample.slowness (Some 0))
      = Ok (Sample.acoustic_model Sample.slowness (Some 0))
      /\ 0 <= 1.111
      /\ Model.critical_dt (Sample.acoustic_model Sample.slowness (Some 0))
         <> Ok (Spec.round_significant 3 0, [])).
Proof.
  split; (split; [reflexivity | split; [lra |]]).
  - destruct (sample_user_step 0.5004) as (_ & H & _).
    rewrite H by lra. rewrite format_3e_user, round_3_user.
    intros E. injection E as E. lra.
  - destruct (sample_user_step 0) as (_ & _ & H & _).
    rewrite H by reflexivity.
    unfold Spec.round_significant. rewrite format_e_0.
    intros E. injection E as E. lra.
Qed.

Lemma min_list_pos (l : list R) :
  l <> [] -> (forall h, In h l -> 0 < h) -> 0 < Numpy.min_list l.
Proof.
  destruct l as [| x xs]; [contradiction |]. intros _ Hpos.
  unfold Numpy.min_list.
  assert (Hx : 0 < x) by (apply Hpos; now left).
  assert (Hxs : forall h, In h xs -> 0 < h) by (intros h Hh; apply Hpos; now right).
  clear Hpos. revert x Hx.
  induction xs as [| y ys IH]; intros x Hx; [exact Hx |].
  cbn [fold_left]. apply IH.
  - intros h Hh. apply Hxs. now right.
  - unfold Rmin. destruct (Rle_dec x y); [exact Hx | apply Hxs; now left].
Qed.

Lemma cfl_coeff_same (slow fast : Model.t) :
  Model.grid fast = Model.grid slow ->
  Model.space_order fast = Model.space_order slow ->
  Model.is_elastic fast = Model.is_elastic slow ->
  Model._cfl_coeff fast = Model._cfl_coeff slow.
Proof.
  intros Hg Hso He. unfold Model._cfl_coeff, Model.dim.
  now rewrite Hg, Hso, He.
Qed.

(** C8, as the code has it.  For a model with at least one axis,
    positive spacings, a positive anisotropy scale, a positive maximum
    velocity and no user step or a positive one, the time step is strictly
    positive; and of two such models that differ in their maximum velocity
    only, the faster has the smaller or the same time step. *)
Theorem critical_dt_positive_and_antitone (slow fast : Model.t)
    (scale v_slow v_fast : R) :
  (0 < Model.dim slow)%nat ->
  Model.spacing slow <> [] ->
  (forall h, In h (Model.spacing slow) -> 0 < h) ->
  match Model.dt slow with Some user => 0 < user | None => True end ->
  Model.grid fast = Model.grid slow ->
  Model.space_order fast = Model.space_order slow ->
  Model.is_elastic fast = Model.is_elastic slow ->
  Model.dt fast = Model.dt slow ->
  Model._thomsen_scale slow = Ok scale ->
  Model._thomsen_scale fast = Ok scale ->
  0 < scale ->
  Model._max_vp slow = Ok v_slow ->
  Model._max_vp fast = Ok v_fast ->
  0 < v_slow <= v_fast ->
  exists dt_slow w_slow dt_fast w_fast,
    Model.critical_dt slow = Ok (dt_slow, w_slow)
    /\ Model.critical_dt fast = Ok (dt_fast, w_fast)
    /\ 0 < dt_slow /\ 0 < dt_fast /\ dt_fast <= dt_slow.
Proof.
  intros Hdim Hsp Hpos Huser Hgrid Hso Hel Hdt Hts Htf Hscale
    Hvs Hvf [Hv0 Hv].
  destruct (cfl_coeff_positive slow Hdim) as (coeff & Hc & Hcoeff).
  pose proof (cfl_coeff_same slow fast Hgrid Hso Hel) as Hcf.
  rewrite Hc in Hcf.
  assert (Hspf : Model.spacing fast = Model.spacing slow)
    by (unfold Model.spacing; now rewrite Hgrid).
  pose proof (min_list_pos _ Hsp Hpos) as Hh.
  rewrite (critical_dt_steps slow coeff scale v_slow Hsp Hc Hts Hvs).
  rewrite (critical_dt_steps fast coeff scale v_fast
             ltac:(now rewrite Hspf) Hcf Htf Hvf).
  cbn zeta. rewrite Hspf, Hdt.
  set (h := Numpy.min_list (Model.spacing slow)) in *.
  assert (Hraw_f : 0 < coeff * h / (scale * v_fast)).
  { apply Rdiv_lt_0_compat; nra. }
  assert (Hraw : coeff * h / (scale * v_fast)
                 <= coeff * h / (scale * v_slow)).
  { unfold Rdiv. apply Rmult_le_compat_l; [nra |].
    apply Rinv_le_contravar; nra. }
  pose proof (format_e_pos 3 _ Hraw_f) as Hbf.
  pose proof (format_e_le 3 _ _ Hraw) as Hb.
  pose proof (format_e_idempotent 3 (coeff * h / (scale * v_fast))) as Hid.
  set (b_slow := Model.format_e 3 (coeff * h / (scale * v_slow))) in *.
  set (b_fast := Model.format_e 3 (coeff * h / (scale * v_fast))) in *.
  destruct (Model.dt slow) as [user |].
  - destruct (Req_dec_T user 0); [lra |].
    pose proof (format_e_pos 3 user Huser) as Hu.
    destruct (Rgt_dec user b_slow) as [Hs | Hs],
             (Rgt_dec user b_fast) as [Hf | Hf];
      do 4 eexists; repeat split; try reflexivity; try lra.
    rewrite <- Hid. apply format_e_le. lra.
  - do 4 eexists; repeat split; try reflexivity; lra.
Qed.

Lemma slowness_pos : 0 < Sample.slowness.
Proof. unfold Sample.slowness. lra. Qed.

Lemma critical_dt_positive_and_antitone_witness :
  exists dt_slow w_slow dt_fast w_fast,
    Model.critical_dt (Sample.acoustic_model Sample.slowness None)
    = Ok (dt_slow, w_slow)
    /\ Model.critical_dt (Sample.acoustic_model (Sample.slowness / 4) None)
       = Ok (dt_fast, w_fast)
    /\ 0 < dt_slow /\ 0 < dt_fast /\ dt_fast <= dt_slow.
Proof.
  pose proof slowness_pos as Hm.
  apply (critical_dt_positive_and_antitone
           (Sample.acoustic_model Sample.slowness None)
           (Sample.acoustic_model (Sample.slowness / 4) None)
           1 (sqrt (1 / Sample.slowness))
           (sqrt (1 / (Sample.slowness / 4)))).
  - cbn. lia.
  - apply sample_has_spacing.
  - unfold Model.spacing. cbn [Model.grid Sample.acoustic_model].
    rewrite sample_spacing. intros h [<- | [<- | []]]; lra.
  - exact I.
  - reflexivity.
  - reflexivity.
  - reflexivity.
  - reflexivity.
  - reflexivity.
  - reflexivity.
  - lra.
  - reflexivity.
  - reflexivity.
  - split.
    + apply sqrt_lt_R0, Rdiv_lt_0_compat; lra.
    + apply sqrt_le_1_alt.
      unfold Rdiv. rewrite !Rmult_1_l.
      apply Rinv_le_contravar; lra.
Defined.

Lemma format_3e_one : Model.format_e 3 1 = 1.
Proof.
  rewrite (format_e_eval 3 1 0 1000).
  - change (Z.of_nat 3) with 3%Z. rewrite pow10_m3. lra.
  - lra.
  - simpl. lra.
  - change (Z.of_nat 3) with 3%Z. rewrite pow10_m3. lra.
Qed.

(** C8 as stated fails: a negative user step is below the bound, so it is
    returned, and the time step of the sample model with the user step -1
    is -1, which is not positive. *)
Lemma critical_dt_of_a_negative_user_step :
  Model.__init__ (Sample.acoustic Sample.slowness (Some (-1)))
  = Ok (Sample.acoustic_model Sample.slowness (Some (-1)))
  /\ Model.critical_dt (Sample.acoustic_model Sample.slowness (Some (-1)))
     = Ok (-1, [])
  /\ ~ 0 < -1.
Proof.
  split; [reflexivity |]. split; [| lra].
  destruct (sample_user_step (-1)) as (_ & H & _).
  rewrite H by lra.
  change (IZR (-1)) with (- IZR 1).
  now rewrite format_e_opp, format_3e_one.
Qed.

(** ** The anisotropy scale *)

(** For a model built from a scalar Thomsen parameter [e], [epsilon] holds
    [1 + 2 * e] and [_thomsen_scale] applies [1 + 2 * .] to it again,
    while the attribute [scale] is [sqrt(1 + 2 * e)]. *)
Lemma thomsen_scale_of_scalar (a : Model.args) (self : Model.t) (e : R) :
  Model.__init__ a = Ok self ->
  Model.arg_epsilon a = Some (Scalar e) ->
  Model._thomsen_scale self = Ok (sqrt (1 + 2 * (1 + 2 * e)))
  /\ Model.scale self = sqrt (1 + 2 * e).
Proof.
  intros Hinit He.
  destruct (init_epsilon_scalar a self e Hinit He) as (Htti & Heps & Hscale).
  split; [| exact Hscale].
  unfold Model._thomsen_scale, Model.is_tti. now rewrite Htti, Heps.
Qed.

Lemma thomsen_scale_not_tti (self : Model.t) :
  Model.is_tti self = false -> Model._thomsen_scale self = Ok 1.
Proof. intros H. unfold Model._thomsen_scale. now rewrite H. Qed.

(** C4 fails in the code.  For the TTI model built with [epsilon = 0], the
    physical Thomsen correction [sqrt(1 + 2 * 0)] is 1, and so is the
    attribute [scale]; [_thomsen_scale], which [critical_dt] divides by,
    is [sqrt 3]. *)
Theorem thomsen_scale_at_zero_epsilon :
  exists self,
    Model.__init__ (Sample.tti 0) = Ok self
    /\ Model.is_tti self = true
    /\ Model.epsilon self = Some (Constant "epsilon" (1 + 2 * 0))
    /\ Model._thomsen_scale self = Ok (sqrt 3)
    /\ sqrt 3 <> sqrt (1 + 2 * 0)
    /\ Model.scale self = sqrt (1 + 2 * 0).
Proof.
  destruct (Model.__init__ (Sample.tti 0)) as [self | e] eqn:Hinit;
    [| discriminate Hinit].
  exists self. split; [reflexivity |].
  destruct (init_epsilon_scalar _ self 0 Hinit eq_refl) as (Htti & Heps & _).
  destruct (thomsen_scale_of_scalar _ self 0 Hinit eq_refl) as (Hts & Hsc).
  repeat split; try assumption.
  - rewrite Hts. do 2 f_equal. lra.
  - intros H. apply sqrt_inj in H; lra.
Qed.

(** ** The setters *)

Lemma shape_eqb_eq (s t : list Z) : shape_eqb s t = true <-> s = t.
Proof.
  unfold shape_eqb. destruct (list_eq_dec Z.eq_dec s t); split;
    congruence.
Qed.

Lemma shape_eqb_neq (s t : list Z) : shape_eqb s t = false <-> s <> t.
Proof.
  unfold shape_eqb. destruct (list_eq_dec Z.eq_dec s t); split;
    congruence.
Qed.

Lemma broadcastable_rev_refl (s : list Z) :
  Numpy.broadcastable_rev s s = true.
Proof.
  induction s as [| x s IH]; [reflexivity |].
  cbn. now rewrite Z.eqb_refl, IH.
Qed.

Lemma assign_data_same_shape (a : ndarray) :
  assign_data (nd_shape a) a = Ok (Numpy.broadcast_to a (nd_shape a)).
Proof.
  unfold assign_data, Numpy.broadcastable.
  now rewrite broadcastable_rev_refl.
Qed.

(** The message of the rejection never is a value: formatting ends in an
    exception of one class or the other. *)
Lemma rejection_raises (new_shape shape field_shape : list Z) :
  exists e,
    (msg <- incorrect_size_message new_shape shape field_shape ;;
     @Raise Model.t (ValueError msg)) = Raise e.
Proof.
  unfold incorrect_size_message, format_one.
  destruct new_shape as [| x [| y rest]]; cbn [bind]; eexists; reflexivity.
Qed.

(** C9, as the code has it.  When [m] is a field, the setter of [m]
    accepts an array of the shape of the field or of the unpadded shape of
    the model, and raises an exception for an array of any other shape,
    before any write: the object is left as it was.  The setter of [dm]
    does the same when [dm] is a field already; when it is not, an array
    of any shape is handed to the construction of a new field, which
    takes it if it has the unpadded shape or broadcasts to the shape of
    the grid. *)
Theorem setters_check_the_shape :
  (forall self name data m,
      Model._m self = Some (Function name data) ->
      (nd_shape m = nd_shape data \/ nd_shape m = Model.shape self ->
       exists self', Model.m_setter self m = (self', None))
      /\ (nd_shape m <> nd_shape data -> nd_shape m <> Model.shape self ->
          exists e, Model.m_setter self m = (self, Some e)))
  /\ (forall self name data dm,
         Model._dm self = Function name data ->
         (nd_shape dm = nd_shape data \/ nd_shape dm = Model.shape self ->
          exists self', Model.dm_setter self dm = (self', None))
         /\ (nd_shape dm <> nd_shape data ->
             nd_shape dm <> Model.shape self ->
             exists e, Model.dm_setter self dm = (self, Some e)))
  /\ (forall self dm,
         is_Function (Model._dm self) = false ->
         nd_shape dm = Model.shape self
         \/ Numpy.broadcastable (nd_shape dm) (grid_shape (Model.grid self))
            = true ->
         exists self',
           Model.dm_setter self dm = (self', None)
           /\ is_Function (Model._dm self') = true).
Proof.
  split; [| split].
  - intros self name data m Hm. unfold Model.m_setter.
    rewrite Hm. cbn [Model.attr bind Model.shape_of]. split.
    + intros Hshape.
      destruct (shape_eqb (nd_shape m) (nd_shape data)) eqn:E1.
      * apply shape_eqb_eq in E1. cbn [Model.write_data].
        rewrite <- E1, assign_data_same_shape. cbn. eexists; reflexivity.
      * destruct Hshape as [H | H]; [apply shape_eqb_neq in E1; contradiction |].
        apply shape_eqb_eq in H. rewrite H. cbn. eexists; reflexivity.
    + intros H1 H2.
      apply shape_eqb_neq in H1, H2. rewrite H1, H2.
      destruct (rejection_raises (nd_shape m) (Model.shape self)
                  (nd_shape data)) as [e He].
      rewrite He. cbn. eexists; reflexivity.
  - intros self name data dm Hdm. unfold Model.dm_setter.
    rewrite Hdm. cbn [is_Function negb Model.shape_of bind]. split.
    + intros Hshape.
      destruct (shape_eqb (nd_shape dm) (Model.shape self)) eqn:E1.
      * cbn. eexists; reflexivity.
      * destruct Hshape as [H | H];
          [| apply shape_eqb_neq in E1; contradiction].
        pose proof H as H'. apply shape_eqb_eq in H'. rewrite H'.
        cbn [Model.write_data].
        rewrite <- H, assign_data_same_shape. cbn. eexists; reflexivity.
    + intros H1 H2.
      apply shape_eqb_neq in H1, H2. rewrite H1, H2.
      destruct (rejection_raises (nd_shape dm) (Model.shape self)
                  (nd_shape data)) as [e He].
      rewrite He. cbn. eexists; reflexivity.
  - intros self dm Hnot Hshape. unfold Model.dm_setter.
    rewrite Hnot. cbn [negb]. unfold Model._gen_phys_param.
    destruct (shape_eqb (nd_shape dm) (Model.shape self)) eqn:E1.
    + cbn. eexists; split; reflexivity.
    + destruct Hshape as [H | H];
        [apply shape_eqb_neq in E1; contradiction |].
      unfold assign_data. rewrite H. cbn. eexists; split; reflexivity.
Qed.

Lemma setters_check_the_shape_witness :
  (exists self',
      Model.m_setter Sample.field_model (Sample.ones [3; 3]%Z) = (self', None))
  /\ (exists e,
         Model.m_setter Sample.field_model (Sample.ones [5%Z])
         = (Sample.field_model, Some e)).
Proof.
  destruct setters_check_the_shape as (Hm & _).
  destruct (Hm Sample.field_model "m"%string
              (initialize_function Sample.grid (Sample.ones [3; 3]%Z)
                                   [(4, 4); (4, 4)]%Z)
              (Sample.ones [3; 3]%Z) eq_refl) as [Hok _].
  destruct (Hm Sample.field_model "m"%string
              (initialize_function Sample.grid (Sample.ones [3; 3]%Z)
                                   [(4, 4); (4, 4)]%Z)
              (Sample.ones [5%Z]) eq_refl) as [_ Hbad].
  split.
  - apply Hok. right. reflexivity.
  - apply Hbad; discriminate.
Defined.

(** C9 as stated fails: the sample model has no [dm] field, and its setter
    of [dm] takes a 1 by 1 array, which has neither the unpadded shape 3
    by 3 nor the padded shape 11 by 11, without an error. *)
Lemma dm_setter_takes_another_shape :
  Model.__init__ (Sample.acoustic 1 None) = Ok (Sample.acoustic_model 1 None)
  /\ nd_shape (Sample.ones [1; 1]%Z)
     <> Model.shape (Sample.acoustic_model 1 None)
  /\ nd_shape (Sample.ones [1; 1]%Z)
     <> grid_shape (Model.grid (Sample.acoustic_model 1 None))
  /\ snd (Model.dm_setter (Sample.acoustic_model 1 None)
                          (Sample.ones [1; 1]%Z))
     = None.
Proof.
  split; [reflexivity |].
  repeat split; cbn; discriminate || reflexivity.
Qed.

(** The rejection of the setter of [m], on the sample model with a field:
    a one-dimensional array is rejected with the documented message, an
    array of two dimensions with the [TypeError] of the formatting of that
    message. *)
Lemma m_setter_rejection_message :
  Model.__init__ Sample.with_field = Ok Sample.field_model
  /\ Model.m_setter Sample.field_model (Sample.ones [5%Z])
  = (Sample.field_model,
     Some (ValueError
             "Incorrect input size 5 for model of size (3, 3) without or (11, 11) with padding"))
  /\ Model.m_setter Sample.field_model (Sample.ones [2; 2]%Z)
     = (Sample.field_model,
        Some (TypeError
                "not all arguments converted during string formatting")).
Proof. repeat split; reflexivity. Qed.

(** * Further properties *)

(** ** [utils.py] *)

(** X1.  [compute_optalpha] never returns a negative step length when
    the norm of the residual is not negative, whatever the noise level and
    the norm of the adjoint wavefield are: it is the quotient of two
    positive numbers, 0 or 1. *)
Theorem optimal_alpha_is_never_negative (norm_r norm_Fty epsilon : R)
    (comp_alpha : bool) :
  0 <= norm_r ->
  0 <= Utils.compute_optalpha norm_r norm_Fty epsilon comp_alpha.
Proof.
  intros Hr. unfold Utils.compute_optalpha.
  destruct comp_alpha; [| lra].
  destruct (Rgt_dec norm_r epsilon) as [Hgt |]; [| lra].
  destruct (Rgt_dec norm_Fty 0) as [Hf |]; [| lra].
  apply Rmult_le_pos.
  - apply Rmult_le_pos; lra.
  - left. apply Rinv_0_lt_compat. lra.
Qed.

Lemma optimal_alpha_is_never_negative_witness :
  0 <= Utils.compute_optalpha 2 4 1 true.
Proof. apply (optimal_alpha_is_never_negative 2 4 1 true). lra. Defined.

Lemma dict_get_set {V : Type} (d : dict V) (k k' : string) (v : V) :
  dict_get (dict_set k v d) k'
  = if String.eqb k' k then Some v else dict_get d k'.
Proof.
  induction d as [| [k0 v0] rest IH]; simpl.
  - reflexivity.
  - destruct (String.eqb k k0) eqn:E; simpl.
    + apply String.eqb_eq in E; subst k0.
      destruct (String.eqb k' k); reflexivity.
    + rewrite IH. destruct (String.eqb k' k0) eqn:E0; [| reflexivity].
      apply String.eqb_eq in E0; subst k0.
      destruct (String.eqb k' k) eqn:E1; [| reflexivity].
      apply String.eqb_eq in E1; subst k'.
      rewrite String.eqb_refl in E. discriminate.
Qed.

Lemma last_named_app (l1 l2 : list Utils.object) (k : string) :
  last_named (l1 ++ l2) k = or_else (last_named l2 k) (last_named l1 k).
Proof.
  unfold last_named. rewrite rev_app_distr.
  induction (rev l2) as [| o rest IH]; simpl.
  - reflexivity.
  - destruct (String.eqb k (Utils.name o)); [reflexivity | exact IH].
Qed.

Lemma or_else_assoc {A : Type} (x y z : option A) :
  or_else x (or_else y z) = or_else (or_else x y) z.
Proof. destruct x; reflexivity. Qed.

(** A dictionary comprehension over objects, keyed by name. *)
Lemma dict_get_by_name (objects : list Utils.object) (d : dict Utils.object)
    (k : string) :
  dict_get (fold_left (fun acc f => dict_set (Utils.name f) f acc) objects d) k
  = or_else (last_named objects k) (dict_get d k).
Proof.
  revert d. induction objects as [| o rest IH]; intros d; simpl.
  - reflexivity.
  - rewrite IH, dict_get_set.
    change (o :: rest) with ([o] ++ rest).
    rewrite last_named_app, <- or_else_assoc. f_equal.
    unfold last_named; simpl.
    destruct (String.eqb k (Utils.name o)); reflexivity.
Qed.

Lemma dict_get_update {V : Type} (other d : dict V) (k : string) :
  dict_get (dict_update d other) k
  = or_else (dict_get (dict_update [] other) k) (dict_get d k).
Proof.
  unfold dict_update.
  set (step := fun (acc : dict V) '(k, v) => dict_set k v acc).
  revert d. induction other as [| [k0 v0] rest IH]; intros d; simpl.
  - reflexivity.
  - rewrite IH, (IH [(k0, v0)]). simpl.
    rewrite dict_get_set.
    destruct (dict_get (fold_left step rest []) k); [reflexivity |].
    simpl. destruct (String.eqb k k0); reflexivity.
Qed.

Lemma dict_get_absent {V : Type} (d : dict V) (k : string) :
  ~ In k (keys d) -> dict_get d k = None.
Proof.
  induction d as [| [k0 v0] rest IH]; simpl; intros H.
  - reflexivity.
  - destruct (String.eqb k k0) eqn:E.
    + apply String.eqb_eq in E. subst. tauto.
    + apply IH. tauto.
Qed.

Lemma dict_set_keys {V : Type} (d : dict V) (k k' : string) (v : V) :
  In k' (keys (dict_set k v d)) <-> k' = k \/ In k' (keys d).
Proof.
  induction d as [| [k0 v0] rest IH]; simpl.
  - intuition.
  - destruct (String.eqb k k0) eqn:E; simpl.
    + apply String.eqb_eq in E. subst. intuition.
    + rewrite IH. intuition.
Qed.

Lemma dict_set_NoDup {V : Type} (d : dict V) (k : string) (v : V) :
  NoDup (keys d) -> NoDup (keys (dict_set k v d)).
Proof.
  induction d as [| [k0 v0] rest IH]; simpl; intros H.
  - constructor; [intros [] | constructor].
  - inversion H as [| ? ? Hnot Hrest]; subst.
    destruct (String.eqb k k0) eqn:E; simpl.
    + apply String.eqb_eq in E. subst. now constructor.
    + constructor; [| now apply IH].
      fold (keys (dict_set k v rest)). rewrite dict_set_keys.
      intros [-> | Hin]; [| contradiction].
      rewrite String.eqb_refl in E. discriminate.
Qed.

Lemma dict_update_NoDup {V : Type} (other d : dict V) :
  NoDup (keys d) -> NoDup (keys (dict_update d other)).
Proof.
  unfold dict_update. revert d.
  induction other as [| [k0 v0] rest IH]; intros d H; simpl.
  - exact H.
  - apply IH. now apply dict_set_NoDup.
Qed.

(** Updating the empty dictionary with a dictionary copies it. *)
Lemma dict_get_copy {V : Type} (d : dict V) (k : string) :
  NoDup (keys d) -> dict_get (dict_update [] d) k = dict_get d k.
Proof.
  induction d as [| [k0 v0] rest IH]; intros H.
  - reflexivity.
  - inversion H as [| ? ? Hnot Hrest]; subst.
    change (dict_update [] ((k0, v0) :: rest))
      with (dict_update [(k0, v0)] rest).
    rewrite dict_get_update, IH by assumption. simpl.
    destruct (String.eqb k k0) eqn:E.
    + apply String.eqb_eq in E. subst.
      now rewrite dict_get_absent.
    + destruct (dict_get rest k); reflexivity.
Qed.

Lemma fields_kwargs_loop_NoDup (f : Utils.field) (kw : dict Utils.object) :
  NoDup (keys kw) -> NoDup (keys (Utils.fields_kwargs_loop kw f)).
Proof.
  destruct f; cbn [Utils.fields_kwargs_loop]; intros H;
    [exact H | now apply dict_update_NoDup ..].
Qed.

Lemma fields_kwargs_NoDup (items : list Utils.field) :
  forall kw : dict Utils.object,
    NoDup (keys kw) ->
    NoDup (keys (fold_left Utils.fields_kwargs_loop items kw)).
Proof.
  induction items as [| f rest IH]; intros kw H; simpl.
  - exact H.
  - apply IH. now apply fields_kwargs_loop_NoDup.
Qed.

Lemma by_name_NoDup (objects : list Utils.object) :
  forall d : dict Utils.object,
    NoDup (keys d) ->
    NoDup (keys (fold_left (fun acc f => dict_set (Utils.name f) f acc)
                           objects d)).
Proof.
  induction objects as [| o rest IH]; intros d H; simpl.
  - exact H.
  - apply IH. now apply dict_set_NoDup.
Qed.

Lemma field_induction (P : Utils.field -> Prop) :
  P Utils.PyNone ->
  (forall items, Forall P items -> P (Utils.Iterable items)) ->
  (forall o flat, P (Utils.Tensor o flat)) ->
  (forall o, P (Utils.Plain o)) ->
  forall f, P f.
Proof.
  intros HN HI HT HP.
  fix IH 1. intros [| items | o flat | o].
  - exact HN.
  - apply HI. induction items as [| x rest IHl]; constructor.
    + apply IH.
    + exact IHl.
  - apply HT.
  - apply HP.
Qed.

Lemma fields_kwargs_loop_get (f : Utils.field) :
  forall (kw : dict Utils.object) (k : string),
    dict_get (Utils.fields_kwargs_loop kw f) k
    = or_else (last_named (leaves f) k) (dict_get kw k).
Proof.
  induction f as [| items IH | o flat | o] using field_induction; intros kw k.
  - reflexivity.
  - cbn [Utils.fields_kwargs_loop leaves].
    rewrite dict_get_update. f_equal.
    rewrite dict_get_copy by (apply fields_kwargs_NoDup; constructor).
    assert (G : forall acc,
               dict_get (fold_left Utils.fields_kwargs_loop items acc) k
               = or_else (last_named (flat_map leaves items) k)
                         (dict_get acc k)).
    { induction IH as [| x rest Hx _ IHrest]; intros acc; simpl.
      - reflexivity.
      - rewrite IHrest, Hx, last_named_app, or_else_assoc. reflexivity. }
    rewrite G. simpl. destruct (last_named _ k); reflexivity.
  - cbn [Utils.fields_kwargs_loop leaves].
    rewrite dict_get_update. f_equal.
    rewrite dict_get_copy by (apply by_name_NoDup; constructor).
    rewrite dict_get_by_name. simpl.
    destruct (last_named _ k); reflexivity.
  - cbn [Utils.fields_kwargs_loop leaves].
    rewrite dict_get_update. reflexivity.
Qed.

Lemma fields_kwargs_get (args : list Utils.field) :
  forall (kw : dict Utils.object) (k : string),
    dict_get (fold_left Utils.fields_kwargs_loop args kw) k
    = or_else (last_named (flat_map leaves args) k) (dict_get kw k).
Proof.
  induction args as [| f rest IH]; intros kw k; simpl.
  - reflexivity.
  - rewrite IH, fields_kwargs_loop_get, last_named_app, or_else_assoc.
    reflexivity.
Qed.

(** X2.  The dictionary [fields_kwargs] returns maps every name to the
    last object of that name among the objects its arguments hold, read
    from left to right through nested iterables and the components of
    tensors; [None] arguments add nothing, and a name no object bears is
    not a key. *)
Theorem fields_kwargs_keeps_the_last_of_a_name (args : list Utils.field)
    (k : string) :
  dict_get (Utils.fields_kwargs args) k
  = last_named (flat_map leaves args) k.
Proof.
  unfold Utils.fields_kwargs. rewrite fields_kwargs_get. simpl.
  now destruct (last_named _ k).
Qed.

(** X3.  Passing an iterable of fields to [fields_kwargs] gives the same
    dictionary as passing its items in its place. *)
Theorem fields_kwargs_ignores_nesting (before items after : list Utils.field)
    (k : string) :
  dict_get (Utils.fields_kwargs (before ++ Utils.Iterable items :: after)) k
  = dict_get (Utils.fields_kwargs (before ++ items ++ after)) k.
Proof.
  unfold Utils.fields_kwargs. rewrite !fields_kwargs_get.
  rewrite !flat_map_app. reflexivity.
Qed.

(** The index tuples of a shape. *)
Lemma In_indices (shape idx : list Z) :
  In idx (Numpy.indices shape)
  <-> Forall2 (fun n i => (0 <= i < n)%Z) shape idx.
Proof.
  revert idx. induction shape as [| n rest IH]; intros idx; simpl.
  - split.
    + intros [<- | []]. constructor.
    + intros H. inversion H. now left.
  - rewrite in_flat_map. split.
    + intros [k [Hk Hin]]. apply in_seq in Hk.
      apply in_map_iff in Hin as [tl [<- Htl]].
      constructor; [lia | now apply IH].
    + intros H. inversion H as [| ? i ? tl Hi Htl]; subst.
      exists (Z.to_nat i). split.
      * apply in_seq. lia.
      * apply in_map_iff. exists tl. split.
        -- f_equal. lia.
        -- now apply IH.
Qed.

Lemma broadcast_shapes_same (s : list Z) : Numpy.broadcast_shapes s s = Some s.
Proof.
  induction s as [| x rest IH]; simpl.
  - reflexivity.
  - now rewrite IH, Z.eqb_refl.
Qed.

Lemma broadcast_item_in_range (a : ndarray) (idx : list Z) :
  In idx (Numpy.indices (nd_shape a)) ->
  Numpy.broadcast_item a idx = nd_data a idx.
Proof.
  intros H. apply In_indices in H. unfold Numpy.broadcast_item. f_equal.
  induction H as [| n i shape tl Hi _ IH]; simpl.
  - reflexivity.
  - rewrite IH. destruct (Z.eqb_spec n 1); [| reflexivity].
    f_equal. lia.
Qed.

Lemma sum_map_ext {A : Type} (f g : A -> R) (l : list A) :
  (forall x, In x l -> f x = g x) ->
  Numpy.sum (map f l) = Numpy.sum (map g l).
Proof.
  intros H. f_equal. apply map_ext_in. exact H.
Qed.

Lemma sum_squares_nonneg {A : Type} (f : A -> R) (l : list A) :
  0 <= Numpy.sum (map (fun x => f x * f x) l).
Proof.
  induction l as [| x rest IH]; simpl.
  - lra.
  - pose proof (Rle_0_sqr (f x)) as H. unfold Rsqr in H. lra.
Qed.

Lemma cauchy_schwarz {A : Type} (f g : A -> R) (l : list A) :
  Numpy.sum (map (fun x => f x * g x) l)
  * Numpy.sum (map (fun x => f x * g x) l)
  <= Numpy.sum (map (fun x => f x * f x) l)
     * Numpy.sum (map (fun x => g x * g x) l).
Proof.
  induction l as [| x rest IH]; simpl.
  - lra.
  - pose proof (sum_squares_nonneg f rest) as Hf.
    pose proof (sum_squares_nonneg g rest) as Hg.
    set (C := Numpy.sum (map (fun x => f x * g x) rest)) in *.
    set (A' := Numpy.sum (map (fun x => f x * f x) rest)) in *.
    set (B := Numpy.sum (map (fun x => g x * g x) rest)) in *.
    assert (H2 : 2 * (f x * g x) * C <= f x * f x * B + g x * g x * A').
    { destruct (Rle_lt_dec (2 * (f x * g x) * C)
                           (f x * f x * B + g x * g x * A')) as [| Hlt];
        [assumption | exfalso].
      assert (H0 : 0 <= f x * f x * B + g x * g x * A').
      { pose proof (Rle_0_sqr (f x)) as H1. pose proof (Rle_0_sqr (g x)) as H3.
        unfold Rsqr in *. nra. }
      assert (Hsq : (f x * f x * B + g x * g x * A')
                    * (f x * f x * B + g x * g x * A')
                    < (2 * (f x * g x) * C) * (2 * (f x * g x) * C)) by nra.
      assert (H4 : 4 * (f x * f x) * (g x * g x) * (C * C)
                   <= 4 * (f x * f x) * (g x * g x) * (A' * B)).
      { apply Rmult_le_compat_l; [| exact IH].
        pose proof (Rle_0_sqr (f x * g x)) as H1. unfold Rsqr in H1. nra. }
      pose proof (Rle_0_sqr (f x * f x * B - g x * g x * A')) as H5.
      unfold Rsqr in H5. nra. }
    nra.
Qed.

Lemma inds_length (n : nat) :
  String.length (substring 0 n "ijklm") = Nat.min n 5.
Proof. do 6 (destruct n as [| n]; [reflexivity |]). reflexivity. Qed.

(** X4.  On two arrays of one shape with at most five axes, [npdot] is
    the sum over all indices of the products of the items; it is
    symmetric, not negative on an array and itself, and satisfies the
    Cauchy-Schwarz inequality. *)
Theorem npdot_is_an_inner_product (a b : ndarray) :
  nd_shape a = nd_shape b ->
  (List.length (nd_shape a) <= 5)%nat ->
  let dot (x y : ndarray) : R :=
    Numpy.sum (map (fun i => nd_data x i * nd_data y i)
                   (Numpy.indices (nd_shape a))) in
  Utils.npdot a b = Ok (dot a b)
  /\ Utils.npdot b a = Ok (dot a b)
  /\ Utils.npdot a a = Ok (dot a a)
  /\ 0 <= dot a a
  /\ dot a b * dot a b <= dot a a * dot b b.
Proof.
  intros Hshape Hrank dot.
  assert (Hdot : forall x y,
             nd_shape x = nd_shape a -> nd_shape y = nd_shape a ->
             Utils.npdot x y = Ok (dot x y)).
  { intros x y Hx Hy. unfold Utils.npdot, Numpy.einsum_dot.
    rewrite inds_length, Hx, Hy, Nat.min_l by exact Hrank.
    rewrite Nat.ltb_irrefl, broadcast_shapes_same.
    f_equal. apply sum_map_ext. intros i Hi.
    rewrite !broadcast_item_in_range by congruence. reflexivity. }
  repeat split.
  - now apply Hdot.
  - rewrite Hdot by congruence. f_equal. apply sum_map_ext.
    intros i _. ring.
  - now apply Hdot.
  - apply sum_squares_nonneg.
  - apply cauchy_schwarz.
Qed.

Lemma npdot_is_an_inner_product_witness :
  Utils.npdot (Sample.ones [3; 3]%Z) (Sample.ones [3; 3]%Z)
  = Ok (Numpy.sum (map (fun i => nd_data (Sample.ones [3; 3]%Z) i
                                 * nd_data (Sample.ones [3; 3]%Z) i)
                       (Numpy.indices [3; 3]%Z))).
Proof.
  apply (npdot_is_an_inner_product (Sample.ones [3; 3]%Z)
                                   (Sample.ones [3; 3]%Z)).
  - reflexivity.
  - simpl. lia.
Defined.

(** X5.  [npdot] has five index letters: an array of more than five axes
    makes it raise a [ValueError], whatever the second array is. *)
Theorem npdot_rejects_more_than_five_axes (a b : ndarray) :
  (5 < List.length (nd_shape a))%nat ->
  exists msg, Utils.npdot a b = Raise (ValueError msg).
Proof.
  intros H. unfold Utils.npdot, Numpy.einsum_dot.
  rewrite inds_length, Nat.min_r by lia.
  apply Nat.ltb_lt in H. rewrite H. eexists. reflexivity.
Qed.

Lemma npdot_rejects_more_than_five_axes_witness :
  exists msg,
    Utils.npdot (Sample.ones [1; 1; 1; 1; 1; 1]%Z) (Sample.ones [1]%Z)
    = Raise (ValueError msg).
Proof.
  apply (npdot_rejects_more_than_five_axes
           (Sample.ones [1; 1; 1; 1; 1; 1]%Z) (Sample.ones [1]%Z)).
  simpl. lia.
Defined.

Lemma index_ok {A : Type} (l : list A) (i : nat) (msg : string) (d : A) :
  (i < List.length l)%nat -> index l i msg = Ok (nth i l d).
Proof.
  intros H. unfold index.
  rewrite (nth_error_nth' l d H). reflexivity.
Qed.

(** A comprehension all of whose items evaluate. *)
Lemma mapM_ok {A B : Type} (f : A -> result B) (g : A -> B) (l : list A) :
  (forall x, In x l -> f x = Ok (g x)) -> mapM f l = Ok (map g l).
Proof.
  induction l as [| x rest IH]; intros H; simpl.
  - reflexivity.
  - rewrite (H x) by now left. simpl.
    rewrite IH by (intros y Hy; apply H; now right). reflexivity.
Qed.




Lemma weight_srcfocus_value (model : Model.t) (src_coords : list R)
    (delta : R) (full : bool) :
  (0 < Model.dim model)%nat ->
  List.length (Model.spacing model) = Model.dim model ->
  (Model.dim model <= List.length src_coords)%nat ->
  exists w,
    Utils.weight_srcfocus model src_coords delta full = Ok w
    /\ forall cell,
         w cell
         = let w_dim := if full then seq 0 (Model.dim model)
                        else [(Model.dim model - 1)%nat] in
           let radius :=
             Numpy.sum
               (map (fun '(i, d) =>
                       (IZR (nth d cell 0%Z)
                        - source_index model src_coords i) ^ 2)
                    (combine (seq 0 (List.length w_dim)) w_dim)) in
           sqrt (radius + (delta / mean_spacing model) ^ 2)
           / (delta / mean_spacing model).
Proof.
  intros Hdim Hsp Hsrc. unfold Utils.weight_srcfocus.
  set (n := Model.dim model) in *.
  assert (Hw : (if full then Ok (seq 0 n)
                else match n with
                     | O => Raise (IndexError "tuple index out of range")
                     | S k => Ok [k]
                     end)
               = Ok (if full then seq 0 n else [(n - 1)%nat])).
  { destruct full; [reflexivity |]. destruct n; [lia |].
    now rewrite Nat.sub_succ, Nat.sub_0_r. }
  rewrite Hw. cbn [bind].
  rewrite (mapM_ok _ (source_index model src_coords)).
  2:{ intros i Hi. apply in_seq in Hi.
      rewrite (index_ok _ _ _ (0%Z, 0%Z)), (index_ok _ _ _ 0),
        (index_ok _ _ _ 0); try lia.
      - reflexivity.
      - unfold Model.padsizes. rewrite padsizes_of_length; fold n; lia. }
  cbn [bind]. destruct (Nat.eqb_spec n 0); [lia |]. cbn [bind].
  eexists. split; [reflexivity |].
  intros cell. unfold mean_spacing. fold n. cbv beta zeta.
  f_equal. f_equal. f_equal. f_equal.
  apply map_ext_in. intros [i d] Hin.
  assert (Hi : (i < n)%nat).
  { apply in_combine_l in Hin. apply in_seq in Hin.
    destruct full; [rewrite length_seq in Hin; lia | simpl in Hin; lia]. }
  f_equal. f_equal.
  rewrite (nth_indep _ 0 (source_index model src_coords 0%nat))
    by (rewrite length_map, length_seq; exact Hi).
  rewrite map_nth, seq_nth by exact Hi. reflexivity.
Qed.



(** X7.  With [full=False] the weight of [weight_srcfocus] depends on a
    grid point through its last index only, and the distance is taken
    from the first entry of the source index (the padding in front of
    the first axis plus the first source coordinate over the first
    spacing), since the one weighted dimension is enumerated from 0. *)
Theorem depth_weight_is_centred_on_the_first_coordinate (model : Model.t)
    (src_coords : list R) (delta : R) :
  (0 < Model.dim model)%nat ->
  List.length (Model.spacing model) = Model.dim model ->
  (Model.dim model <= List.length src_coords)%nat ->
  exists w,
    Utils.weight_srcfocus model src_coords delta false = Ok w
    /\ forall cell,
         w cell
         = sqrt ((IZR (nth (Model.dim model - 1) cell 0%Z)
                  - source_index model src_coords 0) ^ 2
                 + (delta / mean_spacing model) ^ 2)
           / (delta / mean_spacing model).
Proof.
  intros Hdim Hsp Hsrc.
  destruct (weight_srcfocus_value model src_coords delta false Hdim Hsp Hsrc)
    as [w [Hw Hcell]].
  exists w. split; [exact Hw |]. intros cell. rewrite Hcell. cbn.
  now rewrite Rplus_0_r.
Qed.

Lemma depth_weight_is_centred_on_the_first_coordinate_witness :
  exists w,
    Utils.weight_srcfocus (Sample.acoustic_model 1 None) [0; 0] 1 false = Ok w
    /\ forall cell,
         w cell
         = sqrt ((IZR (nth (Model.dim (Sample.acoustic_model 1 None) - 1)
                           cell 0%Z)
                  - source_index (Sample.acoustic_model 1 None) [0; 0] 0) ^ 2
                 + (1 / mean_spacing (Sample.acoustic_model 1 None)) ^ 2)
           / (1 / mean_spacing (Sample.acoustic_model 1 None)).
Proof.
  apply (depth_weight_is_centred_on_the_first_coordinate
           (Sample.acoustic_model 1 None) [0; 0] 1).
  - cbn. lia.
  - reflexivity.
  - cbn. lia.
Defined.

(** ** The class [Model] *)

Lemma gen_phys_param_entry (shape : list Z) (g : Grid) (pads : list (Z * Z))
    (registered : list string) (field : option pyval) (name : string)
    (p : param) (registered' : list string) :
  Model._gen_phys_param shape g pads registered field name
  = Ok (p, registered') ->
  registered' = registered ++ map fst (entry name field)
  /\ match entry name field with
     | [] => p = Number 0
     | (_, c) :: _ => Model.is_Constant (Model.Sym p) = Ok c
     end.
Proof.
  unfold Model._gen_phys_param, entry.
  destruct field as [[a | v] |]; intros H.
  - destruct (shape_eqb (nd_shape a) shape).
    + inversion H; subst. now split.
    + destruct (assign_data (grid_shape g) a); [| discriminate].
      inversion H; subst. now split.
  - inversion H; subst. now split.
  - inversion H; subst. rewrite app_nil_r. now split.
Qed.

(** A step of [__init__] that may register a parameter. *)
Lemma gen_held (shape : list Z) (g : Grid) (pads : list (Z * Z))
    (registered : list string) (field : option pyval) (name : string)
    (p : param) (registered' : list string) (self : Model.t) :
  Model._gen_phys_param shape g pads registered field name
  = Ok (p, registered') ->
  Model.getattr self name = Ok (Model.Sym p) ->
  registered' = registered ++ map fst (entry name field)
  /\ held self (entry name field).
Proof.
  intros H Hget. apply gen_phys_param_entry in H as [-> H].
  split; [reflexivity |]. unfold held, entry in *.
  destruct field as [[arr | v] |]; repeat constructor;
    exists (Model.Sym p); now split.
Qed.

Lemma entry_reciprocal (name : string) (rho : pyval) :
  entry name (Some (Model.np_reciprocal rho)) = entry name (Some rho).
Proof. now destruct rho. Qed.

(** The step [_init_density]. *)
Lemma init_density_held (a : Model.args) (shape : list Z) (g : Grid)
    (pads : list (Z * Z)) (registered registered' : list string)
    (self : Model.t) :
  Model._init_density shape g pads registered (Model.arg_rho a)
                      (Model.arg_b a)
  = Ok (Model.irho self, Model.rho self, registered') ->
  registered' = registered ++ map fst (density_entry a)
  /\ held self (density_entry a).
Proof.
  unfold Model._init_density, density_entry, keeps_density.
  destruct (Model.arg_rho a) as [rho |].
  - destruct (Model.np_amin rho) as [rm |]; [| discriminate].
    destruct (Model.np_amax rho) as [rM |]; [| discriminate].
    cbn [bind].
    destruct (Rgt_dec (rm / rM) 0.1); intros H; split_result H;
      injection H as Hi Hr <-.
    + apply (gen_held _ _ _ _ _ _ _ _ self) in E; [exact E |].
      unfold Model.getattr. cbn. now rewrite <- Hi.
    + apply (gen_held _ _ _ _ _ _ _ _ self) in E; [exact E |].
      unfold Model.getattr. cbn. now rewrite <- Hr.
  - destruct (Model.arg_b a) as [b |]; intros H.
    + split_result H. injection H as Hi Hr <-.
      apply (gen_held _ _ _ _ _ _ _ _ self) in E; [exact E |].
      unfold Model.getattr. cbn. now rewrite <- Hi.
    + injection H as _ _ <-. split; [now rewrite app_nil_r | constructor].
Qed.

Lemma held_app (self : Model.t) (l1 l2 : list (string * bool)) :
  held self l1 -> held self l2 -> held self (l1 ++ l2).
Proof. intros H1 H2. apply Forall_app. now split. Qed.

Lemma init_registry (a : Model.args) (self : Model.t) :
  Model.__init__ a = Ok self ->
  Model._physical_parameters self = map fst (registry a)
  /\ held self (registry a).
Proof.
  intros H.
  destruct (init_steps a self H)
    as (l0 & l1 & l2 & l3 & l4 & l5 & Hdamp & Hm & Hrho & Hdm & Hqp
        & Htti & Hel).
  rewrite grid_of_dim in Htti.
  set (damp := if negb (Model.arg_nbl a =? 0)%Z
               then [("damp"%string, false)] else []).
  set (thomsen :=
         if Model.is_some (Model.arg_epsilon a)
            || Model.is_some (Model.arg_delta a)
            || Model.is_some (Model.arg_theta a)
            || Model.is_some (Model.arg_phi a)
         then entry "epsilon"
                (Some (Model.thomsen_stored (Model.arg_epsilon a)))
              ++ entry "delta"
                   (Some (Model.thomsen_stored (Model.arg_delta a)))
              ++ entry "theta" (Model.arg_theta a)
              ++ (if (List.length (Model.axes a) =? 3)%nat
                  then entry "phi" (Model.arg_phi a) else [])
         else []).
  set (lame := if Model.is_some (Model.arg_mu a)
               then entry "lam" (Model.arg_lam a)
                    ++ entry "mu" (Model.arg_mu a)
               else []).
  assert (H0 : l0 = map fst damp /\ held self damp).
  { unfold damp. destruct (negb (Model.arg_nbl a =? 0)%Z).
    - destruct Hdamp as (_ & Hd & ->). split; [reflexivity |].
      repeat constructor. eexists. split; [reflexivity |].
      cbn [fst]. unfold Model.getattr. cbn. now rewrite Hd.
    - destruct Hdamp as (_ & ->). split; [reflexivity | constructor]. }
  assert (H1 : l1 = l0 ++ map fst (entry "m" (Model.arg_m a))
               /\ held self (entry "m" (Model.arg_m a))).
  { destruct (Model.arg_m a) as [m |].
    - destruct Hm as (p & Hgen & Hp).
      apply (gen_held _ _ _ _ _ _ _ _ self) in Hgen; [exact Hgen |].
      unfold Model.getattr. cbn. now rewrite Hp.
    - destruct Hm as (_ & ->). split; [now rewrite app_nil_r | constructor]. }
  apply init_density_held in Hrho as H2.
  apply (gen_held _ _ _ _ _ _ _ _ self) in Hdm as H3; [| reflexivity].
  assert (H4 : l4 = l3 ++ map fst (entry "qp" (Model.arg_qp a))
               /\ held self (entry "qp" (Model.arg_qp a))).
  { destruct (Model.arg_qp a) as [q |]; cbn [Model.is_some] in Hqp.
    - destruct Hqp as (p & Hgen & Hp).
      apply (gen_held _ _ _ _ _ _ _ _ self) in Hgen; [exact Hgen |].
      unfold Model.getattr. cbn. now rewrite Hp.
    - destruct Hqp as (_ & ->). split; [now rewrite app_nil_r | constructor]. }
  assert (H5 : l5 = l4 ++ map fst thomsen /\ held self thomsen).
  { unfold thomsen.
    destruct (Model.is_some (Model.arg_epsilon a)
              || Model.is_some (Model.arg_delta a)
              || Model.is_some (Model.arg_theta a)
              || Model.is_some (Model.arg_phi a)).
    - destruct Htti as (e & d & th & top & la & lb & lc & He & _ & Hd & Ht
                        & Hp & _ & Hae & Had & Hat).
      apply (gen_held _ _ _ _ _ _ _ _ self) in He as [Ea He];
        [| unfold Model.getattr; cbn; now rewrite Hae].
      apply (gen_held _ _ _ _ _ _ _ _ self) in Hd as [Eb Hd];
        [| unfold Model.getattr; cbn; now rewrite Had].
      apply (gen_held _ _ _ _ _ _ _ _ self) in Ht as [Ec Ht];
        [| unfold Model.getattr; cbn; now rewrite Hat].
      assert (Hphi : l5 = lc ++ map fst
                (if (List.length (Model.axes a) =? 3)%nat
                 then entry "phi" (Model.arg_phi a) else [])
              /\ held self (if (List.length (Model.axes a) =? 3)%nat
                            then entry "phi" (Model.arg_phi a) else [])).
      { destruct (List.length (Model.axes a) =? 3)%nat.
        - destruct Hp as (p & Hgen & Hp).
          apply (gen_held _ _ _ _ _ _ _ _ self) in Hgen; [exact Hgen |].
          unfold Model.getattr. cbn. now rewrite Hp.
        - destruct Hp as (_ & ->).
          split; [now rewrite app_nil_r | constructor]. }
      destruct Hphi as [Ed Hphi]. split.
      + rewrite Ed, Ec, Eb, Ea, !map_app, <- !app_assoc. reflexivity.
      + repeat apply held_app; assumption.
    - destruct Htti as (-> & _). split; [now rewrite app_nil_r | constructor]. }
  assert (H6 : Model._physical_parameters self = l5 ++ map fst lame
               /\ held self lame).
  { unfold lame. destruct (Model.is_some (Model.arg_mu a)).
    - destruct Hel as (l & u & la & Hl & Hu & Hal & Hau).
      apply (gen_held _ _ _ _ _ _ _ _ self) in Hl as [Ea Hl];
        [| unfold Model.getattr; cbn; now rewrite Hal].
      apply (gen_held _ _ _ _ _ _ _ _ self) in Hu as [Eb Hu];
        [| unfold Model.getattr; cbn; now rewrite Hau].
      split.
      + rewrite Eb, Ea, !map_app, <- !app_assoc. reflexivity.
      + now apply held_app.
    - destruct Hel as (-> & _). split; [now rewrite app_nil_r | constructor]. }
  destruct H0 as [E0 H0], H1 as [E1 H1], H2 as [E2 H2], H3 as [E3 H3],
    H4 as [E4 H4], H5 as [E5 H5], H6 as [E6 H6].
  unfold registry. fold damp. fold thomsen. fold lame. split.
  - rewrite E6, E5, E4, E3, E2, E1, E0, !map_app, <- !app_assoc.
    reflexivity.
  - repeat apply held_app; assumption.
Qed.

Lemma sublist_nil_l {A : Type} (m : list A) : sublist [] m.
Proof. induction m; now constructor. Qed.

Lemma sublist_refl {A : Type} (m : list A) : sublist m m.
Proof. induction m; now constructor. Qed.

Lemma sublist_app {A : Type} (l1 m1 l2 m2 : list A) :
  sublist l1 m1 -> sublist l2 m2 -> sublist (l1 ++ l2) (m1 ++ m2).
Proof.
  intros H1 H2. induction H1; simpl; [assumption | now constructor ..].
Qed.

Lemma sublist_In {A : Type} (l m : list A) (x : A) :
  sublist l m -> In x l -> In x m.
Proof.
  induction 1; simpl; [tauto | tauto | intros [-> | H0]; tauto].
Qed.

Lemma sublist_NoDup {A : Type} (l m : list A) :
  sublist l m -> NoDup m -> NoDup l.
Proof.
  induction 1 as [| x l m Hs IH | x l m Hs IH]; intros Hm.
  - constructor.
  - inversion Hm; subst. now apply IH.
  - inversion Hm as [| ? ? Hnot Hrest]; subst. constructor.
    + intros Hin. apply Hnot. eapply sublist_In; eassumption.
    + now apply IH.
Qed.

Lemma entry_sublist (name : string) (field : option pyval) :
  sublist (map fst (entry name field)) [name].
Proof.
  destruct field as [[? | ?] |]; simpl;
    [apply sublist_refl | apply sublist_refl | apply sublist_nil_l].
Qed.

Lemma sublist_app_r {A : Type} (l m extra : list A) :
  sublist l m -> sublist l (m ++ extra).
Proof.
  intros H. rewrite <- (app_nil_r l).
  apply sublist_app; [exact H | apply sublist_nil_l].
Qed.

Lemma density_entry_sublist (a : Model.args) :
  sublist (map fst (density_entry a)) ["irho"; "rho"]%string.
Proof.
  unfold density_entry.
  destruct (Model.arg_rho a) as [rho |].
  - destruct (keeps_density rho).
    + apply sublist_skip, entry_sublist.
    + apply (sublist_app_r _ ["irho"%string] ["rho"%string]), entry_sublist.
  - apply (sublist_app_r _ ["irho"%string] ["rho"%string]), entry_sublist.
Qed.

Lemma registry_sublist (a : Model.args) :
  sublist (map fst (registry a)) parameter_names.
Proof.
  unfold registry, parameter_names. rewrite !map_app.
  change ["damp"; "m"; "irho"; "rho"; "dm"; "qp"; "epsilon"; "delta";
          "theta"; "phi"; "lam"; "mu"]%string
    with (["damp"%string] ++ ["m"%string] ++ ["irho"; "rho"]%string
          ++ ["dm"%string] ++ ["qp"%string]
          ++ (["epsilon"%string] ++ ["delta"%string] ++ ["theta"%string]
              ++ ["phi"%string])
          ++ (["lam"%string] ++ ["mu"%string]))%list.
  repeat apply sublist_app; try apply entry_sublist.
  - destruct (negb _); [apply sublist_refl | apply sublist_nil_l].
  - apply density_entry_sublist.
  - destruct (_ || _); [| apply sublist_nil_l].
    rewrite !map_app. repeat apply sublist_app; try apply entry_sublist.
    destruct (_ =? _)%nat; [apply entry_sublist | apply sublist_nil_l].
  - destruct (Model.is_some _); [| apply sublist_nil_l].
    rewrite !map_app. repeat apply sublist_app; apply entry_sublist.
Qed.

Lemma parameter_names_NoDup : NoDup parameter_names.
Proof.
  unfold parameter_names.
  repeat (constructor; [simpl; intuition discriminate |]). constructor.
Qed.

Lemma registry_NoDup (a : Model.args) : NoDup (map fst (registry a)).
Proof.
  eapply sublist_NoDup; [apply registry_sublist | apply parameter_names_NoDup].
Qed.

Lemma mapM_tagged (self : Model.t) (entries : list (string * bool)) :
  held self entries ->
  mapM (fun p => o <- Model.getattr self p ;;
                 c <- Model.is_Constant o ;;
                 Ok (if c then (p ++ "_const")%string else p))
       (map fst entries)
  = Ok (map tagged entries).
Proof.
  induction 1 as [| [n c] rest [q [Hq Hc]] _ IH]; simpl.
  - reflexivity.
  - simpl in Hq, Hc. rewrite Hq. simpl. rewrite Hc. simpl. rewrite IH.
    reflexivity.
Qed.

(** X8.  For a model that [__init__] has built, [physical_parameters]
    lists, in this order, [damp] (when there is a layer), [m], the
    density, [dm], [qp], then for an anisotropic model [epsilon] and
    [delta] (always: their defaults are constants), [theta] and, in three
    dimensions, [phi], then for an elastic model [lam] and [mu].  The
    density is listed as [rho] when [rho] was passed and its least value
    is not above a tenth of its greatest, as [irho] when [rho] was passed
    with values closer than that, and as [irho] too when [rho] was not
    passed and the buoyancy [b] was.  A parameter is listed only when it
    was passed, by its name when it was passed as an array and with the
    suffix [_const] when it was passed as a number. *)
Theorem physical_parameters_of_a_new_model (a : Model.args) (self : Model.t) :
  Model.__init__ a = Ok self ->
  Model.physical_parameters self = Ok (map tagged (registry a)).
Proof.
  intros H. apply init_registry in H as [Hnames Hattr].
  unfold Model.physical_parameters. rewrite Hnames.
  now apply mapM_tagged.
Qed.

Lemma physical_parameters_of_a_new_model_witness :
  Model.physical_parameters (Sample.acoustic_model 1 None)
  = Ok (map tagged (registry (Sample.acoustic 1 None))).
Proof.
  apply (physical_parameters_of_a_new_model
           (Sample.acoustic 1 None) (Sample.acoustic_model 1 None)).
  apply init_acoustic.
Defined.

Lemma dict_set_absent {V : Type} (d : dict V) (k : string) (v : V) :
  ~ In k (keys d) -> dict_set k v d = d ++ [(k, v)].
Proof.
  induction d as [| [k0 v0] rest IH]; simpl; intros H.
  - reflexivity.
  - destruct (String.eqb k k0) eqn:E.
    + apply String.eqb_eq in E. subst. tauto.
    + rewrite IH by tauto. reflexivity.
Qed.

Lemma is_Constant_symbol (q : Model.expr) (c : bool) :
  Model.is_Constant q = Ok c -> Model.is_symbol q = true.
Proof. destruct q as [[] | ]; simpl; congruence. Qed.

(** The comprehension of [physical_params], on names that are distinct
    and name symbols. *)
Lemma physical_params_items (self : Model.t) (kw : Model.kwargs)
    (names : list string) :
  NoDup names ->
  Forall (fun n => exists q, Model.getattr self n = Ok q
                             /\ Model.is_symbol q = true) names ->
  forall acc : dict Model.expr,
    (forall n, In n names -> ~ In n (keys acc)) ->
    exists items,
      fold_left
        (fun acc i =>
           params <- acc ;;
           o <- Model.getattr self i ;;
           Ok (if Model.is_symbol o
               then dict_set i (Model.kwargs_get kw i o) params
               else params))
        names (Ok acc)
      = Ok (acc ++ items)
      /\ keys items = names
      /\ Forall (fun '(n, v) =>
                   exists q, Model.getattr self n = Ok q
                             /\ v = Model.kwargs_get kw n q) items.
Proof.
  induction names as [| n rest IH]; intros Hnd Hall acc Hfresh.
  - exists []. simpl. rewrite app_nil_r. repeat split. constructor.
  - inversion Hnd as [| ? ? Hnot Hrest]; subst.
    inversion Hall as [| ? ? [q [Hq Hs]] Hall']; subst.
    cbn [fold_left bind]. rewrite Hq. cbn [bind]. rewrite Hs.
    rewrite dict_set_absent by (apply Hfresh; now left).
    destruct (IH Hrest Hall' (acc ++ [(n, Model.kwargs_get kw n q)]))
      as [items [Hfold [Hkeys Hitems]]].
    { intros k Hk. unfold keys. rewrite map_app, in_app_iff. simpl.
      intros [Hin | [<- | []]].
      - apply (Hfresh k); [now right | exact Hin].
      - contradiction. }
    exists ((n, Model.kwargs_get kw n q) :: items).
    rewrite Hfold, <- app_assoc. repeat split.
    + simpl. now rewrite Hkeys.
    + constructor; [now exists q | exact Hitems].
Qed.

Lemma dict_pop_keys {V : Type} (d : dict V) (k : string) :
  keys (dict_pop k d) = filter (fun n => negb (String.eqb k n)) (keys d).
Proof.
  induction d as [| [k0 v0] rest IH]; simpl.
  - reflexivity.
  - destruct (String.eqb k k0); simpl; now rewrite IH.
Qed.

Lemma dict_get_In {V : Type} (d : dict V) (k : string) (v : V) :
  NoDup (keys d) -> In (k, v) d -> dict_get d k = Some v.
Proof.
  induction d as [| [k0 v0] rest IH]; simpl; intros Hnd Hin.
  - destruct Hin.
  - inversion Hnd as [| ? ? Hnot Hrest]; subst.
    destruct Hin as [Heq | Hin].
    + inversion Heq; subst. now rewrite String.eqb_refl.
    + destruct (String.eqb k k0) eqn:E.
      * apply String.eqb_eq in E. subst. exfalso. apply Hnot.
        apply in_map_iff. now exists (k0, v).
      * now apply IH.
Qed.

(** X9.  For a model that [__init__] has built, [physical_params] never
    raises; its keys are the registered parameters in their order,
    without [dm] unless [born=True] is passed, and every key maps to the
    value passed for it in the keyword arguments, or else to the
    attribute of the model; a keyword that names no registered parameter
    is ignored. *)
Theorem physical_params_of_a_new_model (a : Model.args) (self : Model.t)
    (kw : Model.kwargs) :
  Model.__init__ a = Ok self ->
  exists params,
    Model.physical_params self kw = Ok params
    /\ keys params = filter (wanted kw) (Model._physical_parameters self)
    /\ forall n v, In (n, v) params ->
         exists q, Model.getattr self n = Ok q
                   /\ v = Model.kwargs_get kw n q
                   /\ dict_get params n = Some v.
Proof.
  intros H. apply init_registry in H as [Hnames Hattr].
  pose proof (registry_NoDup a) as Hnd. rewrite <- Hnames in Hnd.
  assert (Hsym : Forall (fun n => exists q, Model.getattr self n = Ok q
                                          /\ Model.is_symbol q = true)
                        (Model._physical_parameters self)).
  { rewrite Hnames. apply Forall_forall. intros n Hn.
    apply in_map_iff in Hn as [e [<- He]].
    unfold held in Hattr. rewrite Forall_forall in Hattr. destruct (Hattr e He) as [q [Hq Hc]].
    exists q. split; [exact Hq | eapply is_Constant_symbol, Hc]. }
  destruct (physical_params_items self kw _ Hnd Hsym [])
    as [items [Hfold [Hkeys Hitems]]]; [intros n _ [] |].
  change ([] ++ items) with items in Hfold. unfold Model.physical_params.
  match goal with
  | |- context [bind ?f _] =>
      replace f with (Ok items) by (symmetry; exact Hfold)
  end.
  cbn [bind].
  eexists. split; [reflexivity |].
  assert (Hwanted : forall l : dict Model.expr,
             keys (if negb match Model.born kw with
                           | Some b => b | None => false end
                   then dict_pop "dm" l else l)
             = filter (wanted kw) (keys l)).
  { intros l. unfold wanted.
    destruct (Model.born kw) as [[|] |]; simpl.
    - symmetry. apply forallb_filter_id. now apply forallb_forall.
    - apply dict_pop_keys.
    - apply dict_pop_keys. }
  split.
  - now rewrite Hwanted, Hkeys.
  - intros n v Hin.
    assert (Hin' : In (n, v) items).
    { destruct (negb _); [| exact Hin].
      unfold dict_pop in Hin. now apply filter_In in Hin. }
    rewrite Forall_forall in Hitems.
    destruct (Hitems _ Hin') as [q [Hq Hv]].
    exists q. repeat split; try assumption.
    apply dict_get_In; [| exact Hin].
    rewrite Hwanted, Hkeys. now apply NoDup_filter.
Qed.

Lemma physical_params_of_a_new_model_witness :
  exists params,
    Model.physical_params (Sample.acoustic_model 1 None)
                          (Model.mk_kwargs None []) = Ok params
    /\ keys params
       = filter (wanted (Model.mk_kwargs None []))
                (Model._physical_parameters (Sample.acoustic_model 1 None))
    /\ forall n v, In (n, v) params ->
         exists q, Model.getattr (Sample.acoustic_model 1 None) n = Ok q
                   /\ v = Model.kwargs_get (Model.mk_kwargs None []) n q
                   /\ dict_get params n = Some v.
Proof.
  apply (physical_params_of_a_new_model
           (Sample.acoustic 1 None) (Sample.acoustic_model 1 None)).
  apply init_acoustic.
Defined.

Lemma update_last_Forall {A : Type} (P : A -> Prop) (f : A -> A) (l : list A) :
  Forall (fun x => P x /\ P (f x)) l -> Forall P (Model.update_last f l).
Proof.
  induction l as [| x [| y rest] IH]; intros H.
  - constructor.
  - inversion H as [| ? ? [_ Hx] _]; subst. now repeat constructor.
  - inversion H as [| ? ? [Hx _] Hrest]; subst.
    change (Model.update_last f (x :: y :: rest))
      with (x :: Model.update_last f (y :: rest)).
    constructor; [exact Hx | now apply IH].
Qed.

Lemma shape_pml_length (a : Model.args) :
  List.length (Model.shape_pml_of a) = List.length (Model.axes a).
Proof.
  unfold Model.shape_pml_of.
  destruct (Model.arg_fs a);
    [rewrite update_last_length |]; apply length_map.
Qed.

(** Extent over cells gives the spacing back. *)
Lemma spacing_round_trip (xs : list Model.axis) :
  forall ns : list Z,
    List.length ns = List.length xs ->
    Forall (fun n => n <> 1%Z) ns ->
    map (fun '(e, n) => e / IZR (n - 1))
        (combine (map (fun '(x, n) => Model.axis_spacing x * IZR (n - 1))
                      (combine xs ns)) ns)
    = map Model.axis_spacing xs.
Proof.
  induction xs as [| x rest IH]; intros [| n ns] Hlen Hns;
    try discriminate; [reflexivity |].
  inversion Hns; subst. simpl. f_equal.
  - field. intros H0. apply eq_IZR_R0 in H0. lia.
  - apply IH; [simpl in Hlen; lia | assumption].
Qed.

(** X10.  The grid of a model is built from the extent
    [spacing * (shape_pml - 1)]; provided no padded axis has exactly one
    point, [spacing] gives back the spacing passed to [__init__], and
    [domain_size] is [(shape - 1) * spacing] along every axis. *)
Theorem spacing_of_a_new_model (a : Model.args) (self : Model.t) :
  Model.__init__ a = Ok self ->
  Forall (fun n => n <> 1%Z) (grid_shape (Model.grid self)) ->
  Model.spacing self = map Model.axis_spacing (Model.axes a)
  /\ Model.domain_size self
     = map (fun x => IZR (Model.axis_shape x - 1) * Model.axis_spacing x)
           (Model.axes a).
Proof.
  intros H Hns.
  destruct (init_attributes a self H) as [Hshape [_ [_ [Hgrid _]]]].
  assert (Hsp : Model.spacing self = map Model.axis_spacing (Model.axes a)).
  { unfold Model.spacing. rewrite Hgrid in *.
    unfold grid_spacing, Model.grid_of in *. cbn [grid_extent grid_shape] in *.
    apply spacing_round_trip; [apply shape_pml_length | exact Hns]. }
  split; [exact Hsp |].
  unfold Model.domain_size. rewrite Hsp, Hshape.
  clear. induction (Model.axes a) as [| x rest IH]; simpl; [reflexivity |].
  now rewrite IH.
Qed.

Lemma spacing_of_a_new_model_witness :
  Model.spacing (Sample.acoustic_model 1 None)
  = map Model.axis_spacing (Model.axes (Sample.acoustic 1 None))
  /\ Model.domain_size (Sample.acoustic_model 1 None)
     = map (fun x => IZR (Model.axis_shape x - 1) * Model.axis_spacing x)
           (Model.axes (Sample.acoustic 1 None)).
Proof.
  apply (spacing_of_a_new_model
           (Sample.acoustic 1 None) (Sample.acoustic_model 1 None)).
  - apply init_acoustic.
  - repeat constructor; discriminate.
Defined.

(** The grid of a model has room for the model and for its layers. *)
Lemma padded_shape (nbl : Z) (fs : bool) (xs : list Z) :
  (if fs then Model.update_last (fun n => (n - nbl)%Z)
                                (map (fun n => (n + 2 * nbl)%Z) xs)
   else map (fun n => (n + 2 * nbl)%Z) xs)
  = map (fun '(n, (l, r)) => (n + l + r)%Z)
        (combine xs (Model.padsizes_of (List.length xs) nbl fs)).
Proof.
  unfold Model.padsizes_of.
  induction xs as [| x [| y rest] IH].
  - now destruct fs.
  - destruct fs; cbn -[Z.mul Z.add Z.sub]; f_equal; lia.
  - replace (List.length (x :: y :: rest) - 1)%nat
      with (S (List.length (y :: rest) - 1)) by (simpl; lia).
    cbn [repeat app combine map].
    change (map (fun n => (n + 2 * nbl)%Z) (y :: rest))
      with ((y + 2 * nbl)%Z :: map (fun n => (n + 2 * nbl)%Z) rest) in *.
    destruct fs.
    + change (Model.update_last (fun n => (n - nbl)%Z)
                ((x + 2 * nbl)%Z :: (y + 2 * nbl)%Z
                 :: map (fun n => (n + 2 * nbl)%Z) rest))
        with ((x + 2 * nbl)%Z
              :: Model.update_last (fun n => (n - nbl)%Z)
                   ((y + 2 * nbl)%Z :: map (fun n => (n + 2 * nbl)%Z) rest)).
      rewrite IH. f_equal. lia.
    + f_equal; [lia | exact IH].
Qed.

(** X11.  The shape of the grid that [__init__] builds is, along every
    axis, the shape of the model plus the two pad sizes that the property
    [padsizes] gives for that axis, with and without a free surface. *)
Theorem grid_holds_the_model_and_its_layers (a : Model.args) (self : Model.t) :
  Model.__init__ a = Ok self ->
  grid_shape (Model.grid self)
  = map (fun '(n, (l, r)) => (n + l + r)%Z)
        (combine (Model.shape self) (Model.padsizes self)).
Proof.
  intros H.
  destruct (init_attributes a self H) as [Hshape [Hnbl [Hfs [Hgrid _]]]].
  unfold Model.padsizes, Model.dim. rewrite Hgrid, grid_of_dim, Hshape, Hnbl, Hfs.
  unfold Model.grid_of, Model.shape_pml_of. cbn [grid_shape].
  rewrite <- (length_map Model.axis_shape (Model.axes a)).
  rewrite <- padded_shape, map_map. reflexivity.
Qed.

Lemma grid_holds_the_model_and_its_layers_witness :
  grid_shape (Model.grid (Sample.acoustic_model 1 None))
  = map (fun '(n, (l, r)) => (n + l + r)%Z)
        (combine (Model.shape (Sample.acoustic_model 1 None))
                 (Model.padsizes (Sample.acoustic_model 1 None))).
Proof.
  apply (grid_holds_the_model_and_its_layers
           (Sample.acoustic 1 None) (Sample.acoustic_model 1 None)).
  apply init_acoustic.
Defined.

Lemma shape_eqb_true (s t : list Z) : s = t -> shape_eqb s t = true.
Proof.
  intros ->. unfold shape_eqb. now destruct (list_eq_dec Z.eq_dec t t).
Qed.

Lemma gen_phys_param_ok (a : Model.args) (pads : list (Z * Z))
    (registered : list string) (field : option pyval) (name : string) :
  conforming a field ->
  exists p registered',
    Model._gen_phys_param (map Model.axis_shape (Model.axes a))
                          (Model.grid_of a) pads registered field name
    = Ok (p, registered').
Proof.
  intros H. unfold Model._gen_phys_param.
  destruct field as [[x | v] |]; [| eauto | eauto].
  destruct (shape_eqb (nd_shape x) _) eqn:E; [eauto |].
  destruct H as [H | H].
  - apply shape_eqb_true in H. congruence.
  - unfold assign_data. cbn [grid_shape Model.grid_of]. rewrite H.
    cbn [bind]. eauto.
Qed.

Lemma thomsen_stored_conforming (a : Model.args) (field : option pyval) :
  conforming a field -> conforming a (Some (Model.thomsen_stored field)).
Proof. destruct field as [[x | v] |]; simpl; tauto. Qed.

Lemma reciprocal_conforming (a : Model.args) (rho : pyval) :
  conforming a (Some rho) -> conforming a (Some (Model.np_reciprocal rho)).
Proof. destruct rho as [x | v]; simpl; tauto. Qed.

(** An array without an axis of length 0 or less has an item. *)
Lemma values_nonempty (x : ndarray) :
  Forall (fun n => (0 < n)%Z) (nd_shape x) -> Numpy.values x <> [].
Proof.
  intros Hpos Hnil. unfold Numpy.values in Hnil. apply map_eq_nil in Hnil.
  assert (Hin : In (map (fun _ => 0%Z) (nd_shape x))
                   (Numpy.indices (nd_shape x))).
  { apply In_indices. clear Hnil.
    induction Hpos; simpl; constructor; (lia || assumption). }
  rewrite Hnil in Hin. destruct Hin.
Qed.

(** What broadcasts to a shape without an axis of length 0 or less has
    none either. *)
Lemma broadcastable_rev_positive (src : list Z) :
  forall dst : list Z,
    Numpy.broadcastable_rev src dst = true ->
    Forall (fun n => (0 < n)%Z) dst ->
    Forall (fun n => (0 < n)%Z) src.
Proof.
  induction src as [| s src IH]; intros dst Hb Hpos; [constructor |].
  destruct dst as [| d dst].
  - cbn [Numpy.broadcastable_rev] in Hb.
    rewrite forallb_forall in Hb. apply Forall_forall. intros n Hn.
    specialize (Hb n Hn). apply Z.eqb_eq in Hb. lia.
  - cbn [Numpy.broadcastable_rev] in Hb.
    apply andb_true_iff in Hb as [Hs Hb].
    inversion Hpos as [| ? ? Hd Hrest]; subst. constructor.
    + apply orb_true_iff in Hs as [Hs | Hs]; apply Z.eqb_eq in Hs; lia.
    + now apply (IH dst).
Qed.

Lemma broadcastable_positive (src dst : list Z) :
  Numpy.broadcastable src dst = true ->
  Forall (fun n => (0 < n)%Z) dst ->
  Forall (fun n => (0 < n)%Z) src.
Proof.
  unfold Numpy.broadcastable. intros Hb Hpos.
  rewrite <- (rev_involutive src). apply Forall_rev.
  apply (broadcastable_rev_positive _ (rev dst) Hb).
  now apply Forall_rev.
Qed.

(** The grid of a model of positive shape with no negative layer has a
    positive shape. *)
Lemma shape_pml_positive (a : Model.args) :
  Forall (fun x => (0 < Model.axis_shape x)%Z) (Model.axes a) ->
  (0 <= Model.arg_nbl a)%Z ->
  Forall (fun n => (0 < n)%Z) (Model.shape_pml_of a).
Proof.
  intros Hshape Hnbl. unfold Model.shape_pml_of.
  destruct (Model.arg_fs a).
  - apply update_last_Forall. apply Forall_map.
    eapply Forall_impl; [| exact Hshape]. cbv beta. intros x Hx. lia.
  - apply Forall_map.
    eapply Forall_impl; [| exact Hshape]. cbv beta. intros x Hx. lia.
Qed.

Lemma conforming_nonempty (a : Model.args) (x : ndarray) :
  Forall (fun x => (0 < Model.axis_shape x)%Z) (Model.axes a) ->
  (0 <= Model.arg_nbl a)%Z ->
  conforming a (Some (NdArray x)) ->
  Numpy.values x <> [].
Proof.
  intros Hshape Hnbl [H | H]; apply values_nonempty.
  - rewrite H. now apply Forall_map.
  - apply (broadcastable_positive _ _ H). now apply shape_pml_positive.
Qed.

Lemma np_amin_ok (a : Model.args) (field : pyval) :
  Forall (fun x => (0 < Model.axis_shape x)%Z) (Model.axes a) ->
  (0 <= Model.arg_nbl a)%Z ->
  conforming a (Some field) ->
  exists v, Model.np_amin field = Ok v.
Proof.
  intros Hshape Hnbl Hc. destruct field as [x | v]; [| cbn; eauto].
  pose proof (conforming_nonempty a x Hshape Hnbl Hc) as Hne.
  unfold Model.np_amin. destruct (Numpy.values x); [contradiction | eauto].
Qed.

Lemma np_amax_ok (a : Model.args) (field : pyval) :
  Forall (fun x => (0 < Model.axis_shape x)%Z) (Model.axes a) ->
  (0 <= Model.arg_nbl a)%Z ->
  conforming a (Some field) ->
  exists v, Model.np_amax field = Ok v.
Proof.
  intros Hshape Hnbl Hc. destruct field as [x | v]; [| cbn; eauto].
  pose proof (conforming_nonempty a x Hshape Hnbl Hc) as Hne.
  unfold Model.np_amax. destruct (Numpy.values x); [contradiction | eauto].
Qed.

Lemma init_density_ok (a : Model.args) (pads : list (Z * Z))
    (registered : list string) :
  Forall (fun x => (0 < Model.axis_shape x)%Z) (Model.axes a) ->
  (0 <= Model.arg_nbl a)%Z ->
  conforming a (Model.arg_rho a) -> conforming a (Model.arg_b a) ->
  exists irho rho registered',
    Model._init_density (map Model.axis_shape (Model.axes a))
                        (Model.grid_of a) pads registered
                        (Model.arg_rho a) (Model.arg_b a)
    = Ok (irho, rho, registered').
Proof.
  intros Hshape Hnbl Hrho Hb. unfold Model._init_density.
  destruct (Model.arg_rho a) as [rho |].
  - destruct (np_amin_ok a rho Hshape Hnbl Hrho) as [rm ->].
    destruct (np_amax_ok a rho Hshape Hnbl Hrho) as [rM ->].
    cbn [bind]. destruct (Rgt_dec (rm / rM) 0.1).
    + destruct (gen_phys_param_ok a pads registered
                  (Some (Model.np_reciprocal rho)) "irho"
                  (reciprocal_conforming a rho Hrho)) as (p & l & ->).
      cbn [bind]. eauto.
    + destruct (gen_phys_param_ok a pads registered (Some rho) "rho" Hrho)
        as (p & l & ->).
      cbn [bind]. eauto.
  - destruct (Model.arg_b a) as [b |]; [| eauto].
    destruct (gen_phys_param_ok a pads registered (Some b) "irho" Hb)
      as (p & l & ->).
    cbn [bind]. eauto.
Qed.

(** X12.  [__init__] raises nothing for a model with at least one axis
    when every array passed for a parameter has the shape of the model
    or broadcasts to the shape of the padded grid (numbers always do);
    the statement is for positive shapes and a thickness [nbl] that is
    not negative, where no such array is empty. *)
Theorem model_is_built_from_conforming_arrays (a : Model.args) :
  Model.axes a <> [] ->
  Forall (fun x => (0 < Model.axis_shape x)%Z) (Model.axes a) ->
  (0 <= Model.arg_nbl a)%Z ->
  Forall (conforming a)
         [Model.arg_m a; Model.arg_rho a; Model.arg_b a; Model.arg_dm a;
          Model.arg_qp a; Model.arg_epsilon a; Model.arg_delta a;
          Model.arg_theta a; Model.arg_phi a; Model.arg_lam a;
          Model.arg_mu a] ->
  exists self, Model.__init__ a = Ok self.
Proof.
  intros Haxes Hshape Hnbl Hall.
  repeat match goal with
         | H : Forall _ (_ :: _) |- _ =>
             let Hx := fresh "Hc" in
             apply Forall_cons_iff in H as [Hx H]
         end.
  clear Hall.
  unfold Model.__init__.
  assert (H0 : match Model.axes a with
               | [] => if Model.arg_fs a
                       then Raise (IndexError "tuple index out of range")
                       else Ok tt
               | _ => Ok tt
               end = Ok tt)
    by (destruct (Model.axes a); [contradiction | reflexivity]).
  rewrite H0. cbn [bind].
  assert (Hdamp : forall (A : Type) (damp : A),
             match Model.axes a with
             | [] => Raise Model.no_dimension
             | _ :: _ => Ok damp
             end = Ok damp)
    by (intros; destruct (Model.axes a); [contradiction | reflexivity]).
  rewrite Hdamp.
  assert (Heps : exists top,
             Model.np_amax (Model.thomsen_stored (Model.arg_epsilon a))
             = Ok top).
  { apply (np_amax_ok a); try assumption.
    now apply thomsen_stored_conforming. }
  destruct Heps as [top Heps].
  destruct (negb (Model.arg_nbl a =? 0)%Z).
  all: cbn [bind].
  all: revert Hc; destruct (Model.arg_m a) as [m |]; intros Hc.
  all: try match goal with
       | |- context [Model._gen_phys_param ?s ?g ?p ?r ?f "m"] =>
           destruct (gen_phys_param_ok a p r f "m" Hc) as (pm & lm & ->)
       end.
  all: cbn [bind].
  all: match goal with
       | |- context [Model._init_density ?s ?g ?p ?r _ _] =>
           destruct (init_density_ok a p r Hshape Hnbl Hc0 Hc1)
             as (irho & rho & ld & ->)
       end.
  all: repeat
    match goal with
    | |- _ => progress cbn [bind]
    | |- _ => rewrite Heps
    | |- context [Model._gen_phys_param ?s ?g ?p ?r (Some (Model.thomsen_stored ?f)) ?n] =>
        let q := fresh "q" in let r' := fresh "r" in let E := fresh "E" in
        destruct (gen_phys_param_ok a p r (Some (Model.thomsen_stored f)) n)
          as [q [r' E]];
        [apply thomsen_stored_conforming; assumption |];
        rewrite E; cbn [bind]
    | |- context [if ?c then _ else _] => destruct c eqn:?
    | |- context [Model._gen_phys_param ?s ?g ?p ?r ?f ?n] =>
        let q := fresh "q" in let r' := fresh "r" in let E := fresh "E" in
        destruct (gen_phys_param_ok a p r f n) as [q [r' E]];
        [first [assumption | congruence] |];
        rewrite E; cbn [bind]
    | |- exists self, Ok _ = Ok self => eexists; reflexivity
    end.
Qed.

Lemma model_is_built_from_conforming_arrays_witness :
  exists self, Model.__init__ Sample.with_field = Ok self.
Proof.
  apply (model_is_built_from_conforming_arrays Sample.with_field).
  - discriminate.
  - repeat constructor.
  - cbn. lia.
  - repeat constructor; left; reflexivity.
Defined.

(** X13.  [__init__] called, for a model with at least one axis, with an
    array [m] that has neither the shape of the model nor a shape that
    broadcasts to the padded grid (a shape with more axes than the grid
    broadcasts when its leading axes have length 1) raises the
    [ValueError] of the assignment [function.data[:] = field], and no
    model is built (positive shapes, and a thickness [nbl] that is not
    negative). *)
Theorem model_rejects_a_misshapen_slowness (a : Model.args) (x : ndarray) :
  Model.arg_m a = Some (NdArray x) ->
  Model.axes a <> [] ->
  Forall (fun x => (0 < Model.axis_shape x)%Z) (Model.axes a) ->
  (0 <= Model.arg_nbl a)%Z ->
  nd_shape x <> map Model.axis_shape (Model.axes a) ->
  Numpy.broadcastable (nd_shape x) (Model.shape_pml_of a) = false ->
  Model.__init__ a
  = Raise (ValueError (broadcast_message (nd_shape x) (Model.shape_pml_of a))).
Proof.
  intros Hm Haxes _ _ Hshape Hb. unfold Model.__init__.
  assert (H0 : match Model.axes a with
               | [] => if Model.arg_fs a
                       then Raise (IndexError "tuple index out of range")
                       else Ok tt
               | _ => Ok tt
               end = Ok tt)
    by (destruct (Model.axes a); [contradiction | reflexivity]).
  assert (Hdamp : forall (A : Type) (damp : A),
             match Model.axes a with
             | [] => Raise Model.no_dimension
             | _ :: _ => Ok damp
             end = Ok damp)
    by (intros; destruct (Model.axes a); [contradiction | reflexivity]).
  rewrite H0, Hdamp, Hm. cbn [bind].
  assert (Hgen : forall pads registered,
             Model._gen_phys_param (map Model.axis_shape (Model.axes a))
               (Model.grid_of a) pads registered (Some (NdArray x)) "m"
             = Raise (ValueError (broadcast_message (nd_shape x)
                                                    (Model.shape_pml_of a)))).
  { intros pads registered. unfold Model._gen_phys_param, shape_eqb.
    destruct (list_eq_dec Z.eq_dec _ _); [contradiction |].
    unfold assign_data. cbn [grid_shape Model.grid_of]. now rewrite Hb. }
  destruct (negb (Model.arg_nbl a =? 0)%Z); cbn [bind]; rewrite Hgen;
    reflexivity.
Qed.

Lemma model_rejects_a_misshapen_slowness_witness :
  Model.__init__ misshapen
  = Raise (ValueError (broadcast_message [2; 2]%Z [11; 11]%Z)).
Proof.
  apply (model_rejects_a_misshapen_slowness misshapen (Sample.ones [2; 2]%Z)).
  - reflexivity.
  - discriminate.
  - repeat constructor.
  - cbn. lia.
  - discriminate.
  - reflexivity.
Defined.

Lemma init_no_m (a : Model.args) (self : Model.t) :
  Model.__init__ a = Ok self ->
  Model._m self = None <-> Model.arg_m a = None.
Proof.
  intros H.
  destruct (init_steps a self H) as (? & ? & ? & ? & ? & ? & _ & Hm & _).
  destruct (Model.arg_m a).
  - destruct Hm as (q & _ & ->). split; discriminate.
  - destruct Hm as (-> & _). split; reflexivity.
Qed.

Lemma init_elastic (a : Model.args) (self : Model.t) :
  Model.__init__ a = Ok self ->
  Model.arg_mu a <> None ->
  exists l u, Model.lam self = Some l /\ Model.mu self = Some u.
Proof.
  intros H Hmu.
  destruct (init_steps a self H)
    as (? & ? & ? & ? & ? & ? & _ & _ & _ & _ & _ & _ & Hel).
  destruct (Model.arg_mu a); [| contradiction]. cbn in Hel.
  destruct Hel as (l & u & ? & _ & _ & -> & ->). eauto.
Qed.

Lemma init_tti (a : Model.args) (self : Model.t) :
  Model.__init__ a = Ok self ->
  Model._is_tti self = true ->
  exists e, Model.epsilon self = Some e.
Proof.
  intros H Htti.
  pose proof (init_attributes a self H)
    as (_ & _ & _ & _ & _ & _ & _ & Hflag & _).
  destruct (init_steps a self H)
    as (? & ? & ? & ? & ? & ? & _ & _ & _ & _ & _ & Hstep & _).
  rewrite <- Hflag, Htti in Hstep.
  destruct Hstep as (e & ? & ? & ? & ? & ? & ? & _ & _ & _ & _ & _ & _
                     & -> & _).
  eauto.
Qed.

(** [_init_density] leaves the expression [1 / rho] in [irho] exactly
    when it keeps the density. *)
Lemma init_density_kind (shape : list Z) (g : Grid) (pads : list (Z * Z))
    (registered registered' : list string) (rho b : option pyval)
    (irho : Model.expr) (stored : option Model.expr) :
  Model._init_density shape g pads registered rho b
  = Ok (irho, stored, registered') ->
  (exists p, irho = Model.Recip p)
  <-> (exists x, rho = Some x /\ keeps_density x = true).
Proof.
  unfold Model._init_density.
  destruct rho as [x |].
  - destruct (Model.np_amin x) as [rm |] eqn:Em; [| discriminate].
    destruct (Model.np_amax x) as [rM |] eqn:EM; [| discriminate].
    cbn [bind].
    destruct (Rgt_dec (rm / rM) 0.1) eqn:Eg; intros H; split_result H;
      injection H as <- _ _; split.
    + intros [q Hq]. discriminate.
    + intros (y & Hy & Hk). injection Hy as <-.
      unfold keeps_density in Hk. rewrite Em, EM, Eg in Hk. discriminate.
    + intros _. exists x. split; [reflexivity |].
      unfold keeps_density. now rewrite Em, EM, Eg.
    + eauto.
  - destruct b as [b |]; intros H.
    + split_result H. injection H as <- _ _.
      split; [intros [q Hq]; discriminate | intros (y & Hy & _); discriminate].
    + injection H as <- _ _.
      split; [intros [q Hq]; discriminate | intros (y & Hy & _); discriminate].
Qed.

Lemma indices_3_3 :
  Numpy.indices [3; 3]%Z
  = [[0; 0]; [0; 1]; [0; 2]; [1; 0]; [1; 1]; [1; 2];
     [2; 0]; [2; 1]; [2; 2]]%Z.
Proof. vm_compute. reflexivity. Qed.

Lemma layered_values :
  Numpy.values layered = [1; 1; 1; 20; 20; 20; 20; 20; 20].
Proof.
  unfold Numpy.values. cbn [nd_shape layered]. rewrite indices_3_3.
  reflexivity.
Qed.

Lemma layered_min : Model.np_amin (NdArray layered) = Ok 1.
Proof.
  unfold Model.np_amin, Numpy.amin. rewrite layered_values.
  f_equal. cbn [Numpy.min_list fold_left]. unfold Rmin.
  repeat (destruct (Rle_dec _ _); try lra).
Qed.

Lemma layered_max : Model.np_amax (NdArray layered) = Ok 20.
Proof.
  unfold Model.np_amax, Numpy.amax. rewrite layered_values.
  f_equal. cbn [Numpy.max_list fold_left]. unfold Rmax.
  repeat (destruct (Rle_dec _ _); try lra).
Qed.

Lemma layered_kept : keeps_density (NdArray layered) = true.
Proof.
  unfold keeps_density. rewrite layered_min, layered_max.
  destruct (Rgt_dec (1 / 20) 0.1); [lra | reflexivity].
Qed.

Lemma init_elastic_sample : Model.__init__ elastic = Ok elastic_model.
Proof.
  unfold Model.__init__.
  cbn [elastic Model.axes Sample.axes Model.arg_fs Model.arg_nbl bind
       Model.arg_m Model.arg_rho Model.arg_b Z.eqb negb].
  unfold Model._init_density. rewrite layered_min, layered_max.
  cbn [bind]. destruct (Rgt_dec (1 / 20) 0.1); [lra |].
  reflexivity.
Qed.

(** X14.  For a model that [__init__] has built with at least one axis,
    [critical_dt] returns a time step when [mu] was not passed and [m]
    was, and raises [AttributeError] for the missing attribute [_m] when
    neither was: [__init__] accepts a model without a velocity, and the
    failure comes only when the time step is asked for.  When [mu] was
    passed, [critical_dt] returns a time step unless [irho] is the
    expression [1 / rho], and then raises a [TypeError]; [irho] is that
    expression exactly when the density [rho] was passed with its least
    value no more than a tenth of its greatest. *)
Theorem critical_dt_needs_a_velocity (a : Model.args) (self : Model.t) :
  Model.__init__ a = Ok self ->
  Model.axes a <> [] ->
  (if Model.is_some (Model.arg_mu a) then
     match Model.irho self with
     | Model.Sym _ =>
         exists dt warnings, Model.critical_dt self = Ok (dt, warnings)
     | Model.Recip _ =>
         exists msg, Model.critical_dt self = Raise (TypeError msg)
     end
   else if Model.is_some (Model.arg_m a)
   then exists dt warnings, Model.critical_dt self = Ok (dt, warnings)
   else Model.critical_dt self = Raise (AttributeError "_m"))
  /\ ((exists p, Model.irho self = Model.Recip p)
      <-> (exists rho, Model.arg_rho a = Some rho
                       /\ keeps_density rho = true)).
Proof.
  intros H Haxes.
  pose proof (init_attributes a self H)
    as [_ [_ [_ [Hgrid [_ [_ [Hel _]]]]]]].
  split.
  2:{ destruct (init_steps a self H)
        as (? & ? & ? & ? & ? & ? & _ & _ & Hrho & _).
      exact (init_density_kind _ _ _ _ _ _ _ _ _ Hrho). }
  assert (Hdim : (0 < Model.dim self)%nat).
  { unfold Model.dim. rewrite Hgrid, grid_of_dim.
    destruct (Model.axes a); [contradiction | simpl; lia]. }
  destruct (cfl_coeff_positive self Hdim) as [coeff [Hcoeff _]].
  assert (Hsp : Model.spacing self <> []).
  { unfold Model.spacing, Model.dim, grid_dim, grid_spacing in *.
    rewrite Hgrid in *. cbn [Model.grid_of grid_extent grid_shape] in *.
    pose proof (shape_pml_length a) as Hlen.
    destruct (Model.axes a) as [| x xs]; [contradiction |].
    destruct (Model.shape_pml_of a); [discriminate | discriminate]. }
  assert (Hts : exists ts, Model._thomsen_scale self = Ok ts).
  { unfold Model._thomsen_scale, Model.is_tti.
    destruct (Model._is_tti self) eqn:Htti; [| eauto].
    destruct (init_tti a self H Htti) as [e ->]. cbn. eauto. }
  destruct Hts as [ts Hts].
  unfold Model.critical_dt. rewrite Hcoeff, Hts. cbn [bind].
  destruct (Model.spacing self) as [| s sp]; [contradiction |]. cbn [bind].
  unfold Model._max_vp, Model.is_elastic. rewrite Hel.
  destruct (Model.arg_mu a) as [mu |] eqn:Emu; cbn [Model.is_some].
  - destruct (init_elastic a self H) as [l [u [-> ->]]];
      [rewrite Emu; discriminate |].
    cbn [Model.attr bind].
    destruct (Model.irho self) as [p | p]; cbn [bind]; [| eauto].
    destruct (Model.dt self) as [user |]; [| eauto].
    destruct (Req_dec_T user 0); [eauto |].
    destruct (Rgt_dec user _); eauto.
  - pose proof (init_no_m a self H) as Hm.
    destruct (Model.arg_m a) as [m |]; cbn [Model.is_some].
    + destruct (Model._m self) as [p |];
        [| destruct Hm as [Hm _]; discriminate (Hm eq_refl)].
      cbn [Model.attr bind].
      destruct (Model.dt self) as [user |]; [| eauto].
      destruct (Req_dec_T user 0); [eauto |].
      destruct (Rgt_dec user _); eauto.
    + destruct Hm as [_ Hm]. rewrite (Hm eq_refl). reflexivity.
Qed.

Lemma critical_dt_needs_a_velocity_witness :
  (exists msg, Model.critical_dt elastic_model = Raise (TypeError msg))
  /\ ((exists p, Model.irho elastic_model = Model.Recip p)
      <-> (exists rho, Model.arg_rho elastic = Some rho
                       /\ keeps_density rho = true)).
Proof.
  apply (critical_dt_needs_a_velocity elastic elastic_model).
  - apply init_elastic_sample.
  - discriminate.
Defined.

Lemma nearest_padded_index (shape : list Z) :
  forall (pads : list (Z * Z)) (idx : list Z),
    (List.length shape <= List.length pads)%nat ->
    Forall2 (fun n i => (0 <= i < n)%Z) shape idx ->
    nearest shape pads (padded_index pads idx) = idx.
Proof.
  induction shape as [| n rest IH]; intros pads idx Hlen H.
  - inversion H. reflexivity.
  - inversion H as [| ? i ? tl Hi Htl]; subst.
    destruct pads as [| [l r] pads']; [simpl in Hlen; lia |].
    unfold padded_index. cbn [combine map nearest].
    fold (padded_index pads' tl).
    rewrite IH by (simpl in Hlen; (lia || assumption)).
    f_equal. lia.
Qed.

Lemma shape_eqb_false (s t : list Z) : s <> t -> shape_eqb s t = false.
Proof.
  intros H. unfold shape_eqb. now destruct (list_eq_dec Z.eq_dec s t).
Qed.

Lemma shape_eqb_refl (s : list Z) : shape_eqb s s = true.
Proof. unfold shape_eqb. now destruct (list_eq_dec Z.eq_dec s s). Qed.

(** X16.  An array of the shape of the model, given to the setter of [m]
    (of a padded field [m]) or of [dm] (of a field [dm]), replaces the
    data of the field by the array extended into the layers: read back at
    the grid point of a model point, that is at the index moved by the
    pad size in front of each axis, the field gives the value of the
    array at the model point, and no exception is raised. *)
Theorem setters_store_the_array_at_the_model_points (self : Model.t)
    (name : string) (data a : ndarray) :
  nd_shape a = Model.shape self ->
  List.length (Model.padsizes self) = List.length (Model.shape self) ->
  let stored := initialize_function (Model.grid self) a (Model.padsizes self) in
  (forall idx,
      In idx (Numpy.indices (Model.shape self)) ->
      nd_data stored (padded_index (Model.padsizes self) idx) = nd_data a idx)
  /\ (Model._m self = Some (Function name data) ->
      nd_shape data <> Model.shape self ->
      Model.m_setter self a
      = (Model.with_m self (Function name stored), None))
  /\ (Model._dm self = Function name data ->
      Model.dm_setter self a
      = (Model.with_dm self (Function name stored)
                       (Model._physical_parameters self), None)).
Proof.
  intros Hshape Hpads stored. repeat split.
  - intros idx Hidx. unfold stored, initialize_function. cbn [nd_data].
    rewrite Hshape, nearest_padded_index; [reflexivity | lia |].
    now apply In_indices.
  - intros Hm Hdata. unfold Model.m_setter. rewrite Hm. cbn [Model.attr bind Model.shape_of].
    rewrite shape_eqb_false by congruence.
    rewrite Hshape, shape_eqb_refl. reflexivity.
  - intros Hdm. unfold Model.dm_setter. rewrite Hdm. cbn [is_Function negb].
    rewrite Hshape, shape_eqb_refl. reflexivity.
Qed.

Lemma setters_store_the_array_at_the_model_points_witness :
  nd_data (initialize_function (Model.grid Sample.field_model)
                               (Sample.ones [3; 3]%Z)
                               (Model.padsizes Sample.field_model))
          (padded_index (Model.padsizes Sample.field_model) [1; 2]%Z)
  = nd_data (Sample.ones [3; 3]%Z) [1; 2]%Z.
Proof.
  apply (setters_store_the_array_at_the_model_points
           Sample.field_model "m" (Sample.ones [11; 11]%Z)
           (Sample.ones [3; 3]%Z)).
  - reflexivity.
  - reflexivity.
  - cbn. do 5 right. left. reflexivity.
Defined.

Lemma min_list_spec (l : list R) :
  l <> [] ->
  In (Numpy.min_list l) l /\ forall x, In x l -> Numpy.min_list l <= x.
Proof.
  destruct l as [| x xs]; [contradiction |]. intros _.
  unfold Numpy.min_list. revert x.
  induction xs as [| y ys IH]; intros x.
  - simpl. split; [now left |]. intros z [<- | []]. lra.
  - cbn [fold_left]. destruct (IH (Rmin x y)) as [Hin Hle]. split.
    + destruct Hin as [Heq | Hin].
      * rewrite <- Heq. unfold Rmin.
        destruct (Rle_dec x y); [now left | right; now left].
      * right; now right.
    + intros z [<- | [<- | Hz]].
      * eapply Rle_trans; [apply Hle; now left | apply Rmin_l].
      * eapply Rle_trans; [apply Hle; now left | apply Rmin_r].
      * apply Hle. now right.
Qed.

Lemma min_list_same_items (l1 l2 : list R) :
  l1 <> [] -> incl l1 l2 -> incl l2 l1 ->
  Numpy.min_list l1 = Numpy.min_list l2.
Proof.
  intros Hne H12 H21.
  assert (Hne2 : l2 <> []).
  { destruct l1 as [| x xs]; [contradiction |].
    intros ->. destruct (H12 x). now left. }
  destruct (min_list_spec l1 Hne) as [Hin1 Hle1].
  destruct (min_list_spec l2 Hne2) as [Hin2 Hle2].
  apply Rle_antisym.
  - apply Hle1, H21, Hin2.
  - apply Hle2, H12, Hin1.
Qed.

Lemma nearest_in_range (shape : list Z) :
  forall (pads : list (Z * Z)) (cell : list Z),
    (List.length shape <= List.length pads)%nat ->
    List.length cell = List.length shape ->
    Forall (fun n => (0 < n)%Z) shape ->
    Forall2 (fun n i => (0 <= i < n)%Z) shape (nearest shape pads cell).
Proof.
  induction shape as [| n rest IH]; intros pads cell Hp Hc Hpos.
  - constructor.
  - destruct pads as [| [l r] pads']; [simpl in Hp; lia |].
    destruct cell as [| i cell']; [discriminate |].
    inversion Hpos; subst. cbn [nearest]. constructor; [lia |].
    apply IH; simpl in *; (lia || assumption).
Qed.

Lemma padded_index_in_range (shape : list Z) :
  forall (pads : list (Z * Z)) (idx : list Z),
    (List.length shape <= List.length pads)%nat ->
    Forall (fun p => (0 <= fst p)%Z /\ (0 <= snd p)%Z) pads ->
    Forall2 (fun n i => (0 <= i < n)%Z) shape idx ->
    Forall2 (fun n i => (0 <= i < n)%Z)
            (map (fun '(n, (l, r)) => (n + l + r)%Z) (combine shape pads))
            (padded_index pads idx).
Proof.
  induction shape as [| n rest IH]; intros pads idx Hp Hpads H.
  - inversion H. constructor.
  - inversion H as [| ? i ? tl Hi Htl]; subst.
    destruct pads as [| [l r] pads']; [simpl in Hp; lia |].
    inversion Hpads as [| ? ? [Hl Hr] Hpads']; subst. cbn [fst snd] in *.
    unfold padded_index. cbn [combine map]. constructor; [lia |].
    apply IH; simpl in *; (lia || assumption).
Qed.

Lemma Forall2_length_eq {A B : Type} (P : A -> B -> Prop) (l : list A)
    (m : list B) :
  Forall2 P l m -> List.length l = List.length m.
Proof. induction 1; simpl; congruence. Qed.

(** Extending an array into the layers brings in no new value. *)
Lemma padding_keeps_the_minimum (g : Grid) (x : ndarray)
    (pads : list (Z * Z)) :
  (List.length (nd_shape x) <= List.length pads)%nat ->
  Forall (fun p => (0 <= fst p)%Z /\ (0 <= snd p)%Z) pads ->
  Forall (fun n => (0 < n)%Z) (nd_shape x) ->
  grid_shape g
  = map (fun '(n, (l, r)) => (n + l + r)%Z) (combine (nd_shape x) pads) ->
  Numpy.amin (initialize_function g x pads) = Numpy.amin x.
Proof.
  intros Hlen Hpads Hpos Hg. unfold Numpy.amin, Numpy.values.
  cbn [nd_shape nd_data initialize_function].
  assert (Hglen : List.length (grid_shape g) = List.length (nd_shape x)).
  { rewrite Hg, length_map, length_combine. lia. }
  apply min_list_same_items.
  - assert (Hidx : In (padded_index pads (map (fun _ => 0%Z) (nd_shape x)))
                      (Numpy.indices (grid_shape g))).
    { apply In_indices. rewrite Hg.
      apply padded_index_in_range; [exact Hlen | exact Hpads |].
      clear -Hpos. induction Hpos; simpl; constructor; (lia || assumption). }
    intros Hnil. apply map_eq_nil in Hnil. rewrite Hnil in Hidx. destruct Hidx.
  - intros v Hv. apply in_map_iff in Hv as [cell [<- Hcell]].
    apply in_map_iff. eexists. split; [reflexivity |].
    apply In_indices. apply nearest_in_range; [exact Hlen | | exact Hpos].
    apply In_indices in Hcell. apply Forall2_length_eq in Hcell. lia.
  - intros v Hv. apply in_map_iff in Hv as [idx [<- Hidx]].
    apply In_indices in Hidx.
    apply in_map_iff. exists (padded_index pads idx). split.
    + now rewrite nearest_padded_index.
    + apply In_indices. rewrite Hg. now apply padded_index_in_range.
Qed.

Lemma padsizes_of_nonneg (dim : nat) (nbl : Z) (fs : bool) :
  (0 <= nbl)%Z ->
  Forall (fun p => (0 <= fst p)%Z /\ (0 <= snd p)%Z)
         (Model.padsizes_of dim nbl fs).
Proof.
  intros H. unfold Model.padsizes_of. apply Forall_app. split.
  - apply Forall_forall. intros p Hp. apply repeat_spec in Hp. subst. simpl. lia.
  - repeat constructor; simpl; [destruct fs; lia | lia].
Qed.

Lemma padsizes_of_long (dim : nat) (nbl : Z) (fs : bool) :
  (dim <= List.length (Model.padsizes_of dim nbl fs))%nat.
Proof.
  unfold Model.padsizes_of. rewrite length_app, repeat_length. simpl. lia.
Qed.

(** X17.  For a model built from an array [m] of the shape of the model
    (no axis of length 0, a layer of 0 or more points, not elastic), the
    maximum velocity is [sqrt(1 / min(m))] with the minimum taken over
    the array passed: the values that [__init__] writes into the layers
    repeat values of the array, so the layers do not change the
    bound. *)
Theorem max_velocity_ignores_the_layers (a : Model.args) (self : Model.t)
    (x : ndarray) :
  Model.__init__ a = Ok self ->
  Model.arg_m a = Some (NdArray x) ->
  nd_shape x = map Model.axis_shape (Model.axes a) ->
  Model.arg_mu a = None ->
  (0 <= Model.arg_nbl a)%Z ->
  Forall (fun n => (0 < n)%Z) (nd_shape x) ->
  Model._max_vp self = Ok (sqrt (1 / Numpy.amin x)).
Proof.
  intros H Hm Hshape Hmu Hnbl Hpos.
  pose proof (init_attributes a self H)
    as [_ [_ [_ [_ [_ [_ [Hel _]]]]]]].
  pose proof (init_m_array a self x H Hm Hshape) as Hfield.
  unfold Model._max_vp, Model.is_elastic.
  rewrite Hel, Hmu, Hfield. cbn [Model.is_some Model.attr bind getmin].
  unfold mmin. rewrite padding_keeps_the_minimum; [reflexivity | | | exact Hpos |].
  - rewrite grid_of_dim, Hshape, length_map. apply padsizes_of_long.
  - now apply padsizes_of_nonneg.
  - rewrite grid_of_dim, Hshape.
    unfold Model.grid_of, Model.shape_pml_of. cbn [grid_shape].
    rewrite <- (length_map Model.axis_shape (Model.axes a)).
    rewrite <- padded_shape, map_map. reflexivity.
Qed.

Lemma max_velocity_ignores_the_layers_witness :
  Model._max_vp Sample.field_model
  = Ok (sqrt (1 / Numpy.amin (Sample.ones [3; 3]%Z))).
Proof.
  apply (max_velocity_ignores_the_layers
           Sample.with_field Sample.field_model (Sample.ones [3; 3]%Z)).
  - apply init_with_field.
  - reflexivity.
  - reflexivity.
  - reflexivity.
  - cbn. lia.
  - repeat constructor.
Defined.

(** With a layer, the padded shape is not the shape of the model. *)
Lemma shape_pml_differs (a : Model.args) :
  (0 < Model.arg_nbl a)%Z ->
  Model.axes a <> [] ->
  Model.shape_pml_of a <> map Model.axis_shape (Model.axes a).
Proof.
  intros Hnbl Haxes. unfold Model.shape_pml_of.
  destruct (Model.axes a) as [| x [| y rest]]; [contradiction | |].
  - destruct (Model.arg_fs a); cbn [map Model.update_last];
      intros H; injection H as H;
      destruct (Model.arg_nbl a); lia.
  - destruct (Model.arg_fs a).
    + change (map (fun x0 => (Model.axis_shape x0 + 2 * Model.arg_nbl a)%Z)
                  (x :: y :: rest))
        with ((Model.axis_shape x + 2 * Model.arg_nbl a)%Z
              :: map (fun x0 => (Model.axis_shape x0 + 2 * Model.arg_nbl a)%Z)
                     (y :: rest)).
      change (map (fun x0 => (Model.axis_shape x0 + 2 * Model.arg_nbl a)%Z)
                  (y :: rest))
        with ((Model.axis_shape y + 2 * Model.arg_nbl a)%Z
              :: map (fun x0 => (Model.axis_shape x0 + 2 * Model.arg_nbl a)%Z)
                     rest).
      cbn [Model.update_last map]. intros H. injection H as H _.
      destruct (Model.arg_nbl a); lia.
    + cbn [map]. intros H. injection H as H _.
      destruct (Model.arg_nbl a); lia.
Qed.

(** X26.  On a model built with a layer from an array [m] of the shape of
    the model, the setter of [m] given another array of that shape (no
    axis of length 0) raises nothing, and afterwards the maximum
    velocity is [sqrt(1 / min)] of the new array. *)
Theorem max_velocity_follows_the_setter (a : Model.args) (self : Model.t)
    (old new : ndarray) :
  Model.__init__ a = Ok self ->
  Model.arg_m a = Some (NdArray old) ->
  nd_shape old = map Model.axis_shape (Model.axes a) ->
  Model.arg_mu a = None ->
  (0 < Model.arg_nbl a)%Z ->
  Model.axes a <> [] ->
  nd_shape new = nd_shape old ->
  Forall (fun n => (0 < n)%Z) (nd_shape new) ->
  exists self',
    Model.m_setter self new = (self', None)
    /\ Model._max_vp self' = Ok (sqrt (1 / Numpy.amin new)).
Proof.
  intros H Hm Hold Hmu Hnbl Haxes Hnew Hpos.
  pose proof (init_attributes a self H)
    as [Hshape [Hn [Hfs [Hgrid [_ [_ [Hel _]]]]]]].
  pose proof (init_m_array a self old H Hm Hold) as Hfield.
  unfold Model.m_setter. rewrite Hfield.
  cbn [Model.attr bind Model.shape_of nd_shape initialize_function].
  rewrite shape_eqb_false.
  2:{ rewrite Hnew, Hold. cbn [Model.grid_of grid_shape].
      intros Heq. symmetry in Heq. revert Heq. now apply shape_pml_differs. }
  rewrite Hshape, <- Hold, <- Hnew, shape_eqb_refl.
  cbn [Model.pad_into bind Model.finish].
  eexists. split; [reflexivity |].
  unfold Model._max_vp, Model.is_elastic.
  cbn [Model.with_m Model._is_elastic Model._m].
  rewrite Hel, Hmu. cbn [Model.is_some Model.attr bind getmin].
  unfold mmin, Model.padsizes, Model.dim. rewrite Hgrid, Hn, Hfs.
  rewrite padding_keeps_the_minimum; [reflexivity | | | exact Hpos |].
  - rewrite grid_of_dim, Hnew, Hold, length_map. apply padsizes_of_long.
  - apply padsizes_of_nonneg. lia.
  - rewrite grid_of_dim, Hnew, Hold.
    unfold Model.grid_of, Model.shape_pml_of. cbn [grid_shape].
    rewrite <- (length_map Model.axis_shape (Model.axes a)).
    rewrite <- padded_shape, map_map. reflexivity.
Qed.

Lemma max_velocity_follows_the_setter_witness :
  exists self',
    Model.m_setter Sample.field_model (Sample.ones [3; 3]%Z) = (self', None)
    /\ Model._max_vp self' = Ok (sqrt (1 / Numpy.amin (Sample.ones [3; 3]%Z))).
Proof.
  apply (max_velocity_follows_the_setter
           Sample.with_field Sample.field_model (Sample.ones [3; 3]%Z)
           (Sample.ones [3; 3]%Z)).
  - apply init_with_field.
  - reflexivity.
  - reflexivity.
  - reflexivity.
  - cbn. lia.
  - discriminate.
  - reflexivity.
  - repeat constructor.
Defined.

Lemma max_list_spec (l : list R) :
  l <> [] ->
  In (Numpy.max_list l) l /\ forall x, In x l -> x <= Numpy.max_list l.
Proof.
  destruct l as [| x xs]; [contradiction |]. intros _.
  unfold Numpy.max_list. revert x.
  induction xs as [| y ys IH]; intros x.
  - simpl. split; [now left |]. intros z [<- | []]. lra.
  - cbn [fold_left]. destruct (IH (Rmax x y)) as [Hin Hle]. split.
    + destruct Hin as [Heq | Hin].
      * rewrite <- Heq. unfold Rmax.
        destruct (Rle_dec x y); [right; now left | now left].
      * right; now right.
    + intros z [<- | [<- | Hz]].
      * eapply Rle_trans; [apply Rmax_l | apply Hle; now left].
      * eapply Rle_trans; [apply Rmax_r | apply Hle; now left].
      * apply Hle. now right.
Qed.

(** X18.  [_init_density], given a density array of the shape of the
    model, compares [min(rho) / max(rho)] with 0.1.  Above it, no value
    of the array is zero (so that [np.reciprocal] divides by no zero),
    the inverse density is stored as the field [irho] and [rho] is the
    expression [1 / irho]; otherwise the density is stored as the field
    [rho] and [irho] is the expression [1 / rho].  In both cases the
    buoyancy [b] is not looked at. *)
Theorem density_is_stored_inverted_when_it_varies_little (shape : list Z)
    (g : Grid) (pads : list (Z * Z)) (registered : list string)
    (rho : ndarray) (b : option pyval) :
  Numpy.values rho <> [] ->
  nd_shape rho = shape ->
  if Rgt_dec (Numpy.amin rho / Numpy.amax rho) 0.1 then
    (forall v, In v (Numpy.values rho) -> v <> 0)
    /\ Model._init_density shape g pads registered (Some (NdArray rho)) b
       = let irho :=
           Function "irho"
             (initialize_function g (Numpy.map_array (fun v => 1 / v) rho)
                                  pads) in
         Ok (Model.Sym irho, Some (Model.Recip irho),
             registered ++ ["irho"%string])
  else
    Model._init_density shape g pads registered (Some (NdArray rho)) b
    = let field := Function "rho" (initialize_function g rho pads) in
      Ok (Model.Recip field, Some (Model.Sym field),
          registered ++ ["rho"%string]).
Proof.
  intros Hne Hshape.
  assert (Hmin : Model.np_amin (NdArray rho) = Ok (Numpy.amin rho)).
  { unfold Model.np_amin. now destruct (Numpy.values rho). }
  assert (Hmax : Model.np_amax (NdArray rho) = Ok (Numpy.amax rho)).
  { unfold Model.np_amax. now destruct (Numpy.values rho). }
  unfold Model._init_density. rewrite Hmin, Hmax. cbn [bind].
  destruct (Rgt_dec (Numpy.amin rho / Numpy.amax rho) 0.1) as [Hgt | Hle].
  - split.
    + intros v Hv.
      destruct (min_list_spec _ Hne) as [_ Hlo].
      destruct (max_list_spec _ Hne) as [_ Hhi].
      specialize (Hlo v Hv). specialize (Hhi v Hv).
      fold (Numpy.amin rho) in Hlo. fold (Numpy.amax rho) in Hhi.
      destruct (Rtotal_order (Numpy.amax rho) 0) as [Hneg | [Hzero | Hpos]].
      * lra.
      * rewrite Hzero in Hgt. unfold Rdiv in Hgt. rewrite Rinv_0 in Hgt. lra.
      * assert (0 < Numpy.amin rho); [| lra].
        apply Rmult_lt_reg_r with (/ Numpy.amax rho);
          [now apply Rinv_0_lt_compat |].
        unfold Rdiv in Hgt. lra.
    + unfold Model._gen_phys_param, Model.np_reciprocal.
      cbn [Numpy.map_array nd_shape].
      rewrite Hshape, shape_eqb_refl. reflexivity.
  - unfold Model._gen_phys_param. rewrite Hshape, shape_eqb_refl. reflexivity.
Qed.

Lemma density_is_stored_inverted_when_it_varies_little_witness :
  if Rgt_dec (Numpy.amin (Sample.ones [3; 3]%Z)
              / Numpy.amax (Sample.ones [3; 3]%Z)) 0.1 then
    (forall v, In v (Numpy.values (Sample.ones [3; 3]%Z)) -> v <> 0)
    /\ Model._init_density [3; 3]%Z Sample.grid [(4, 4); (4, 4)]%Z
                           ["damp"%string] (Some (NdArray (Sample.ones [3; 3]%Z)))
                           None
       = let irho :=
           Function "irho"
             (initialize_function Sample.grid
                (Numpy.map_array (fun v => 1 / v) (Sample.ones [3; 3]%Z))
                [(4, 4); (4, 4)]%Z) in
         Ok (Model.Sym irho, Some (Model.Recip irho),
             ["damp"%string] ++ ["irho"%string])
  else
    Model._init_density [3; 3]%Z Sample.grid [(4, 4); (4, 4)]%Z
                        ["damp"%string] (Some (NdArray (Sample.ones [3; 3]%Z)))
                        None
    = let field :=
        Function "rho"
          (initialize_function Sample.grid (Sample.ones [3; 3]%Z)
                               [(4, 4); (4, 4)]%Z) in
      Ok (Model.Recip field, Some (Model.Sym field),
          ["damp"%string] ++ ["rho"%string]).
Proof.
  apply (density_is_stored_inverted_when_it_varies_little
           [3; 3]%Z Sample.grid [(4, 4); (4, 4)]%Z ["damp"%string]
           (Sample.ones [3; 3]%Z) None).
  - discriminate.
  - reflexivity.
Defined.

Lemma entry_names (name : string) (field : option pyval) (n : string) :
  In n (map fst (entry name field)) -> n = name /\ field <> None.
Proof.
  destruct field as [[x | v] |]; simpl; [| | tauto];
    intros [<- | []]; split; (reflexivity || discriminate).
Qed.

Lemma density_entry_names (a : Model.args) (n : string) :
  In n (map fst (density_entry a)) -> n = "irho"%string \/ n = "rho"%string.
Proof.
  unfold density_entry. intros H.
  destruct (Model.arg_rho a) as [rho |];
    [destruct (keeps_density rho) |];
    apply entry_names in H as [-> _]; auto.
Qed.

(** [dm] is registered by [__init__] exactly when it is passed. *)
Lemma registry_dm (a : Model.args) :
  In "dm"%string (map fst (registry a)) <-> Model.arg_dm a <> None.
Proof.
  unfold registry. rewrite !map_app, !in_app_iff. split.
  - intros H.
    repeat match goal with
           | H : _ \/ _ |- _ => destruct H as [H | H]
           | H : In _ (map fst (if ?c then _ else _)) |- _ => destruct c
           | H : In _ (map fst (_ ++ _)) |- _ =>
               rewrite map_app, in_app_iff in H
           | H : In _ (map fst (entry _ _)) |- _ =>
               apply entry_names in H as [H ?]; try discriminate H
           | H : In _ (map fst (density_entry _)) |- _ =>
               apply density_entry_names in H as [H | H]; discriminate H
           | H : In _ (map fst []) |- _ => destruct H
           | H : In _ (map fst [_]) |- _ =>
               destruct H as [H | []]; discriminate H
           end; assumption.
  - intros H. right. right. right. left.
    destruct (Model.arg_dm a) as [[x | v] |]; [now left | now left | contradiction].
Qed.

Lemma getattr_with_dm (self : Model.t) (p : param) (registered : list string)
    (n : string) :
  n <> "dm"%string ->
  Model.getattr (Model.with_dm self p registered) n = Model.getattr self n.
Proof.
  intros Hn. unfold Model.getattr.
  destruct (String.eqb_spec n "dm"); [contradiction | reflexivity].
Qed.

Lemma mapM_ext_in {A B : Type} (f g : A -> result B) (l : list A) :
  (forall x, In x l -> f x = g x) -> mapM f l = mapM g l.
Proof.
  induction l as [| x rest IH]; intros H; simpl.
  - reflexivity.
  - rewrite (H x) by now left.
    rewrite IH by (intros y Hy; apply H; now right). reflexivity.
Qed.

Lemma mapM_app {A B : Type} (f : A -> result B) (l1 l2 : list A)
    (r1 r2 : list B) :
  mapM f l1 = Ok r1 -> mapM f l2 = Ok r2 -> mapM f (l1 ++ l2) = Ok (r1 ++ r2).
Proof.
  revert r1. induction l1 as [| x rest IH]; intros r1 H1 H2; simpl in *.
  - now inversion H1.
  - destruct (f x) as [y |]; [| discriminate]. cbn [bind] in *.
    destruct (mapM f rest) as [ys |]; [| discriminate]. cbn [bind] in *.
    inversion H1; subst. rewrite (IH ys eq_refl H2). reflexivity.
Qed.

Lemma fold_left_ext_in {A B : Type} (f g : A -> B -> A) (l : list B) :
  (forall a x, In x l -> f a x = g a x) ->
  forall a, fold_left f l a = fold_left g l a.
Proof.
  induction l as [| x rest IH]; intros H a; simpl.
  - reflexivity.
  - rewrite (H a x) by now left.
    apply IH. intros b y Hy. apply H. now right.
Qed.

(** X19.  On a model built without [dm], the setter of [dm] given a
    number stores the number and registers nothing: the lists that
    [physical_parameters] and [physical_params] return stay what they
    were, also with [born=True].  Given an array of the shape of the
    model it builds the field [dm] and registers it, after the
    parameters there were. *)
Theorem perturbation_is_registered_as_an_array_only (a : Model.args)
    (self : Model.t) (names : list string) :
  Model.__init__ a = Ok self ->
  Model.arg_dm a = None ->
  Model.physical_parameters self = Ok names ->
  (forall v : R,
      exists self',
        Model.dm_setter_scalar self v = (self', None)
        /\ Model._dm self' = Number v
        /\ Model.physical_parameters self' = Ok names
        /\ forall kw, Model.physical_params self' kw
                      = Model.physical_params self kw)
  /\ (forall x : ndarray,
        nd_shape x = Model.shape self ->
        exists self',
          Model.dm_setter self x = (self', None)
          /\ Model._dm self'
             = Function "dm" (initialize_function (Model.grid self) x
                                                  (Model.padsizes self))
          /\ Model.physical_parameters self' = Ok (names ++ ["dm"%string])).
Proof.
  intros H Hdm Hnames.
  pose proof (init_no_dm a self H Hdm) as H0.
  destruct (init_registry a self H) as [Hreg _].
  assert (Hnot : ~ In "dm"%string (Model._physical_parameters self)).
  { rewrite Hreg, registry_dm. tauto. }
  assert (Hother : forall n, In n (Model._physical_parameters self) ->
                             n <> "dm"%string) by (intros n Hn ->; tauto).
  split.
  - intros v. unfold Model.dm_setter_scalar. rewrite H0.
    cbn [Model.set_data Model.finish]. eexists. split; [reflexivity |].
    split; [reflexivity |]. split.
    + rewrite <- Hnames. unfold Model.physical_parameters.
      cbn [Model.with_dm Model._physical_parameters].
      apply mapM_ext_in. intros n Hn.
      rewrite getattr_with_dm by now apply Hother. reflexivity.
    + intros kw. unfold Model.physical_params.
      cbn [Model.with_dm Model._physical_parameters]. f_equal.
      apply fold_left_ext_in. intros acc n Hn.
      rewrite getattr_with_dm by now apply Hother. reflexivity.
  - intros x Hx. unfold Model.dm_setter. rewrite H0.
    cbn [is_Function negb]. unfold Model._gen_phys_param.
    rewrite Hx, shape_eqb_refl. cbn [bind Model.finish].
    eexists. split; [reflexivity |]. split; [reflexivity |].
    unfold Model.physical_parameters.
    cbn [Model.with_dm Model._physical_parameters].
    apply mapM_app.
    + rewrite <- Hnames. unfold Model.physical_parameters.
      apply mapM_ext_in. intros n Hn.
      rewrite getattr_with_dm by now apply Hother. reflexivity.
    + reflexivity.
Qed.

Lemma perturbation_is_registered_as_an_array_only_witness :
  (forall v : R,
      exists self',
        Model.dm_setter_scalar (Sample.acoustic_model 1 None) v
        = (self', None)
        /\ Model._dm self' = Number v
        /\ Model.physical_parameters self'
           = Ok ["damp"%string; "m_const"%string]
        /\ forall kw, Model.physical_params self' kw
                      = Model.physical_params (Sample.acoustic_model 1 None)
                                              kw)
  /\ (forall x : ndarray,
        nd_shape x = Model.shape (Sample.acoustic_model 1 None) ->
        exists self',
          Model.dm_setter (Sample.acoustic_model 1 None) x = (self', None)
          /\ Model._dm self'
             = Function "dm"
                 (initialize_function
                    (Model.grid (Sample.acoustic_model 1 None)) x
                    (Model.padsizes (Sample.acoustic_model 1 None)))
          /\ Model.physical_parameters self'
             = Ok (["damp"%string; "m_const"%string] ++ ["dm"%string])).
Proof.
  apply (perturbation_is_registered_as_an_array_only
           (Sample.acoustic 1 None) (Sample.acoustic_model 1 None)
           ["damp"%string; "m_const"%string]).
  - apply init_acoustic.
  - reflexivity.
  - reflexivity.
Defined.

Lemma max_list_map (f : R -> R) (l : list R) :
  l <> [] ->
  (forall x y, x <= y -> f x <= f y) ->
  Numpy.max_list (map f l) = f (Numpy.max_list l).
Proof.
  intros Hne Hmono.
  assert (Hne' : map f l <> []).
  { intros H. apply map_eq_nil in H. contradiction. }
  destruct (max_list_spec l Hne) as [Hin Hle].
  destruct (max_list_spec (map f l) Hne') as [Hin' Hle'].
  apply Rle_antisym.
  - apply in_map_iff in Hin' as [x [<- Hx]]. apply Hmono, Hle, Hx.
  - apply Hle'. now apply in_map.
Qed.

Lemma values_map_array (f : R -> R) (a : ndarray) :
  Numpy.values (Numpy.map_array f a) = map f (Numpy.values a).
Proof.
  unfold Numpy.values, Numpy.map_array. cbn [nd_shape nd_data].
  now rewrite map_map.
Qed.

Lemma init_scale (a : Model.args) (self : Model.t) :
  Model.__init__ a = Ok self ->
  Model._is_tti self = true ->
  exists top,
    Model.np_amax (Model.thomsen_stored (Model.arg_epsilon a)) = Ok top
    /\ Model.scale self = sqrt top.
Proof.
  intros H Htti.
  pose proof (init_attributes a self H)
    as (_ & _ & _ & _ & _ & _ & _ & Hflag & _).
  destruct (init_steps a self H)
    as (? & ? & ? & ? & ? & ? & _ & _ & _ & _ & _ & Hstep & _).
  rewrite <- Hflag, Htti in Hstep.
  destruct Hstep as (? & ? & ? & top & ? & ? & ? & _ & Htop & _ & _ & _
                     & Hscale & _).
  eauto.
Qed.

(** X21.  For a model built with an array of Thomsen's [epsilon], the
    attribute [scale] is [sqrt(1 + 2 * max(epsilon))], the maximum taken
    over the array passed (which has an item: [__init__] raises for an
    array without one). *)
Theorem anisotropy_scale_of_an_array (a : Model.args) (self : Model.t)
    (e : ndarray) :
  Model.__init__ a = Ok self ->
  Model.arg_epsilon a = Some (NdArray e) ->
  Numpy.values e <> []
  /\ Model.scale self = sqrt (1 + 2 * Numpy.amax e).
Proof.
  intros H He.
  pose proof (init_attributes a self H)
    as [_ [_ [_ [_ [_ [_ [_ [Htti _]]]]]]]].
  rewrite He in Htti. cbn in Htti.
  destruct (init_scale a self H Htti) as (top & Htop & ->).
  rewrite He in Htop. cbn [Model.thomsen_stored Model.np_amax] in Htop.
  rewrite values_map_array in Htop.
  assert (Hne : Numpy.values e <> []).
  { intros Hnil. rewrite Hnil in Htop. discriminate. }
  split; [exact Hne |].
  destruct (map _ (Numpy.values e)) eqn:Emap;
    [apply map_eq_nil in Emap; contradiction |].
  injection Htop as <-. unfold Numpy.amax.
  rewrite values_map_array, max_list_map; [reflexivity | exact Hne |].
  intros x y Hxy. lra.
Qed.

Lemma anisotropy_scale_of_an_array_witness :
  exists self,
    Model.__init__ tilted = Ok self
    /\ Numpy.values (Sample.ones [3; 3]%Z) <> []
    /\ Model.scale self = sqrt (1 + 2 * Numpy.amax (Sample.ones [3; 3]%Z)).
Proof.
  eexists. split; [reflexivity |].
  apply (anisotropy_scale_of_an_array tilted _ (Sample.ones [3; 3]%Z)).
  - reflexivity.
  - reflexivity.
Defined.

(** ** The class [EmptyModel] *)

Lemma empty_model_spacing (spacing : list R) (N : Z) :
  N <> 1%Z ->
  grid_spacing {| grid_extent := map (fun s => s * IZR (N - 1)) spacing;
                  grid_shape := map (fun _ => N) spacing |}
  = spacing.
Proof.
  intros HN. unfold grid_spacing. cbn [grid_extent grid_shape].
  induction spacing as [| s rest IH]; simpl; [reflexivity |].
  rewrite IH. f_equal. field. intros H. apply eq_IZR_R0 in H. lia.
Qed.

(** X22.  An [EmptyModel] built with a space order other than 0 has a
    grid of as many axes as spacings were passed, of [2 * space_order + 1]
    points each, whose spacing is the spacing passed. *)
Theorem empty_model_keeps_the_spacing (tti visco elastic : bool)
    (spacing : list R) (fs : bool) (space_order : Z)
    (p_params order : list string) (self : EmptyModel.t) :
  EmptyModel.__init__ tti visco elastic spacing fs space_order p_params order
  = Ok self ->
  space_order <> 0%Z ->
  grid_spacing (EmptyModel.grid self) = spacing
  /\ EmptyModel.dim self = List.length spacing
  /\ Forall (fun n => n = (2 * space_order + 1)%Z)
            (grid_shape (EmptyModel.grid self)).
Proof.
  intros H Hso. unfold EmptyModel.__init__ in H.
  match type of H with
  | bind ?d _ = _ => destruct d as [damp | e] eqn:Hd; [| discriminate H]
  end.
  cbn [bind] in H.
  split_result H. injection H as <-.
  unfold EmptyModel.dim, grid_dim. cbn [EmptyModel.grid grid_shape].
  rewrite empty_model_spacing by (destruct space_order; [contradiction | lia | lia]).
  rewrite length_map.
  repeat split. apply Forall_forall. intros n Hn.
  apply in_map_iff in Hn as [s [<- _]]. reflexivity.
Qed.

Lemma empty_model_keeps_the_spacing_witness :
  exists self,
    EmptyModel.__init__ false false false [10; 10] false 8
                        ["damp"; "m_const"]%string ["m_const"%string]
    = Ok self
    /\ grid_spacing (EmptyModel.grid self) = [10; 10].
Proof.
  eexists. split; [reflexivity |].
  eapply (empty_model_keeps_the_spacing false false false [10; 10] false 8
            ["damp"; "m_const"]%string ["m_const"%string]).
  - reflexivity.
  - discriminate.
Defined.

(** The names [physical_parameters] gives to the parameters, read by
    [EmptyModel]. *)
Lemma tagged_facts (n : string) (c : bool) :
  In n parameter_names ->
  EmptyModel.endswith (tagged (n, c)) "_const" = c
  /\ (c = true -> EmptyModel.before_underscore (tagged (n, c)) = n)
  /\ (c = false -> tagged (n, c) = n)
  /\ n <> "grid"%string
  /\ (tagged (n, c) = "rho"%string -> n = "rho"%string /\ c = false)
  /\ (tagged (n, c) = "damp"%string -> n = "damp"%string /\ c = false)
  /\ (tagged (n, c) = "irho"%string -> n = "irho"%string)
  /\ (tagged (n, c) = "irho_const"%string -> n = "irho"%string).
Proof.
  unfold parameter_names. intros Hin.
  repeat (destruct Hin as [<- | Hin];
          [destruct c; repeat split; (reflexivity || discriminate) |]).
  destruct Hin.
Qed.

Lemma set_parameter_tagged (g : Grid) (attributes : dict Model.expr)
    (e : string * bool) :
  In (fst e) parameter_names ->
  dict_get attributes "grid" = None ->
  EmptyModel.set_parameter g attributes (tagged e)
  = Ok (dict_set (fst e) (Model.Sym (created g e)) attributes).
Proof.
  destruct e as [n c]. cbn [fst]. intros Hin Hgrid.
  destruct (tagged_facts n c Hin) as [He [Hc [Hf _]]].
  unfold EmptyModel.set_parameter, created. rewrite He. cbn [fst snd].
  destruct c.
  - now rewrite Hc.
  - now rewrite Hgrid, Hf.
Qed.

(** The loop of [EmptyModel.__init__] over tagged names. *)
Lemma set_parameters (g : Grid) (registry : list (string * bool)) :
  (forall e, In e registry -> In (fst e) parameter_names) ->
  forall (order seen : list string) (acc : dict Model.expr),
    (forall p, In p order -> exists e, In e registry /\ p = tagged e) ->
    (forall n v, dict_get acc n = Some v ->
       exists e, In e registry /\ In (tagged e) seen /\ fst e = n
                 /\ v = Model.Sym (created g e)) ->
    exists attributes,
      fold_left (fun acc p => attributes <- acc ;;
                              EmptyModel.set_parameter g attributes p)
                order (Ok acc)
      = Ok attributes
      /\ (forall n v, dict_get attributes n = Some v ->
            exists e, In e registry /\ In (tagged e) (seen ++ order)
                      /\ fst e = n /\ v = Model.Sym (created g e))
      /\ (forall e, In e registry -> In (tagged e) order ->
            dict_get attributes (fst e) <> None)
      /\ (forall n, dict_get acc n <> None -> dict_get attributes n <> None).
Proof.
  intros Hnames. induction order as [| p rest IH]; intros seen acc Hord Hacc.
  - exists acc. cbn [fold_left]. rewrite app_nil_r. repeat split.
    + exact Hacc.
    + intros e _ [].
    + tauto.
  - destruct (Hord p (or_introl eq_refl)) as [e [He ->]].
    assert (Hgrid : dict_get acc "grid" = None).
    { destruct (dict_get acc "grid") as [v |] eqn:E; [| reflexivity].
      destruct (Hacc _ _ E) as [e' [He' [_ [Hn _]]]].
      destruct e' as [n c]. cbn [fst] in Hn. subst n.
      destruct (tagged_facts "grid" c (Hnames _ He')) as [_ [_ [_ [Hg _]]]].
      now contradiction Hg. }
    cbn [fold_left bind].
    rewrite set_parameter_tagged by (auto using Hnames).
    destruct (IH (seen ++ [tagged e])
                 (dict_set (fst e) (Model.Sym (created g e)) acc))
      as [attributes [Hfold [Hget [Hin Hkeep]]]].
    + intros q Hq. apply Hord. now right.
    + intros n v Hv. rewrite dict_get_set in Hv.
      destruct (String.eqb_spec n (fst e)) as [-> | Hne].
      * inversion Hv; subst. exists e. repeat split; [exact He |].
        apply in_or_app. right. now left.
      * destruct (Hacc n v Hv) as [e' [He' [Hs [Hn Hval]]]].
        exists e'. repeat split; try assumption.
        apply in_or_app. now left.
    + exists attributes. split; [exact Hfold |]. repeat split.
      * intros n v Hv. destruct (Hget n v Hv) as [e' [He' [Hs [Hn Hval]]]].
        exists e'. repeat split; try assumption.
        rewrite <- app_assoc in Hs. exact Hs.
      * intros e' He' [Heq | Hrest].
        -- apply Hkeep. rewrite dict_get_set.
           assert (Hfst : fst e' = fst e).
           { destruct e as [n c], e' as [n' c'].
             pose proof (tagged_facts n c (Hnames _ He)) as [H1 [H2 [H3 _]]].
             pose proof (tagged_facts n' c' (Hnames _ He')) as [H1' [H2' [H3' _]]].
             cbn [fst].
             assert (c' = c) by (rewrite <- H1, <- H1', Heq; reflexivity).
             subst c'. destruct c.
             - rewrite <- (H2 eq_refl), <- (H2' eq_refl), Heq. reflexivity.
             - rewrite <- (H3 eq_refl), <- (H3' eq_refl), Heq. reflexivity. }
           rewrite Hfst, String.eqb_refl. discriminate.
        -- now apply Hin.
      * intros n Hn. apply Hkeep. rewrite dict_get_set.
        destruct (String.eqb n (fst e)); [discriminate | exact Hn].
Qed.

Lemma mem_In (x : string) (l : list string) :
  EmptyModel.mem x l = true <-> In x l.
Proof.
  unfold EmptyModel.mem. rewrite existsb_exists. split.
  - intros [y [Hy Heq]]. apply String.eqb_eq in Heq. now subst.
  - intros H. exists x. split; [exact H | apply String.eqb_refl].
Qed.

Lemma entry_fst (name : string) (field : option pyval) (e : string * bool) :
  In e (entry name field) -> fst e = name.
Proof.
  destruct field as [[x | v] |]; simpl; [| | tauto]; now intros [<- | []].
Qed.

(** The density is registered by [_init_density] alone. *)
Lemma registry_density (a : Model.args) (e : string * bool) :
  In e (registry a) ->
  fst e = "irho"%string \/ fst e = "rho"%string ->
  In e (density_entry a).
Proof.
  intros H Hn.
  assert (Hname : (String.eqb (fst e) "irho" || String.eqb (fst e) "rho")
                  = true).
  { destruct Hn as [-> | ->]; reflexivity. }
  clear Hn. unfold registry in H. rewrite !in_app_iff in H.
  repeat match goal with
         | H : _ \/ _ |- _ => destruct H as [H | H]
         | H : In _ (density_entry _) |- _ => exact H
         | H : In _ (if ?c then _ else _) |- _ => destruct c
         | H : In _ (_ ++ _) |- _ => rewrite in_app_iff in H
         | H : In _ (entry _ _) |- _ =>
             apply entry_fst in H; rewrite H in Hname; discriminate Hname
         | H : In _ [] |- _ => destruct H
         | H : In _ [_] |- _ =>
             destruct H as [<- | []]; discriminate Hname
         end.
Qed.

Lemma density_registry (a : Model.args) (e : string * bool) :
  In e (density_entry a) -> In e (registry a).
Proof.
  intros H. unfold registry. rewrite !in_app_iff. right. right. now left.
Qed.

Lemma unique_entry (registry : list (string * bool)) (e e' : string * bool) :
  NoDup (map fst registry) ->
  In e registry -> In e' registry -> fst e = fst e' -> e = e'.
Proof.
  induction registry as [| x rest IH]; intros Hnd He He' Hfst; [destruct He |].
  cbn [map] in Hnd. inversion Hnd as [| ? ? Hnot Hrest]; subst.
  destruct He as [-> | He], He' as [-> | He'].
  - reflexivity.
  - exfalso. apply Hnot. rewrite Hfst. now apply in_map.
  - exfalso. apply Hnot. rewrite <- Hfst. now apply in_map.
  - now apply IH.
Qed.

Lemma created_is_Constant (g : Grid) (e : string * bool) :
  Model.is_Constant (Model.Sym (created g e)) = Ok (snd e).
Proof. unfold created. now destruct (snd e). Qed.

(** X23.  The names that [physical_parameters] returns for a model built
    by [__init__] can be passed to [EmptyModel] as they are, with at
    least one spacing: whatever the order in which the set of names is
    run through, the object is built, and for every registered parameter
    of the model it has a [Constant] where the model has a [Constant]
    and a [Function] where the model has a [Function].  Its [irho] is
    the number 1 when the model was built with neither a density nor a
    buoyancy, and the expression [1 / rho] of its own field [rho] when
    the model kept the array [rho] that it was built with; when the
    model kept a number [rho], registered as [rho_const], its [irho] is
    the number 1 again. *)
Theorem empty_model_has_the_kinds_of_the_model (a : Model.args)
    (self : Model.t) (names order : list string) (tti visco elastic : bool)
    (spacing : list R) (fs : bool) (space_order : Z) :
  Model.__init__ a = Ok self ->
  Model.physical_parameters self = Ok names ->
  EmptyModel.enumerates order names ->
  spacing <> [] ->
  exists empty,
    EmptyModel.__init__ tti visco elastic spacing fs space_order names order
    = Ok empty
    /\ (forall n q,
          In n (Model._physical_parameters self) ->
          Model.getattr self n = Ok q ->
          exists q',
            EmptyModel.getattr empty n = Ok (Model.Sym q')
            /\ Model.is_Constant (Model.Sym q') = Model.is_Constant q)
    /\ (Model.arg_rho a = None -> Model.arg_b a = None ->
        EmptyModel.getattr empty "irho" = Ok (Model.Sym (Number 1)))
    /\ (forall rho,
          Model.arg_rho a = Some (NdArray rho) ->
          keeps_density (NdArray rho) = true ->
          EmptyModel.getattr empty "rho"
          = Ok (Model.Sym (Function "rho"
                             (EmptyModel.zeros (EmptyModel.grid empty))))
          /\ EmptyModel.getattr empty "irho"
             = Ok (Model.Recip (Function "rho"
                                  (EmptyModel.zeros (EmptyModel.grid empty)))))
    /\ (forall rho,
          Model.arg_rho a = Some (Scalar rho) ->
          keeps_density (Scalar rho) = true ->
          EmptyModel.getattr empty "rho" = Ok (Model.Sym (Constant "rho" 1))
          /\ EmptyModel.getattr empty "irho" = Ok (Model.Sym (Number 1))).
Proof.
  intros Hinit Hnames [_ Horder] Hspacing.
  destruct (init_registry a self Hinit) as [Hreg Hattr].
  pose proof (registry_NoDup a) as Hnd.
  assert (Hpn : forall e, In e (registry a) -> In (fst e) parameter_names).
  { intros e He. eapply sublist_In; [apply registry_sublist |].
    apply (in_map fst). exact He. }
  assert (Htag : names = map tagged (registry a)).
  { unfold Model.physical_parameters in Hnames.
    rewrite Hreg, (mapM_tagged self _ Hattr) in Hnames.
    inversion Hnames. reflexivity. }
  subst names.
  assert (Hmem : forall n c,
            In n parameter_names ->
            tagged (n, c) <> "damp"%string ->
            (EmptyModel.mem (tagged (n, c)) (map tagged (registry a)) = true
             <-> In (n, c) (registry a))
            /\ (In (n, c) (registry a) -> In (tagged (n, c)) order)).
  { intros n c Hn Hd. split; [split |].
    - intros E. apply mem_In, in_map_iff in E as [[n' c'] [Heq He]].
      destruct (tagged_facts n c Hn) as [H1 [H2 [H3 _]]].
      destruct (tagged_facts n' c' (Hpn _ He)) as [H1' [H2' [H3' _]]].
      assert (c' = c) by (rewrite <- H1, <- H1', Heq; reflexivity).
      subst c'. replace n with n'; [exact He |].
      destruct c.
      + rewrite <- (H2 eq_refl), <- (H2' eq_refl), Heq. reflexivity.
      + rewrite <- (H3 eq_refl), <- (H3' eq_refl), Heq. reflexivity.
    - intros He. apply mem_In, in_map_iff. now exists (n, c).
    - intros He. apply Horder. split; [| exact Hd].
      apply in_map_iff. now exists (n, c). }
  assert (Hpn_irho : In "irho"%string parameter_names)
    by (unfold parameter_names; simpl; tauto).
  assert (Hpn_rho : In "rho"%string parameter_names)
    by (unfold parameter_names; simpl; tauto).
  destruct (Hmem "irho"%string false Hpn_irho ltac:(discriminate))
    as [Hirho _].
  destruct (Hmem "irho"%string true Hpn_irho ltac:(discriminate))
    as [Hirhoc _].
  destruct (Hmem "rho"%string false Hpn_rho ltac:(discriminate))
    as [Hrho Hrho_order].
  destruct (Hmem "rho"%string true Hpn_rho ltac:(discriminate))
    as [_ Hrhoc_order].
  change (tagged ("irho"%string, false)) with "irho"%string in Hirho.
  change (tagged ("irho"%string, true)) with "irho_const"%string in Hirhoc.
  change (tagged ("rho"%string, false)) with "rho"%string in Hrho, Hrho_order.
  change (tagged ("rho"%string, true)) with "rho_const"%string in Hrhoc_order.
  clear Hmem.
  unfold EmptyModel.__init__.
  set (g := {| grid_extent := _; grid_shape := _ |}).
  assert (Hd : match spacing with
               | [] => Raise Model.no_dimension
               | _ :: _ => Ok (Function "damp" (EmptyModel.zeros g))
               end = Ok (Function "damp" (EmptyModel.zeros g)))
    by (destruct spacing; [contradiction | reflexivity]).
  rewrite Hd. cbn [bind]. clear Hd.
  destruct (set_parameters g (registry a) Hpn order [] [])
    as [attributes [Hfold [Hget [Hin _]]]].
  { intros p Hp. apply Horder in Hp as [Hp _].
    apply in_map_iff in Hp as [e [<- He]]. eauto. }
  { intros n v Hv. discriminate Hv. }
  cbn [app] in Hget.
  match goal with
  | |- context [bind ?f _] =>
      replace f with (Ok attributes) by (symmetry; exact Hfold)
  end.
  cbn [bind].
  assert (Hvalue : forall e, In e (registry a) -> In (tagged e) order ->
                             dict_get attributes (fst e)
                             = Some (Model.Sym (created g e))).
  { intros e He Hord. specialize (Hin e He Hord).
    destruct (dict_get attributes (fst e)) as [v |] eqn:E; [| contradiction].
    destruct (Hget _ _ E) as [e' [He' [_ [Hfst' ->]]]].
    now rewrite (unique_entry (registry a) e' e Hnd He' He Hfst'). }
  match goal with
  | |- context [bind ?f _] =>
      assert (Hfinal :
        exists final,
          f = Ok final
          /\ (forall n, n <> "irho"%string \/ In n (map fst (registry a)) ->
                        dict_get final n = dict_get attributes n)
          /\ (~ In "irho"%string (map fst (registry a)) ->
              (~ In ("rho"%string, false) (registry a) ->
               dict_get final "irho" = Some (Model.Sym (Number 1)))
              /\ (In ("rho"%string, false) (registry a) ->
                  dict_get final "irho"
                  = Some (Model.Recip (Function "rho" (EmptyModel.zeros g))))))
  end.
  { destruct (EmptyModel.mem "irho" _) eqn:E1;
      [| destruct (EmptyModel.mem "irho_const" _) eqn:E2]; cbn [negb andb].
    - exists attributes. split; [reflexivity |]. split; [reflexivity |].
      intros Hno. exfalso. apply Hno.
      assert (E : In ("irho"%string, false) (registry a)) by now apply Hirho.
      now apply (in_map fst) in E.
    - exists attributes. split; [reflexivity |]. split; [reflexivity |].
      intros Hno. exfalso. apply Hno.
      assert (E : In ("irho"%string, true) (registry a)) by now apply Hirhoc.
      now apply (in_map fst) in E.
    - assert (Hno : ~ In "irho"%string (map fst (registry a))).
      { intros Hn. apply in_map_iff in Hn as [[n c] [Hfst He]].
        cbn [fst] in Hfst. subst n. destruct c.
        + apply Hirhoc in He. discriminate He.
        + apply Hirho in He. discriminate He. }
      destruct (EmptyModel.mem "rho" _) eqn:E3; cbn [negb].
      + assert (E : In ("rho"%string, false) (registry a)) by now apply Hrho.
        clear E3. rename E into E3.
        pose proof (Hvalue _ E3 (Hrho_order E3)) as Hv.
        unfold created in Hv. cbn [fst snd] in Hv. rewrite Hv.
        eexists. split; [reflexivity |]. split; [| split].
        * intros n [Hn | Hn]; rewrite dict_get_set.
          -- destruct (String.eqb_spec n "irho"); [contradiction | reflexivity].
          -- destruct (String.eqb_spec n "irho") as [-> | _];
               [contradiction | reflexivity].
        * intros Hnot. contradiction.
        * intros _. now rewrite dict_get_set, String.eqb_refl.
      + eexists. split; [reflexivity |]. split; [| split].
        * intros n [Hn | Hn]; rewrite dict_get_set.
          -- destruct (String.eqb_spec n "irho"); [contradiction | reflexivity].
          -- destruct (String.eqb_spec n "irho") as [-> | _];
               [contradiction | reflexivity].
        * intros _. now rewrite dict_get_set, String.eqb_refl.
        * intros He. apply Hrho in He. discriminate He. }
  destruct Hfinal as [final [Hstep [Hother Hdensity]]].
  rewrite Hstep. cbn [bind]. eexists. split; [reflexivity |].
  unfold EmptyModel.getattr.
  cbn [EmptyModel.attributes EmptyModel.damp EmptyModel.grid].
  assert (Hdamp : forall c, In ("damp"%string, c) (registry a) -> c = false).
  { intros c Hc. unfold held in Hattr. rewrite Forall_forall in Hattr.
    destruct (Hattr _ Hc) as [q [Hq Hconst]]. cbn [fst snd] in Hq, Hconst.
    cbn in Hq. inversion Hq; subst q.
    destruct (init_attributes a self Hinit) as [_ [_ [_ [_ [Hd _]]]]].
    rewrite Hd in Hconst.
    destruct (negb (Model.arg_nbl a =? 0)%Z); cbn in Hconst; congruence. }
  assert (Hnone : forall entries,
            density_entry a = entries ->
            ~ In "irho"%string (map fst entries) ->
            ~ In "irho"%string (map fst (registry a))).
  { intros entries Hentries Hno Hn. apply Hno.
    apply in_map_iff in Hn as [e [Hfst He]].
    apply registry_density in He; [| now left].
    rewrite Hentries in He. rewrite <- Hfst. now apply in_map. }
  split; [| split; [| split]].
  - intros n q Hn Hq. rewrite Hreg in Hn.
    rewrite Hother by now right.
    apply in_map_iff in Hn as [e [Hfst He]].
    unfold held in Hattr. rewrite Forall_forall in Hattr.
    destruct (Hattr e He) as [q0 [Hq0 Hc]]. rewrite Hfst, Hq in Hq0.
    inversion Hq0; subst q0. clear Hq0.
    destruct (String.eqb_spec (tagged e) "damp") as [Htd | Htd].
    + destruct e as [n' c]. cbn [fst] in Hfst. subst n'.
      destruct (tagged_facts n c (Hpn _ He)) as (_ & _ & _ & _ & _ & H & _).
      destruct (H Htd) as [-> ->].
      destruct (dict_get attributes "damp") as [v |] eqn:E.
      * exfalso. destruct (Hget _ _ E) as [e' [He' [Hin' [Hfst' _]]]].
        assert (e' = ("damp"%string, false))
          by (apply (unique_entry (registry a)); assumption).
        subst e'. apply Horder in Hin' as [_ Hne]. now apply Hne.
      * cbn. eexists. split; [reflexivity |]. now rewrite Hc.
    + assert (Hord : In (tagged e) order).
      { apply Horder. split; [now apply in_map | exact Htd]. }
      rewrite <- Hfst, (Hvalue e He Hord).
      eexists. split; [reflexivity |].
      now rewrite created_is_Constant, Hc.
  - intros Hr Hb.
    assert (Hentries : density_entry a = [])
      by (unfold density_entry; now rewrite Hr, Hb).
    destruct (Hdensity (Hnone [] Hentries ltac:(simpl; tauto))) as [H1 _].
    rewrite H1; [reflexivity |].
    intros He. apply registry_density in He; [| now right].
    rewrite Hentries in He. destruct He.
  - intros rho Hr Hk.
    assert (Hentries : density_entry a = [("rho"%string, false)])
      by (unfold density_entry; now rewrite Hr, Hk).
    assert (He : In ("rho"%string, false) (registry a))
      by (apply density_registry; rewrite Hentries; now left).
    destruct (Hdensity (Hnone _ Hentries
                          ltac:(simpl; intros [H | []]; discriminate H)))
      as [_ H2].
    rewrite (H2 He). split; [| reflexivity].
    rewrite Hother by (left; discriminate).
    pose proof (Hvalue _ He (Hrho_order He)) as Hv.
    unfold created in Hv. cbn [fst snd] in Hv. now rewrite Hv.
  - intros rho Hr Hk.
    assert (Hentries : density_entry a = [("rho"%string, true)])
      by (unfold density_entry; now rewrite Hr, Hk).
    assert (He : In ("rho"%string, true) (registry a))
      by (apply density_registry; rewrite Hentries; now left).
    destruct (Hdensity (Hnone _ Hentries
                          ltac:(simpl; intros [H | []]; discriminate H)))
      as [H1 _].
    rewrite H1.
    + split; [| reflexivity].
      rewrite Hother by (left; discriminate).
      pose proof (Hvalue _ He (Hrhoc_order He)) as Hv.
      unfold created in Hv. cbn [fst snd] in Hv. now rewrite Hv.
    + intros He'. apply registry_density in He'; [| now right].
      rewrite Hentries in He'. destruct He' as [He' | []]. discriminate He'.
Qed.

Lemma empty_model_has_the_kinds_of_the_model_witness :
  exists empty,
    EmptyModel.__init__ false false true [10; 10] false 8
                        ["damp"; "rho"; "lam_const"; "mu_const"]%string
                        ["rho"; "lam_const"; "mu_const"]%string
    = Ok empty
    /\ (forall n q,
          In n (Model._physical_parameters elastic_model) ->
          Model.getattr elastic_model n = Ok q ->
          exists q',
            EmptyModel.getattr empty n = Ok (Model.Sym q')
            /\ Model.is_Constant (Model.Sym q') = Model.is_Constant q)
    /\ (Model.arg_rho elastic = None -> Model.arg_b elastic = None ->
        EmptyModel.getattr empty "irho" = Ok (Model.Sym (Number 1)))
    /\ (forall rho,
          Model.arg_rho elastic = Some (NdArray rho) ->
          keeps_density (NdArray rho) = true ->
          EmptyModel.getattr empty "rho"
          = Ok (Model.Sym (Function "rho"
                             (EmptyModel.zeros (EmptyModel.grid empty))))
          /\ EmptyModel.getattr empty "irho"
             = Ok (Model.Recip (Function "rho"
                                  (EmptyModel.zeros (EmptyModel.grid empty)))))
    /\ (forall rho,
          Model.arg_rho elastic = Some (Scalar rho) ->
          keeps_density (Scalar rho) = true ->
          EmptyModel.getattr empty "rho" = Ok (Model.Sym (Constant "rho" 1))
          /\ EmptyModel.getattr empty "irho" = Ok (Model.Sym (Number 1))).
Proof.
  apply (empty_model_has_the_kinds_of_the_model elastic elastic_model).
  - apply init_elastic_sample.
  - reflexivity.
  - split.
    + repeat constructor; simpl; intuition discriminate.
    + intros p. simpl. split.
      * intros [<- | [<- | [<- | []]]]; split; (tauto || discriminate).
      * intros [[<- | [<- | [<- | [<- | []]]]] Hp];
          [contradiction | tauto | tauto | tauto].
  - discriminate.
Defined.

(** ** The shape of the boundary field *)

Lemma div_nonneg (a b : R) : 0 <= a -> 0 <= b -> 0 <= a / b.
Proof.
  intros Ha [Hb | <-].
  - apply Rmult_le_pos; [exact Ha |]. left. now apply Rinv_0_lt_compat.
  - unfold Rdiv. rewrite Rinv_0. lra.
Qed.

(** The profile [x - sin(2 pi x) / (2 pi)] of the layers. *)
Lemma profile_nonneg (x : R) : 0 <= x -> 0 <= x - sin (2 * PI * x) / (2 * PI).
Proof.
  intros [Hx | <-].
  - pose proof PI_RGT_0 as Hpi.
    assert (H : sin (2 * PI * x) < 2 * PI * x).
    { apply sin_lt_x. nra. }
    assert (H' : sin (2 * PI * x) / (2 * PI) < x).
    { apply Rmult_lt_reg_r with (2 * PI); [lra |].
      unfold Rdiv. rewrite Rmult_assoc, Rinv_l by lra. lra. }
    lra.
  - rewrite Rmult_0_r, sin_0. unfold Rdiv. lra.
Qed.

Lemma profile_pos (x : R) : 0 < x -> 0 < x - sin (2 * PI * x) / (2 * PI).
Proof.
  intros Hx. pose proof PI_RGT_0 as Hpi.
  assert (H : sin (2 * PI * x) < 2 * PI * x).
  { apply sin_lt_x. nra. }
  assert (H' : sin (2 * PI * x) / (2 * PI) < x).
  { apply Rmult_lt_reg_r with (2 * PI); [lra |].
    unfold Rdiv. rewrite Rmult_assoc, Rinv_l by lra. lra. }
  lra.
Qed.

Lemma ramp_nonneg (n dist : Z) : (0 < n)%Z -> 0 <= Spec.ramp n dist.
Proof.
  intros Hn. apply IZR_lt in Hn. unfold Spec.ramp, Spec.coeff.
  pose proof ln_1000_pos as Hln.
  apply Rmult_le_pos.
  - apply Rmult_le_pos; [lra |]. left. now apply Rinv_0_lt_compat.
  - apply profile_nonneg. unfold Spec.pos.
    apply Rmult_le_pos; [apply Rabs_pos |]. left. now apply Rinv_0_lt_compat.
Qed.

Lemma ramp_pos (n dist : Z) :
  (0 < n)%Z -> (dist < n + 1)%Z -> 0 < Spec.ramp n dist.
Proof.
  intros Hn Hd. unfold Spec.ramp, Spec.coeff.
  pose proof ln_1000_pos as Hln.
  assert (Hn' : 0 < IZR n) by now apply IZR_lt.
  apply Rmult_lt_0_compat.
  - apply Rdiv_lt_0_compat; lra.
  - apply profile_pos. unfold Spec.pos.
    apply Rdiv_lt_0_compat; [| exact Hn'].
    apply Rabs_pos_lt. apply not_0_IZR. lia.
Qed.

Lemma contribution_nonneg (g : Grid) (cell : list Z)
    (ds : Spec.dimension_side) :
  Forall (fun h => 0 < h) (grid_spacing g) ->
  (3 < snd ds)%Z ->
  0 <= Spec.contribution g cell ds.
Proof.
  destruct ds as [[d s] t]. cbn [snd]. intros Hsp Ht.
  unfold Spec.contribution.
  destruct (Spec.in_layer s (t - 3) _ _); [| lra].
  apply div_nonneg; [apply ramp_nonneg; lia |].
  destruct (nth_in_or_default d (grid_spacing g) 0) as [Hin | ->]; [| lra].
  rewrite Forall_forall in Hsp. left. now apply Hsp.
Qed.

Lemma in_layer_distance (s : side) (n size i : Z) :
  Spec.in_layer s n size i = true ->
  (Spec.distance_to_layer_edge s size i < n)%Z.
Proof.
  unfold Spec.in_layer, Spec.distance_to_layer_edge.
  destruct s; rewrite andb_true_iff, Z.leb_le, Z.ltb_lt; lia.
Qed.

Lemma layers_sum_nonneg (g : Grid) (cell : list Z)
    (sides : list Spec.dimension_side) :
  Forall (fun h => 0 < h) (grid_spacing g) ->
  thick sides ->
  0 <= Spec.sum (map (Spec.contribution g cell) sides).
Proof.
  intros Hsp. induction sides as [| [[d s] t] rest IH]; intros Hthick.
  - simpl. lra.
  - cbn [map Spec.sum fold_right].
    fold (Spec.sum (map (Spec.contribution g cell) rest)).
    pose proof (contribution_nonneg g cell (d, s, t) Hsp
                  (thick_head _ _ _ _ Hthick)).
    specialize (IH (thick_cons _ _ Hthick)). lra.
Qed.

Lemma layers_sum_pos (g : Grid) (cell : list Z)
    (sides : list Spec.dimension_side) (d : nat) (s : side) (t : Z) :
  Forall (fun h => 0 < h) (grid_spacing g) ->
  thick sides ->
  In (d, s, t) sides ->
  (d < List.length (grid_spacing g))%nat ->
  Spec.in_layer s (t - 3) (nth d (grid_shape g) 0%Z) (nth d cell 0%Z) = true ->
  0 < Spec.sum (map (Spec.contribution g cell) sides).
Proof.
  intros Hsp. induction sides as [| ds rest IH]; intros Hthick Hin Hd Hlayer.
  - destruct Hin.
  - cbn [map Spec.sum fold_right].
    fold (Spec.sum (map (Spec.contribution g cell) rest)).
    assert (Hds : (3 < snd ds)%Z).
    { destruct ds as [[d0 s0] t0]. exact (thick_head _ _ _ _ Hthick). }
    pose proof (contribution_nonneg g cell ds Hsp Hds) as H0.
    assert (Hrest : thick rest) by (destruct ds; eapply thick_cons, Hthick).
    pose proof (layers_sum_nonneg g cell rest Hsp Hrest) as H1.
    destruct Hin as [-> | Hin].
    + cbn [snd] in Hds.
      assert (0 < Spec.contribution g cell (d, s, t)); [| lra].
      unfold Spec.contribution. rewrite Hlayer.
      apply Rdiv_lt_0_compat.
      * apply ramp_pos; [lia |]. apply in_layer_distance in Hlayer. lia.
      * rewrite Forall_forall in Hsp. apply Hsp, nth_In, Hd.
    + specialize (IH Hrest Hin Hd Hlayer). lra.
Qed.

(** X15.  On a grid of positive spacings, with more than 3 points of
    layer on every dimension-side that [damp_op] writes, the "damp"
    field is nowhere negative and the "mask" field nowhere above 1; at a
    point inside one of the layers the "damp" field is positive and the
    "mask" field below 1. *)
Theorem damping_never_amplifies (g : Grid) (padsizes : list (Z * Z))
    (fs : bool) (cell : list Z) :
  List.length padsizes = grid_dim g ->
  List.length (grid_spacing g) = grid_dim g ->
  Forall (fun h => 0 < h) (grid_spacing g) ->
  let layers :=
    filter (damped fs (grid_dim g)) (Spec.dimension_sides 0 padsizes) in
  thick layers ->
  0 <= nd_data (initialize_damp g padsizes "damp" fs) cell
  /\ nd_data (initialize_damp g padsizes "mask" fs) cell <= 1
  /\ (forall d s t,
        In (d, s, t) layers ->
        Spec.in_layer s (t - 3) (nth d (grid_shape g) 0%Z) (nth d cell 0%Z)
        = true ->
        0 < nd_data (initialize_damp g padsizes "damp" fs) cell
        /\ nd_data (initialize_damp g padsizes "mask" fs) cell < 1).
Proof.
  intros Hlen Hsplen Hsp layers Hthick.
  rewrite !initialize_damp_sum by assumption. fold layers.
  unfold abc_base, abc_sign. cbn [is_mask String.eqb Ascii.eqb Bool.eqb].
  pose proof (layers_sum_nonneg g cell layers Hsp Hthick) as H0.
  split; [lra | split; [lra |]].
  intros d s t Hin Hlayer.
  assert (Hd : (d < List.length (grid_spacing g))%nat).
  { rewrite Hsplen, <- Hlen.
    apply filter_In in Hin as [Hin _].
    apply In_dimension_sides in Hin as (k & nbl & nbr & Hk & -> & _).
    apply nth_error_Some. simpl. congruence. }
  pose proof (layers_sum_pos g cell layers d s t Hsp Hthick Hin Hd Hlayer).
  lra.
Qed.

Lemma damping_never_amplifies_witness :
  0 <= nd_data (initialize_damp Sample.square [(4, 4); (4, 4)]%Z "damp" false)
               [0; 5]%Z.
Proof.
  apply (damping_never_amplifies Sample.square [(4, 4); (4, 4)]%Z false
                                 [0; 5]%Z).
  - reflexivity.
  - reflexivity.
  - rewrite square_spacing. repeat constructor; lra.
  - intros d s t Hin. cbn in Hin.
    repeat (destruct Hin as [Hin | Hin]; [inversion Hin; lia |]).
    destruct Hin.
Defined.

Lemma abs_sin_le (h : R) : 0 <= h -> Rabs (sin h) <= h.
Proof.
  intros [Hh | <-].
  - apply Rabs_le. split.
    + destruct (Rle_lt_dec h PI) as [Hpi | Hpi].
      * pose proof (sin_ge_0 h (Rlt_le _ _ Hh) Hpi). lra.
      * pose proof (SIN_bound h) as [Hlo _]. pose proof PI_4. pose proof PI_RGT_0.
        assert (1 < PI) by (pose proof PI2_1; unfold PI2 in *; lra).
        lra.
    + left. now apply sin_lt_x.
  - rewrite sin_0, Rabs_R0. lra.
Qed.

Lemma sin_diff_le (u v : R) : u <= v -> sin v - sin u <= v - u.
Proof.
  intros H. rewrite form4.
  pose proof (abs_sin_le ((v - u) / 2)) as Hs.
  pose proof (COS_bound ((v + u) / 2)) as [Hc1 Hc2].
  assert (Hh : 0 <= (v - u) / 2) by lra. specialize (Hs Hh).
  pose proof (Rle_abs (sin ((v - u) / 2))) as Hs1.
  pose proof (Rle_abs (- sin ((v - u) / 2))) as Hs2.
  rewrite Rabs_Ropp in Hs2.
  assert (cos ((v + u) / 2) * sin ((v - u) / 2) <= (v - u) / 2); [| lra].
  destruct (Rle_lt_dec 0 (sin ((v - u) / 2))) as [Hpos | Hneg]; nra.
Qed.

Lemma profile_monotone (x y : R) :
  x <= y ->
  x - sin (2 * PI * x) / (2 * PI) <= y - sin (2 * PI * y) / (2 * PI).
Proof.
  intros H. pose proof PI_RGT_0 as Hpi.
  pose proof (sin_diff_le (2 * PI * x) (2 * PI * y)) as Hd.
  assert (Hle : 2 * PI * x <= 2 * PI * y) by nra. specialize (Hd Hle).
  assert (Hq : (sin (2 * PI * y) - sin (2 * PI * x)) / (2 * PI) <= y - x).
  { apply Rmult_le_reg_r with (2 * PI); [lra |].
    unfold Rdiv. rewrite Rmult_assoc, Rinv_l by lra. lra. }
  unfold Rdiv in *. lra.
Qed.

(** Nearer to the edge of the grid the ramp is higher. *)
Lemma ramp_antitone (n dist1 dist2 : Z) :
  (0 < n)%Z -> (dist1 <= dist2)%Z -> (dist2 < n + 1)%Z ->
  Spec.ramp n dist2 <= Spec.ramp n dist1.
Proof.
  intros Hn H12 H2. unfold Spec.ramp, Spec.coeff.
  pose proof ln_1000_pos as Hln.
  assert (Hn' : 0 < IZR n) by now apply IZR_lt.
  apply Rmult_le_compat_l.
  - left. apply Rdiv_lt_0_compat; lra.
  - apply profile_monotone. unfold Spec.pos.
    rewrite !Rabs_pos_eq by (apply IZR_le; lia).
    apply Rmult_le_compat_r; [left; now apply Rinv_0_lt_compat |].
    apply IZR_le. lia.
Qed.

Lemma sum_le_pointwise {A : Type} (f h : A -> R) (l : list A) :
  (forall x, In x l -> f x <= h x) ->
  Spec.sum (map f l) <= Spec.sum (map h l).
Proof.
  induction l as [| x rest IH]; intros H; simpl.
  - lra.
  - pose proof (H x (or_introl eq_refl)).
    assert (Spec.sum (map f rest) <= Spec.sum (map h rest))
      by (apply IH; intros y Hy; apply H; now right).
    unfold Spec.sum in *. lra.
Qed.

Lemma dimension_sides_thickness (padsizes : list (Z * Z)) (d : nat) (s : side)
    (t t' : Z) :
  In (d, s, t) (Spec.dimension_sides 0 padsizes) ->
  In (d, s, t') (Spec.dimension_sides 0 padsizes) ->
  t' = t.
Proof.
  intros H H'.
  apply In_dimension_sides in H as (k & nbl & nbr & Hk & Hd & Hs).
  apply In_dimension_sides in H' as (k' & nbl' & nbr' & Hk' & Hd' & Hs').
  simpl in Hd, Hd'. subst k k'. rewrite Hk in Hk'. inversion Hk'; subst.
  destruct Hs as [[-> ->] | [-> ->]], Hs' as [[Hs' ->] | [Hs' ->]];
    (reflexivity || discriminate).
Qed.

(** X20.  Along an axis, inside the layer of one side and outside the
    layer of the opposite side, with the other indices kept, the "damp"
    field does not decrease and the "mask" field does not increase
    towards the edge of the grid. *)
Theorem damping_grows_towards_the_edge (g : Grid) (padsizes : list (Z * Z))
    (fs : bool) (near far : list Z) (d : nat) (s : side) (t : Z) :
  List.length padsizes = grid_dim g ->
  Forall (fun h => 0 < h) (grid_spacing g) ->
  let layers :=
    filter (damped fs (grid_dim g)) (Spec.dimension_sides 0 padsizes) in
  let size := nth d (grid_shape g) 0%Z in
  thick layers ->
  In (d, s, t) layers ->
  (forall k, k <> d -> nth k near 0%Z = nth k far 0%Z) ->
  Spec.in_layer s (t - 3) size (nth d near 0%Z) = true ->
  Spec.in_layer s (t - 3) size (nth d far 0%Z) = true ->
  (forall s' t', In (d, s', t') layers -> s' <> s ->
     Spec.in_layer s' (t' - 3) size (nth d near 0%Z) = false
     /\ Spec.in_layer s' (t' - 3) size (nth d far 0%Z) = false) ->
  (Spec.distance_to_layer_edge s size (nth d near 0%Z)
   <= Spec.distance_to_layer_edge s size (nth d far 0%Z))%Z ->
  nd_data (initialize_damp g padsizes "damp" fs) far
  <= nd_data (initialize_damp g padsizes "damp" fs) near
  /\ nd_data (initialize_damp g padsizes "mask" fs) near
     <= nd_data (initialize_damp g padsizes "mask" fs) far.
Proof.
  intros Hlen Hsp layers size Hthick Hin Hsame Hnear Hfar Hother Hdist.
  rewrite !initialize_damp_sum by assumption. fold layers.
  unfold abc_base, abc_sign. cbn [is_mask String.eqb Ascii.eqb Bool.eqb].
  assert (H : Spec.sum (map (Spec.contribution g far) layers)
              <= Spec.sum (map (Spec.contribution g near) layers)); [| lra].
  apply sum_le_pointwise. intros [[d' s'] t'] Hin'.
  unfold Spec.contribution.
  destruct (Nat.eq_dec d' d) as [-> | Hd]; [| right; now rewrite Hsame].
  fold size.
  assert (Hside : s' = s \/ s' <> s)
    by (destruct s', s; (now left) || (right; discriminate)).
  destruct Hside as [-> | Hs].
  - assert (t' = t).
    { apply filter_In in Hin as [Hin _], Hin' as [Hin' _].
      eapply dimension_sides_thickness; eassumption. }
    subst t'. rewrite Hnear, Hfar.
    pose proof (Hthick d s t Hin) as Ht.
    apply Rmult_le_compat_r.
    + destruct (nth_in_or_default d (grid_spacing g) 0) as [Hn | ->].
      * rewrite Forall_forall in Hsp. left. apply Rinv_0_lt_compat. now apply Hsp.
      * rewrite Rinv_0. lra.
    + apply ramp_antitone; [lia | exact Hdist |].
      apply in_layer_distance in Hfar. lia.
  - destruct (Hother s' t' Hin' Hs) as [-> ->]. lra.
Qed.

Lemma damping_grows_towards_the_edge_witness :
  nd_data (initialize_damp Sample.square [(5, 5); (5, 5)]%Z "damp" false)
          [1; 5]%Z
  <= nd_data (initialize_damp Sample.square [(5, 5); (5, 5)]%Z "damp" false)
             [0; 5]%Z.
Proof.
  apply (damping_grows_towards_the_edge
           Sample.square [(5, 5); (5, 5)]%Z false [0; 5]%Z [1; 5]%Z
           0%nat Left 5%Z).
  - reflexivity.
  - rewrite square_spacing. repeat constructor; lra.
  - intros d s t Hin. cbn in Hin.
    repeat (destruct Hin as [Hin | Hin]; [inversion Hin; lia |]).
    destruct Hin.
  - cbn. left. reflexivity.
  - intros [| [| k]] Hk; [contradiction | reflexivity | now destruct k].
  - reflexivity.
  - reflexivity.
  - intros s' t' Hin Hs. cbn in Hin.
    repeat (destruct Hin as [Hin | Hin];
            [inversion Hin; subst; (contradiction || (split; reflexivity)) |]).
    destruct Hin.
  - cbn. lia.
Defined.

Lemma in_layer_mirror (s : side) (n size i j : Z) :
  j = (size - 1 - i)%Z ->
  Spec.in_layer (opposite s) n size j = Spec.in_layer s n size i.
Proof.
  intros ->. unfold Spec.in_layer. destruct s; cbn [opposite];
    apply eq_true_iff_eq;
    rewrite !andb_true_iff, !Z.leb_le, !Z.ltb_lt; lia.
Qed.

Lemma distance_mirror (s : side) (size i j : Z) :
  j = (size - 1 - i)%Z ->
  Spec.distance_to_layer_edge (opposite s) size j
  = Spec.distance_to_layer_edge s size i.
Proof.
  intros ->. unfold Spec.distance_to_layer_edge. destruct s; cbn [opposite]; lia.
Qed.

(** The sum of the layers of the axes from [d0] on, at a point and at its
    mirror image along the axis [d]. *)
Lemma mirrored_sum (g : Grid) (here there : list Z) (d : nat) (t : Z)
    (padsizes : list (Z * Z)) :
  (forall k, k <> d -> nth k here 0%Z = nth k there 0%Z) ->
  nth d there 0%Z = (nth d (grid_shape g) 0%Z - 1 - nth d here 0%Z)%Z ->
  forall d0,
    (d0 <= d)%nat ->
    nth_error padsizes (d - d0) = Some (t, t) ->
    Spec.sum (map (Spec.contribution g there) (Spec.dimension_sides d0 padsizes))
    = Spec.sum (map (Spec.contribution g here) (Spec.dimension_sides d0 padsizes)).
Proof.
  intros Hsame Hmirror.
  assert (Hfar : forall d0 pads,
             (d < d0)%nat ->
             Spec.sum (map (Spec.contribution g there)
                           (Spec.dimension_sides d0 pads))
             = Spec.sum (map (Spec.contribution g here)
                             (Spec.dimension_sides d0 pads))).
  { intros d0 pads. revert d0.
    induction pads as [| [nbl nbr] rest IH]; intros d0 Hd; [reflexivity |].
    cbn [Spec.dimension_sides map Spec.sum fold_right].
    fold (Spec.sum (map (Spec.contribution g there)
                        (Spec.dimension_sides (S d0) rest))).
    fold (Spec.sum (map (Spec.contribution g here)
                        (Spec.dimension_sides (S d0) rest))).
    rewrite IH by lia. unfold Spec.contribution.
    rewrite (Hsame d0) by lia. reflexivity. }
  induction padsizes as [| [nbl nbr] rest IH]; intros d0 Hd Hnth.
  - destruct (d - d0)%nat; discriminate.
  - cbn [Spec.dimension_sides map Spec.sum fold_right].
    fold (Spec.sum (map (Spec.contribution g there)
                        (Spec.dimension_sides (S d0) rest))).
    fold (Spec.sum (map (Spec.contribution g here)
                        (Spec.dimension_sides (S d0) rest))).
    destruct (Nat.eq_dec d0 d) as [-> | Hne].
    + rewrite Nat.sub_diag in Hnth. inversion Hnth; subst nbl nbr.
      rewrite Hfar by lia. unfold Spec.contribution.
      rewrite <- (in_layer_mirror Left (t - 3) _ (nth d here 0%Z)
                                  (nth d there 0%Z) Hmirror).
      rewrite <- (in_layer_mirror Right (t - 3) _ (nth d here 0%Z)
                                  (nth d there 0%Z) Hmirror).
      rewrite <- (distance_mirror Left _ (nth d here 0%Z)
                                  (nth d there 0%Z) Hmirror).
      rewrite <- (distance_mirror Right _ (nth d here 0%Z)
                                  (nth d there 0%Z) Hmirror).
      cbn [opposite]. lra.
    + rewrite IH; [| lia |].
      * unfold Spec.contribution. rewrite (Hsame d0) by lia. reflexivity.
      * replace (d - d0)%nat with (S (d - S d0)) in Hnth by lia. exact Hnth.
Qed.

(** X24.  Without a free surface, along an axis whose two layers have one
    thickness, whatever it is, the boundary field takes the same value at
    a point and at its mirror image, for either encoding. *)
Theorem damping_is_symmetric (g : Grid) (padsizes : list (Z * Z))
    (abc_type : string) (here there : list Z) (d : nat) (t : Z) :
  List.length padsizes = grid_dim g ->
  nth_error padsizes d = Some (t, t) ->
  (forall k, k <> d -> nth k here 0%Z = nth k there 0%Z) ->
  nth d there 0%Z = (nth d (grid_shape g) 0%Z - 1 - nth d here 0%Z)%Z ->
  nd_data (initialize_damp g padsizes abc_type false) there
  = nd_data (initialize_damp g padsizes abc_type false) here.
Proof.
  intros Hlen Hnth Hsame Hmirror.
  rewrite !initialize_damp_layers by assumption.
  rewrite !filter_damped_no_free_surface.
  rewrite (mirrored_sum g here there d t padsizes Hsame Hmirror 0%nat);
    [reflexivity | lia | now rewrite Nat.sub_0_r].
Qed.

Lemma damping_is_symmetric_witness :
  nd_data (initialize_damp Sample.square [(2, 2); (5, 5)]%Z "damp" false)
          [9; 5]%Z
  = nd_data (initialize_damp Sample.square [(2, 2); (5, 5)]%Z "damp" false)
            [1; 5]%Z.
Proof.
  apply (damping_is_symmetric Sample.square [(2, 2); (5, 5)]%Z "damp"
                              [1; 5]%Z [9; 5]%Z 0%nat 2%Z).
  - reflexivity.
  - reflexivity.
  - intros [| [| k]] Hk; [contradiction | reflexivity | now destruct k].
  - reflexivity.
Defined.

(** With a layer and no negative shape, every padded axis has more
    points than the layer. *)
Lemma shape_pml_above_layer (a : Model.args) :
  (0 < Model.arg_nbl a)%Z ->
  Forall (fun x => (0 <= Model.axis_shape x)%Z) (Model.axes a) ->
  Forall (fun n => (Model.arg_nbl a <= n)%Z) (Model.shape_pml_of a).
Proof.
  intros Hnbl Hshape. unfold Model.shape_pml_of.
  destruct (Model.arg_fs a).
  - apply update_last_Forall. apply Forall_map.
    eapply Forall_impl; [| exact Hshape]. cbv beta. intros x Hx. lia.
  - apply Forall_map.
    eapply Forall_impl; [| exact Hshape]. cbv beta. intros x Hx. lia.
Qed.

(** The layers [damp_op] writes for a model have the [nbl] points. *)
Lemma model_layers_thick (dim : nat) (nbl : Z) (fs : bool) :
  (0 < dim)%nat -> (3 < nbl)%Z ->
  thick (filter (damped fs dim)
                (Spec.dimension_sides 0 (Model.padsizes_of dim nbl fs))).
Proof.
  intros Hdim Hnbl d s t Hin. apply filter_In in Hin as [Hin Hkeep].
  destruct fs.
  - unfold damped in Hkeep. cbn [andb] in Hkeep.
    apply negb_true_iff in Hkeep.
    now rewrite (padsizes_of_free_surface dim nbl Hdim d s t Hin Hkeep).
  - apply In_dimension_sides in Hin as (k & l & r & Hk & _ & Hs).
    apply padsizes_of_nth in Hk as [-> Hl].
    destruct Hs as [[_ ->] | [_ ->]]; [| exact Hnbl].
    destruct Hl as [[_ ->] | [_ ->]]; exact Hnbl.
Qed.

(** X25.  A model built with more than 3 points of layer, at least one
    axis, positive spacings and no negative shape carries a boundary
    field [damp] on its grid that is nowhere negative for the "damp"
    encoding, and nowhere above 1 for the "mask" encoding of the
    viscoacoustic and elastic models. *)
Theorem absorbing_layer_of_a_new_model (a : Model.args) (self : Model.t) :
  Model.__init__ a = Ok self ->
  (3 < Model.arg_nbl a)%Z ->
  Model.axes a <> [] ->
  Forall (fun x => 0 < Model.axis_spacing x /\ (0 <= Model.axis_shape x)%Z)
         (Model.axes a) ->
  exists data,
    Model.damp self = Function "damp" data
    /\ nd_shape data = grid_shape (Model.grid self)
    /\ forall cell,
         if Model.is_some (Model.arg_qp a) || Model.is_some (Model.arg_mu a)
         then nd_data data cell <= 1
         else 0 <= nd_data data cell.
Proof.
  intros H Hnbl Haxes Hall.
  destruct (init_attributes a self H) as [_ [_ [_ [Hgrid [Hdamp _]]]]].
  assert (Hne : negb (Model.arg_nbl a =? 0)%Z = true).
  { apply negb_true_iff, Z.eqb_neq. lia. }
  rewrite Hne in Hdamp. rewrite Hdamp, Hgrid.
  eexists. split; [reflexivity |]. split; [reflexivity |].
  assert (Hdim : (0 < grid_dim (Model.grid_of a))%nat).
  { rewrite grid_of_dim. destruct (Model.axes a); [contradiction | simpl; lia]. }
  assert (Hsp : grid_spacing (Model.grid_of a)
                = map Model.axis_spacing (Model.axes a)).
  { unfold grid_spacing, Model.grid_of. cbn [grid_extent grid_shape].
    apply spacing_round_trip; [apply shape_pml_length |].
    eapply Forall_impl; [| apply shape_pml_above_layer].
    - cbv beta. intros n Hn. lia.
    - lia.
    - eapply Forall_impl; [| exact Hall]. cbv beta. tauto. }
  assert (Hpos : Forall (fun h => 0 < h) (grid_spacing (Model.grid_of a))).
  { rewrite Hsp. apply Forall_map.
    eapply Forall_impl; [| exact Hall]. cbv beta. tauto. }
  intros cell.
  rewrite initialize_damp_sum;
    [| now apply padsizes_of_length | now apply model_layers_thick].
  pose proof (layers_sum_nonneg (Model.grid_of a) cell _ Hpos
                (model_layers_thick _ _ (Model.arg_fs a) Hdim Hnbl)) as Hsum.
  unfold Model.abc_type_of, abc_base, abc_sign.
  destruct (Model.is_some (Model.arg_qp a) || Model.is_some (Model.arg_mu a));
    cbn [is_mask String.eqb Ascii.eqb Bool.eqb]; lra.
Qed.

Lemma absorbing_layer_of_a_new_model_witness :
  exists data,
    Model.damp (Sample.acoustic_model 1 None) = Function "damp" data
    /\ nd_shape data = grid_shape (Model.grid (Sample.acoustic_model 1 None))
    /\ forall cell,
         if Model.is_some (Model.arg_qp (Sample.acoustic 1 None))
            || Model.is_some (Model.arg_mu (Sample.acoustic 1 None))
         then nd_data data cell <= 1
         else 0 <= nd_data data cell.
Proof.
  apply (absorbing_layer_of_a_new_model
           (Sample.acoustic 1 None) (Sample.acoustic_model 1 None)).
  - apply init_acoustic.
  - cbn. lia.
  - discriminate.
  - repeat constructor; cbn; (lra || lia).
Defined.
